(** * Week planner: time grid, painting, aggregation and reordering

    A shallow embedding of the core of [src/App.tsx]: the 7 x 288 grid of
    optional activity ids, the range write used by painting, the per-row
    stripe classification, the allocation summary, the pointer-driven
    reordering of the activity list, activity deletion and the validation
    performed when a JSON document is imported.

    JavaScript values are modelled as follows.
    - [number] used as an index or a count: [Z] where the source can see a
      negative value ([findIndex] returning -1, the clamping of [toIndex]),
      [nat] for loop counters, days, rows and cell counts.
    - [string | null]: [option string], [None] being [null].
    - arrays: [list]; [Array.prototype.slice], [splice], [findIndex] and
      [filter] are written out below.
    - [Map<string, V>]: an insertion-ordered association list with unique
      keys ([JS.jmap]); iteration order is insertion order, and [set] on an
      existing key keeps the key's position. *)

From stdpp Require Import base list strings pretty.
From Stdlib Require Import ZArith Lia Sorted.

Open Scope string_scope.
Open Scope list_scope.
Open Scope Z_scope.

(** ** JavaScript array and Map primitives *)

Module JS.

Section Arrays.
Context {T : Type}.

(** [arr.slice(start, end)] for non-negative arguments. *)
Definition slice (l : list T) (start stop : nat) : list T :=
  take (stop - start)%nat (drop start l).

(** [arr.splice(start, deleteCount, ...items)]: the removed elements and
    the array afterwards.  A negative [start] counts from the end, a
    [start] beyond the end is the end, and [deleteCount] is clamped to
    what is left after [start]. *)
Definition splice (l : list T) (start deleteCount : Z) (items : list T)
  : list T * list T :=
  let len := Z.of_nat (length l) in
  let s := if start <? 0 then Z.max (len + start) 0 else Z.min start len in
  let dc := Z.min (Z.max deleteCount 0) (len - s) in
  (take (Z.to_nat dc) (drop (Z.to_nat s) l),
   take (Z.to_nat s) l ++ items ++ drop (Z.to_nat (s + dc)) l).

(** [arr.findIndex(p)]: the first index satisfying [p], or -1. *)
Fixpoint findIndex (p : T → bool) (l : list T) : Z :=
  match l with
  | [] => -1
  | x :: l' =>
      if p x then 0
      else let i := findIndex p l' in if i <? 0 then -1 else i + 1
  end.

(** [arr[i]] read with a [number] index: [undefined] (here [None]) when
    out of range. *)
Definition nth_Z (l : list T) (i : Z) : option T :=
  if i <? 0 then None else l !! Z.to_nat i.
End Arrays.

(** [Map<string, V>] in insertion order. *)
Abbreviation jmap V := (list (string * V)).

Section Maps.
Context {V : Type}.

Fixpoint jmap_get (m : jmap V) (k : string) : option V :=
  match m with
  | [] => None
  | (k', v) :: m' => if decide (k' = k) then Some v else jmap_get m' k
  end.

(** [m.set(k, v)]: overwrite in place, or append a new entry. *)
Fixpoint jmap_set (m : jmap V) (k : string) (v : V) : jmap V :=
  match m with
  | [] => [(k, v)]
  | (k', v') :: m' =>
      if decide (k' = k) then (k, v) :: m' else (k', v') :: jmap_set m' k v
  end.

Definition jmap_keys (m : jmap V) : list string := m.*1.
Definition jmap_values (m : jmap V) : list V := m.*2.
Definition jmap_size (m : jmap V) : nat := length m.
End Maps.

End JS.

Import JS.

(** ** Data model *)

Inductive ToolMode := paint | erase.

Record Activity := mkActivity {
  id : string;
  name : string;
  colour : string;
  icon : string;
}.

(** A grid cell: [null] (free) or an activity id. *)
Abbreviation cell := (option string).

(** [grid[day][row]]; the source keeps it as an array of 7 arrays of 288. *)
Abbreviation grid_t := (list (list cell)).

Record Plan := mkPlan {
  plan_id : string;
  plan_name : string;
  activities : list Activity;
  grid : grid_t;
  selectedActivityId : option string;
  tool : ToolMode;
}.

(** JavaScript truthiness of a [string | null]: [null], [undefined] and the
    empty string are falsy. *)
Definition truthy (c : cell) : bool :=
  match c with
  | None => false
  | Some s => if decide (s = "") then false else true
  end.

(** ** Reordering the activity list *)

(** [reorderByIndex(list, fromIndex, toIndex)].  The [Array.isArray] guard
    is discharged by the type. *)
Definition reorderByIndex {T} (l : list T) (fromIndex toIndex : Z) : list T :=
  let n := Z.of_nat (length l) in
  if (fromIndex <? 0) || (fromIndex >=? n) then l
  else
    let toIndex := if toIndex <? 0 then 0 else toIndex in
    let toIndex := if toIndex >=? n then n - 1 else toIndex in
    if fromIndex =? toIndex then l
    else
      let '(removed, next) := splice l fromIndex 1 [] in
      match removed with
      | item :: _ => snd (splice next toIndex 0 [item])
      | [] => next (* not reached: [fromIndex] is in range *)
      end.

(** The index [reorderByIndex] inserts at: [toIndex] clamped to the list. *)
Definition clamp_to {T} (l : list T) (toIndex : Z) : Z :=
  Z.max 0 (Z.min toIndex (Z.of_nat (length l) - 1)).

(** The part of the [reorderDrag] state that [onUp] reads. *)
Record ReorderDrag := mkReorderDrag {
  drag_id : string;
  pointerId : Z;
  startIndex : Z;
  insertIndex : Z;
}.

(** The [onUp] handler of the reorder gesture, as a function from the
    activity list to the activity list after the release.  [evPointer] is
    the pointer id of the event. *)
Definition onUp (acts : list Activity) (drag : ReorderDrag) (evPointer : Z)
  : list Activity :=
  if negb (evPointer =? pointerId drag) then acts
  else
    let draggedId := drag_id drag in
    let fromIndex := findIndex (λ a, bool_decide (id a = draggedId)) acts in
    let toIndex := insertIndex drag in
    let toIndex :=
      if fromIndex >=? 0 then
        let without := filter (λ a, id a ≠ draggedId) acts in
        let clamped := Z.max 0 (Z.min (Z.of_nat (length without)) toIndex) in
        let beforeId := id <$> nth_Z without clamped in
        if negb (truthy beforeId) then Z.of_nat (length acts) - 1
        else findIndex (λ a, bool_decide (Some (id a) = beforeId)) acts
      else toIndex in
    if (fromIndex >=? 0) && (toIndex >=? 0) && negb (fromIndex =? toIndex)
    then reorderByIndex acts fromIndex toIndex
    else acts.

(** The release of a reorder drag whose last insertion index is [ins]. *)
Definition release (acts : list Activity) (dragged : string) (ins : Z)
  : list Activity :=
  onUp acts
    {| drag_id := dragged; pointerId := 1;
       startIndex := findIndex (λ a, bool_decide (id a = dragged)) acts; insertIndex := ins |}
    1.

Definition act (s : string) : Activity :=
  {| id := s; name := s; colour := "#8B5CF6"; icon := "calendar" |}.

Definition ABCD : list Activity := [act "A"; act "B"; act "C"; act "D"].

(** ** The time grid *)

(** [buildEmptyWeek()]. *)
Definition buildEmptyWeek : grid_t := replicate 7%nat (replicate 288%nat None).

(** The shape every plan's grid is created with and kept in. *)
Definition wf_grid (g : grid_t) : Prop :=
  length g = 7%nat ∧ Forall (λ col, length col = 288%nat) g.

(** [(grid?.[day] ?? [])[row] ?? null]: a missing column or entry reads as
    [null]. *)
Definition cell_at (g : grid_t) (day row : nat) : cell :=
  match g !! day with
  | Some col => default None (col !! row)
  | None => None
  end.

(** [clearGridForActivity(grid, activityId)]. *)
Definition clearGridForActivity (g : grid_t) (activityId : string) : grid_t :=
  map (map (λ c : cell, if decide (c = Some activityId) then None else c)) g.

(** [arr[i] = v].  Inside the array this replaces the entry; beyond the end
    JavaScript grows the array and leaves holes, which every reader of the
    grid ([?? null], [!v], [===], [JSON.stringify]) treats as [null], so the
    holes are filled with [hole]. *)
Definition array_set {T} (hole : T) (l : list T) (i : nat) (v : T) : list T :=
  if decide (i < length l)%nat then <[i := v]> l
  else l ++ replicate (i - length l) hole ++ [v].

(** [nextGrid[dayIndex][r] = v]; [None] is the [TypeError] raised when the
    column is missing. *)
Definition set_cell (g : grid_t) (dayIndex r : nat) (v : cell) : option grid_t :=
  col ← g !! dayIndex; Some (<[dayIndex := array_set None col r v]> g).

(** The state updater of [applyRange(dayIndex, startRow, len, v)] on the
    grid: copy, clamp the end to 288 and write the rows in turn. *)
Definition applyRange_grid (g : grid_t) (dayIndex startRow len : nat) (v : cell)
  : option grid_t :=
  let nextGrid := map (λ col, col) g in
  let end_ := Nat.min 288 (startRow + len) in
  fold_left (λ og r, og ≫= λ g', set_cell g' dayIndex r v)
    (seq startRow (end_ - startRow)) (Some nextGrid).

(** [applyRange] through [updateActivePlan]: the patch [{ grid: nextGrid }]
    on the active plan. *)
Definition applyRange (p : Plan) (dayIndex startRow len : nat) (v : cell)
  : option Plan :=
  g' ← applyRange_grid (grid p) dayIndex startRow len v;
  Some (mkPlan (plan_id p) (plan_name p) (activities p) g'
          (selectedActivityId p) (tool p)).

(** [deleteActivity(activityId)]: one patch of the active plan replacing the
    activity list, the grid and the selection together. *)
Definition deleteActivity (p : Plan) (activityId : string) : Plan :=
  let nextActivities := filter (λ a, id a ≠ activityId) (activities p) in
  let nextGrid := clearGridForActivity (grid p) activityId in
  let nextSelected :=
    if decide (selectedActivityId p = Some activityId)
    then id <$> head nextActivities
    else selectedActivityId p in
  mkPlan (plan_id p) (plan_name p) nextActivities nextGrid nextSelected (tool p).

(** Every cell holding an id names an activity of the registry. *)
Definition no_dangling (p : Plan) : Prop :=
  ∀ day row x, cell_at (grid p) day row = Some x → x ∈ id <$> activities p.

(** ** Counting cells *)

(** The body shared by the counting loops of [allocationSummary] and
    [getStripeBackground]: a falsy cell counts as free, any other cell
    increments its id's entry in [counts]. *)
Definition tally_cell (acc : jmap nat * nat) (v : cell) : jmap nat * nat :=
  let '(counts, free) := acc in
  match v with
  | Some s =>
      if truthy v
      then (jmap_set counts s (default 0 (jmap_get counts s) + 1)%nat, free)
      else (counts, S free)
  | None => (counts, S free)
  end.

Definition tally (cells : list cell) : jmap nat * nat :=
  fold_left tally_cell cells ([], 0%nat).

(** The cells visited by [for day < 7] / [for row < 288], in order. *)
Definition scanned_cells (g : grid_t) : list cell :=
  day ← seq 0 7; row ← seq 0 288; [cell_at g day row].

Record AllocationSummary := mkSummary {
  minutesById : jmap nat;
  freeMinutes : nat;
  totalMinutes : nat;
}.

(** [allocationSummary] of the active plan. *)
Definition allocationSummary (p : Plan) : AllocationSummary :=
  let '(counts, freeCells) := tally (scanned_cells (grid p)) in
  let minutesById :=
    fold_left
      (λ m a, jmap_set m (id a) (default 0 (jmap_get counts (id a)) * 5)%nat)
      (activities p) [] in
  mkSummary minutesById (freeCells * 5)%nat (7 * 288 * 5)%nat.

(** The summary's minutes added over the entries of [minutesById]. *)
Definition activityMinutes (s : AllocationSummary) : nat :=
  sum_list (jmap_values (minutesById s)).

(** ** Stripes *)

(** [activityById]: the registry as a [Map] from id to activity. *)
Definition activityById (acts : list Activity) : jmap Activity :=
  fold_left (λ m a, jmap_set m (id a) a) acts [].

Record Segment := mkSegment {
  key : string;
  seg_colour : string;
  n : nat;
  label : string;
}.

(** [arr.sort(cmp)].  [Array.prototype.sort] is stable, and a stable sort
    by a comparator that orders by a numeric key has one possible result;
    it is computed here by insertion from the right. *)
Section Sort.
Context {T : Type} (cmp : T → T → Z).

Fixpoint sort_insert (x : T) (l : list T) : list T :=
  match l with
  | [] => [x]
  | y :: l' => if cmp x y <=? 0 then x :: y :: l' else y :: sort_insert x l'
  end.

Definition js_sort (l : list T) : list T := foldr sort_insert [] l.
End Sort.

(** The comparator [(a, b) => b.n - a.n]. *)
Definition by_count_desc (a b : Segment) : Z := Z.of_nat (n b) - Z.of_nat (n a).

(** The segment pushed for an entry [[id, n]] of [counts]. *)
Definition activity_segment (byId : jmap Activity) (e : string * nat) : Segment :=
  let a := jmap_get byId e.1 in
  mkSegment e.1 (default "#A3A3A3" (colour <$> a)) e.2
    (default "Unknown" (name <$> a)).

Definition free_segment (free : nat) : Segment :=
  mkSegment "__free__" "rgba(255,255,255,0.06)" free "Free".

(** The [segments] array before the sort: the entries of [counts] in
    insertion order, then the free segment when there are free slots. *)
Definition unsorted_segments (byId : jmap Activity) (counts : jmap nat)
  (free : nat) : list Segment :=
  (activity_segment byId <$> counts)
    ++ (if decide (0 < free)%nat then [free_segment free] else []).

(** A colour stop of the gradient: the band from [stop_from / total] to
    [stop_to / total] of the row's width.  The source prints both bounds as
    percentages with two decimals. *)
Record Stop := mkStop {
  stop_colour : string;
  stop_from : nat;
  stop_to : nat;
  stop_total : nat;
}.

Definition gradient_stops (total : nat) (segments : list Segment) : list Stop :=
  (fold_left
     (λ '(acc, stops) s,
        ((acc + n s)%nat, stops ++ [mkStop (seg_colour s) acc (acc + n s) total]))
     segments (0%nat, [])).2.

(** A line of the tooltip: a label and a duration in minutes. *)
Definition tip_lines (segments : list Segment) : list (string * nat) :=
  (λ s, (label s, (n s * 5)%nat)) <$> filter (λ s, (0 < n s)%nat) segments.

(** The result of [getStripeBackground].  For a mixed row the source returns
    the gradient and the tooltip as strings; the model keeps the stops and
    the tooltip lines they are printed from. *)
Inductive Stripe :=
| StripeFree
| StripeSingle (activity : option Activity)
| StripeMixed (gradient : list Stop) (tip : list (string * nat)).

(** The fine slots of a coarse row:
    [grid?.[dayIndex]?.slice(startRow, startRow + viewStep) ?? []]. *)
Definition row_ids (g : grid_t) (viewStep dayIndex startRow : nat) : list cell :=
  match g !! dayIndex with
  | Some col => slice col startRow (startRow + viewStep)
  | None => []
  end.

(** The sorted [segments] array of a row. *)
Definition row_segments (acts : list Activity) (ids : list cell) : list Segment :=
  let '(counts, free) := tally ids in
  js_sort by_count_desc (unsorted_segments (activityById acts) counts free).

(** [getStripeBackground] after the slice. *)
Definition classify (acts : list Activity) (viewStep : nat) (ids : list cell)
  : Stripe :=
  let '(counts, free) := tally ids in
  if decide (jmap_size counts = 0%nat) then StripeFree
  else if decide (jmap_size counts = 1%nat ∧ free = 0%nat) then
    StripeSingle (head (jmap_keys counts) ≫= jmap_get (activityById acts))
  else
    let segments := row_segments acts ids in
    StripeMixed (gradient_stops viewStep segments) (tip_lines segments).

Definition getStripeBackground (p : Plan) (viewStep dayIndex startRow : nat)
  : Stripe :=
  classify (activities p) viewStep (row_ids (grid p) viewStep dayIndex startRow).

(** A small plan with two activities, both painted, and [A] selected. *)
Definition plan_AB : Plan :=
  mkPlan "p" "P" [act "A"; act "B"] [[Some "A"; Some "B"; None]; [Some "B"]]
    (Some "A") paint.

(** ** Reference notions used to state what the counting loops compute *)

(** The ids held by the non-free cells of a list of cells, in order. *)
Definition held_ids (cells : list cell) : list string :=
  omap (λ c : cell, if truthy c then c else None) cells.

(** The number of free cells of a list of cells. *)
Definition free_count (cells : list cell) : nat :=
  length (filter (λ c, truthy c = false) cells).

(** The distinct elements of a list in the order of their first
    occurrence. *)
Fixpoint first_seen (l : list string) : list string :=
  match l with
  | [] => []
  | x :: l' => x :: filter (λ y, y ≠ x) (first_seen l')
  end.

(** The number of occurrences of [x] in [l]. *)
Definition occurrences (x : string) (l : list string) : nat :=
  length (filter (λ y, y = x) l).

(** The [Map] holding [f k] under each key of [ks], in that order. *)
Definition tabulate {V} (f : string → V) (ks : list string) : jmap V :=
  (λ k, (k, f k)) <$> ks.

(** The first slot of a row at which a segment is encountered: the first
    free slot for the free segment, the first slot holding the segment's id
    otherwise. *)
Definition segment_first_slot (ids : list cell) (s : Segment) : option nat :=
  if decide (key s = "__free__")
  then fst <$> list_find (λ c, truthy c = false) ids
  else fst <$> list_find (λ c, c = Some (key s)) ids.

(** Segments of equal count appear in the order in which they are first
    encountered in the row. *)
Definition ties_in_encounter_order (ids : list cell) (segs : list Segment) : Prop :=
  ∀ (i j : nat) s1 s2,
    segs !! i = Some s1 → segs !! j = Some s2 → (i < j)%nat → n s1 = n s2 →
    ∃ a b, segment_first_slot ids s1 = Some a
           ∧ segment_first_slot ids s2 = Some b ∧ (a < b)%nat.

(** The segment of a held id [k] in a row. *)
Definition segment_of (acts : list Activity) (ids : list cell) (k : string)
  : Segment :=
  activity_segment (activityById acts) (k, occurrences k (held_ids ids)).

(** Descending order of the slot counts. *)
Definition count_desc (a b : Segment) : Prop := (n b ≤ n a)%nat.

(** A one-hour row whose first six slots are free and whose last six hold
    activity [A]. *)
Definition row_free_then_A : list cell :=
  replicate 6%nat None ++ replicate 6%nat (Some "A").

(** A plan whose first hour is free on Monday, all [A] on Tuesday and half
    [A], half [B] on Wednesday. *)
Definition plan_hour : Plan :=
  mkPlan "p" "P" [act "A"; act "B"]
    (<[2%nat := replicate 6%nat (Some "A") ++ replicate 6%nat (Some "B")
                ++ replicate 276%nat None]>
       (<[1%nat := replicate 12%nat (Some "A") ++ replicate 276%nat None]>
          buildEmptyWeek))
    (Some "A") paint.

(** The scanned cells that hold an id absent from the registry. *)
Definition unknown_cells (p : Plan) : nat :=
  length (filter (λ x, x ∉ id <$> activities p)
            (held_ids (scanned_cells (grid p)))).

(** The default plan's activities on an empty week, with one cell of Monday
    holding an id that no activity has. *)
Definition plan_ghost : Plan :=
  mkPlan "p" "P" ABCD
    (<[0%nat := Some "ghost" :: replicate 287%nat None]> buildEmptyWeek)
    (Some "A") paint.

(** ** Painting *)

(** The three refs of the paint gesture: [isMouseDownRef],
    [dragPaintModeRef] and [lastPaintRef]. *)
Record PaintRefs := mkRefs {
  isMouseDown : bool;
  dragPaintMode : ToolMode;
  lastPaint : option nat * option nat;
}.

(** A call [applyRange(dayIndex, startRow, len, value)]. *)
Record RangeWrite := mkWrite {
  w_day : nat;
  w_start : nat;
  w_len : nat;
  w_value : cell;
}.

(** The fields of the mouse event read by [onCellPointerDown]; [buttons] is
    [None] when the event has no numeric [buttons]. *)
Record MouseEvent := mkMouse {
  button : Z;
  buttons : option Z;
}.

Definition leftClick : MouseEvent := mkMouse 0 (Some 1).
Definition rightClick : MouseEvent := mkMouse 2 (Some 2).

Definition mode_value (mode : ToolMode) (activePlan : Plan) : cell :=
  match mode with
  | erase => None
  | paint => selectedActivityId activePlan
  end.

(** [onCellPointerEnter(dayIndex, startRow)]: the refs afterwards and the
    [applyRange] call made, if any. *)
Definition onCellPointerEnter (viewStep : nat) (refs : PaintRefs)
  (activePlan : Plan) (dayIndex startRow : nat) : PaintRefs * option RangeWrite :=
  if negb (isMouseDown refs) then (refs, None)
  else if decide (lastPaint refs = (Some dayIndex, Some startRow)) then (refs, None)
  else
    let refs' := mkRefs (isMouseDown refs) (dragPaintMode refs)
                   (Some dayIndex, Some startRow) in
    let mode := dragPaintMode refs' in
    (refs', Some (mkWrite dayIndex startRow viewStep (mode_value mode activePlan))).

(** [onCellPointerDown(e, dayIndex, startRow)]. *)
Definition onCellPointerDown (viewStep : nat) (e : MouseEvent) (refs : PaintRefs)
  (activePlan : Plan) (dayIndex startRow : nat) : PaintRefs * option RangeWrite :=
  let buttons := default 0 (buttons e) in
  let isRightClick := (button e =? 2) || (Z.land buttons 2 =? 2) in
  let refs' := mkRefs true (if isRightClick then erase else tool activePlan)
                 (Some dayIndex, Some startRow) in
  (refs', Some (mkWrite dayIndex startRow viewStep
                  (mode_value (dragPaintMode refs') activePlan))).

(** The global [mouseup] / [mouseleave] handler. *)
Definition onMouseUp (refs : PaintRefs) : PaintRefs :=
  mkRefs false paint (None, None).

Definition initialRefs : PaintRefs := mkRefs false paint (None, None).

Inductive PaintEvent :=
| CellDown (e : MouseEvent) (dayIndex startRow : nat)
| CellEnter (dayIndex startRow : nat)
| MouseUp.

(** Carrying out the [applyRange] call of a handler on the active plan; an
    exception in the state updater leaves the plan as it was. *)
Definition perform (p : Plan) (w : option RangeWrite) : Plan :=
  match w with
  | Some w => default p (applyRange p (w_day w) (w_start w) (w_len w) (w_value w))
  | None => p
  end.

Definition paint_step (viewStep : nat) (st : PaintRefs * Plan) (ev : PaintEvent)
  : (PaintRefs * Plan) * option RangeWrite :=
  let '(refs, p) := st in
  match ev with
  | CellDown e d r =>
      let '(refs', w) := onCellPointerDown viewStep e refs p d r in
      ((refs', perform p w), w)
  | CellEnter d r =>
      let '(refs', w) := onCellPointerEnter viewStep refs p d r in
      ((refs', perform p w), w)
  | MouseUp => ((onMouseUp refs, p), None)
  end.

(** Running a sequence of events: the final state and the [applyRange]
    calls made, in order. *)
Fixpoint paint_run (viewStep : nat) (st : PaintRefs * Plan) (evs : list PaintEvent)
  : (PaintRefs * Plan) * list RangeWrite :=
  match evs with
  | [] => (st, [])
  | ev :: evs' =>
      let '(st', w) := paint_step viewStep st ev in
      let '(st'', ws) := paint_run viewStep st' evs' in
      (st'', option_list w ++ ws)
  end.

(** A stroke: a press on a cell followed by the cells entered. *)
Definition stroke (e : MouseEvent) (c0 : nat * nat) (cs : list (nat * nat))
  : list PaintEvent :=
  CellDown e c0.1 c0.2 :: ((λ c, CellEnter c.1 c.2) <$> cs).

(** The cells of a sequence with every run of consecutive repetitions of
    the cell [last] or of one another collapsed to its first member. *)
Fixpoint collapse_runs (last : option (nat * nat)) (cs : list (nat * nat))
  : list (nat * nat) :=
  match cs with
  | [] => []
  | c :: cs' =>
      if decide (last = Some c) then collapse_runs last cs'
      else c :: collapse_runs (Some c) cs'
  end.

(** The mode of a stroke begun with event [e]. *)
Definition stroke_mode (e : MouseEvent) (p : Plan) : ToolMode :=
  if (button e =? 2) || (Z.land (default 0 (buttons e)) 2 =? 2)
  then erase else tool p.

Definition write_cell (w : RangeWrite) : nat * nat := (w_day w, w_start w).

(** Slot [r] of day [d] lies in the block of [g] slots written for the
    coarse cell [c]. *)
Definition in_block (g : nat) (c : nat * nat) (d r : nat) : Prop :=
  d = c.1 ∧ (c.2 ≤ r < Nat.min 288 (c.2 + g))%nat.

#[global] Instance in_block_dec g c d r : Decision (in_block g c d r).
Proof. unfold in_block. apply _. Defined.

(** Slot [r] of day [d] lies in the block of one of the cells [cs]. *)
Definition touched (g : nat) (cs : list (nat * nat)) (d r : nat) : Prop :=
  Exists (λ c, in_block g c d r) cs.

#[global] Instance touched_dec g cs d r : Decision (touched g cs d r).
Proof. unfold touched. apply _. Defined.

(** A cell of the visible grid: a day below 7 and a start slot below 288. *)
Definition valid_cell (c : nat * nat) : Prop := (c.1 < 7)%nat ∧ (c.2 < 288)%nat.

(** The default plan's activities on an empty week. *)
Definition plan_empty : Plan :=
  mkPlan "p" "P" ABCD buildEmptyWeek (Some "A") paint.

(** ** Importing a document *)

(** A value produced by [JSON.parse].  The validation inspects a document
    to a fixed depth, so no induction principle is generated. *)
Unset Elimination Schemes.
Inductive json :=
| JNull
| JBool (b : bool)
| JNum (z : Z)
| JStr (s : string)
| JArr (items : list json)
| JObj (fields : list (string * json)).
Set Elimination Schemes.

(** The result of [safeParseJSON]. *)
Inductive ParseResult :=
| ParseOk (value : json)
| ParseError (error : string).

(** [v.k] on a parsed value for the keys read by [applyImport]: the last
    binding of [k] in an object ([JSON.parse] keeps the last of repeated
    keys), [undefined] (here [None]) on an array or a primitive. *)
Definition get_field (v : json) (k : string) : option json :=
  match v with
  | JObj fields => snd <$> last (filter (λ kv, kv.1 = k) fields)
  | _ => None
  end.

(** [v && typeof v === "object"]: arrays and objects; [null] is falsy. *)
Definition is_object (v : json) : bool :=
  match v with
  | JArr _ | JObj _ => true
  | _ => false
  end.

(** [typeof x === "string"] for a property that may be absent. *)
Definition is_string (x : option json) : bool :=
  match x with
  | Some (JStr _) => true
  | _ => false
  end.

(** [Array.isArray(x)], returning the items. *)
Definition as_array (x : option json) : option (list json) :=
  match x with
  | Some (JArr items) => Some items
  | _ => None
  end.

(** The predicate passed to [v.plans.every] in [applyImport]. *)
Definition plan_ok (p : json) : bool :=
  is_object p
  && is_string (get_field p "id")
  && is_string (get_field p "name")
  && bool_decide (is_Some (as_array (get_field p "activities")))
  && match as_array (get_field p "grid") with
     | Some cols =>
         bool_decide (length cols = 7%nat)
         && forallb (λ col, match as_array (Some col) with
                            | Some cells => bool_decide (length cells = 288%nat)
                            | None => false
                            end) cols
     | None => false
     end.

Inductive StatusType := status_ok | status_error.

(** The state [applyImport] acts on.  A plan is held as the JSON object it
    is at run time: an accepted document's [plans] array is stored as it
    was parsed. *)
Record ImportState := mkImportState {
  plans : list json;
  activePlanId : option string;
  jsonStatus : option (StatusType * string);
}.

Definition reject (st : ImportState) (message : string) : ImportState :=
  mkImportState (plans st) (activePlanId st) (Some (status_error, message)).

(** [applyImport()] on the result of parsing [jsonBuffer]. *)
Definition applyImport (st : ImportState) (parsed : ParseResult) : ImportState :=
  match parsed with
  | ParseError error => reject st error
  | ParseOk v =>
      if negb (is_object v) then reject st "JSON must be an object."
      else
        match as_array (get_field v "plans") with
        | None | Some [] =>
            reject st "JSON must include a non-empty 'plans' array."
        | Some (p0 :: ps) =>
            if negb (forallb plan_ok (p0 :: ps)) then
              reject st
                "One or more plans are invalid. Expected 7x288 grid per plan."
            else
              mkImportState (p0 :: ps)
                (match get_field v "activePlanId" with
                 | Some (JStr s) => Some s
                 | _ => match get_field p0 "id" with
                        | Some (JStr s) => Some s
                        | _ => None
                        end
                 end)
                (Some (status_ok, "Imported successfully."))
        end
  end.

(** ** Documents used in the examples *)

Definition json_grid (columns rows : nat) : json :=
  JArr (replicate columns (JArr (replicate rows JNull))).

Definition json_plan (activities grid : json) : json :=
  JObj [("id", JStr "p1"); ("name", JStr "Week"); ("activities", activities);
        ("grid", grid); ("selectedActivityId", JNull); ("tool", JStr "paint")].

Definition json_doc (plan : json) : json :=
  JObj [("version", JNum 3); ("activePlanId", JStr "p1"); ("plans", JArr [plan])].

(** A document whose only plan has an activity entry without id and name,
    and another entry that is not an object. *)
Definition doc_bad_activities : json :=
  json_doc (json_plan (JArr [JObj [("colour", JStr "#E11D48")]; JNum 7])
              (json_grid 7 288)).

Definition doc_six_columns : json :=
  json_doc (json_plan (JArr []) (json_grid 6 288)).

Definition state0 : ImportState :=
  mkImportState [json_plan (JArr []) (json_grid 7 288)] (Some "p1") None.

(** ** Shapes of documents *)

(** The [plans] array is missing, not an array, or empty. *)
Definition plans_missing_or_empty (v : json) : Prop :=
  as_array (get_field v "plans") = None ∨ as_array (get_field v "plans") = Some [].

(** The grid of a plan is not an array of exactly 7 columns, or one of its
    columns is not an array of exactly 288 entries. *)
Definition grid_malformed (p : json) : Prop :=
  match as_array (get_field p "grid") with
  | None => True
  | Some cols =>
      length cols ≠ 7%nat
      ∨ ∃ col, col ∈ cols ∧ ∀ cells, col = JArr cells → length cells ≠ 288%nat
  end.

Definition fails_grid_validation (v : json) : Prop :=
  plans_missing_or_empty v
  ∨ ∃ ps p, as_array (get_field v "plans") = Some ps ∧ p ∈ ps ∧ grid_malformed p.

(** An activity entry with a string [id] and a string [name]. *)
Definition activity_entry_ok (a : json) : Prop :=
  is_string (get_field a "id") = true ∧ is_string (get_field a "name") = true.

(** What [plan_ok] accepts, written out: an object or array with a string
    [id], a string [name], an [activities] array and a [grid] of 7 arrays of
    288 entries. *)
Definition plan_shape (p : json) : Prop :=
  is_object p = true
  ∧ (∃ s, get_field p "id" = Some (JStr s))
  ∧ (∃ s, get_field p "name" = Some (JStr s))
  ∧ (∃ acts, get_field p "activities" = Some (JArr acts))
  ∧ ∃ cols, get_field p "grid" = Some (JArr cols)
            ∧ length cols = 7%nat
            ∧ Forall (λ col, ∃ cells, col = JArr cells ∧ length cells = 288%nat) cols.

(** The import was rejected: the plans and the active plan id are those of
    [st] and the status reports an error with a reason. *)
Definition rejected (st st' : ImportState) : Prop :=
  plans st' = plans st
  ∧ activePlanId st' = activePlanId st
  ∧ ∃ reason, jsonStatus st' = Some (status_error, reason).

(** The import was accepted. *)
Definition accepted (st' : ImportState) : Prop :=
  jsonStatus st' = Some (status_ok, "Imported successfully.").

(** ** Patches of the active plan *)

(** [Partial<Activity>]: the fields a patch sets. *)
Record ActivityPatch := mkActivityPatch {
  set_id : option string;
  set_name : option string;
  set_colour : option string;
  set_icon : option string;
}.

(** [{ ...a, ...patch }] on an activity. *)
Definition patch_activity (a : Activity) (q : ActivityPatch) : Activity :=
  mkActivity (default (id a) (set_id q)) (default (name a) (set_name q))
    (default (colour a) (set_colour q)) (default (icon a) (set_icon q)).

(** [Partial<Plan>]. *)
Record PlanPatch := mkPlanPatch {
  patch_id : option string;
  patch_name : option string;
  patch_activities : option (list Activity);
  patch_grid : option grid_t;
  patch_selected : option (option string);
  patch_tool : option ToolMode;
}.

Definition no_patch : PlanPatch := mkPlanPatch None None None None None None.

(** [{ ...current, ...patch }] on a plan. *)
Definition apply_patch (current : Plan) (patch : PlanPatch) : Plan :=
  mkPlan (default (plan_id current) (patch_id patch))
    (default (plan_name current) (patch_name patch))
    (default (activities current) (patch_activities patch))
    (default (grid current) (patch_grid patch))
    (default (selectedActivityId current) (patch_selected patch))
    (default (tool current) (patch_tool patch)).

(** [makeDefaultPlan(name)]; [pid] is the id built from [uid()]. *)
Definition makeDefaultPlan (pid name : string) : Plan :=
  mkPlan pid name
    [mkActivity "a_work" "Work" "#E11D48" "briefcase";
     mkActivity "a_family" "Family" "#0EA5E9" "users";
     mkActivity "a_sleep" "Sleep" "#64748B" "bed";
     mkActivity "a_admin" "Admin" "#22C55E" "laptop"]
    buildEmptyWeek (Some "a_work") paint.

(** The updater of [addActivity()]; [newId] is the id built from [uid()]. *)
Definition addActivity (p : Plan) (newId : string) : Plan :=
  apply_patch p
    (mkPlanPatch None None
       (Some (activities p ++ [mkActivity newId "New activity" "#8B5CF6" "calendar"]))
       None (Some (Some newId)) None).

(** The updater of [updateActivity(activityId, patch)]. *)
Definition updateActivity (p : Plan) (activityId : string) (q : ActivityPatch)
  : Plan :=
  apply_patch p
    (mkPlanPatch None None
       (Some ((λ a, if decide (id a = activityId) then patch_activity a q else a)
                <$> activities p))
       None None None).

(** The updater of [clearActivityCells(activityId)]. *)
Definition clearActivityCells (p : Plan) (activityId : string) : Plan :=
  apply_patch p
    (mkPlanPatch None None None (Some (clearGridForActivity (grid p) activityId))
       None None).

(** The patch built by the updater of [deleteActivity(activityId)]. *)
Definition deleteActivity_patch (p : Plan) (activityId : string) : PlanPatch :=
  let nextActivities := filter (λ a, id a ≠ activityId) (activities p) in
  mkPlanPatch None None (Some nextActivities)
    (Some (clearGridForActivity (grid p) activityId))
    (Some (if decide (selectedActivityId p = Some activityId)
           then id <$> head nextActivities
           else selectedActivityId p))
    None.

(** [updateActivePlan({ selectedActivityId: a.id })]. *)
Definition selectActivity (p : Plan) (activityId : string) : Plan :=
  apply_patch p (mkPlanPatch None None None None (Some (Some activityId)) None).

(** [updateActivePlan({ tool })]. *)
Definition setTool (p : Plan) (t : ToolMode) : Plan :=
  apply_patch p (mkPlanPatch None None None None None (Some t)).

(** The release of a reorder drag on the active plan: the patch
    [{ activities: reorderByIndex(...) }] when [onUp] applies one. *)
Definition reorderRelease (p : Plan) (drag : ReorderDrag) (evPointer : Z) : Plan :=
  apply_patch p
    (mkPlanPatch None None (Some (onUp (activities p) drag evPointer))
       None None None).

(** The invariants of a plan: a 7 x 288 grid, distinct activity ids, no
    cell holding an id absent from the registry, and a selection that is
    [null] or an id of the registry. *)
Definition plan_invariant (p : Plan) : Prop :=
  wf_grid (grid p)
  ∧ NoDup (id <$> activities p)
  ∧ no_dangling p
  ∧ ∀ x, selectedActivityId p = Some x → x ∈ id <$> activities p.

(** The cell an event names is a cell of the visible grid. *)
Definition event_valid (ev : PaintEvent) : Prop :=
  match ev with
  | CellDown _ d r | CellEnter d r => valid_cell (d, r)
  | MouseUp => True
  end.

(** The colour stops tile the interval from [a] to [b]: each starts where
    the one before ends, none is empty, the first starts at [a] and the last
    ends at [b]. *)
Fixpoint tiles (a : nat) (stops : list Stop) (b : nat) : Prop :=
  match stops with
  | [] => a = b
  | s :: stops' =>
      stop_from s = a ∧ (stop_from s < stop_to s)%nat ∧ tiles (stop_to s) stops' b
  end.

(** The number of cells of the 7 x 288 scan that hold the id [k]. *)
Definition cells_holding (g : grid_t) (k : string) : nat :=
  length (filter (λ c, c = Some k) (scanned_cells g)).

(** The index at which [onUp] leaves the dragged item: for a list of [len]
    items, the item at index [i] and the insertion index [k] (counted in the
    list without the item).  [k] is first clamped to [0, len-1]; above the
    item's own index the item goes to the clamped index, from the item's own
    index on it goes one further down, at most to the end. *)
Definition resolved_index (len i k : Z) : Z :=
  let k' := Z.max 0 (Z.min (len - 1) k) in
  if k' <? i then k' else Z.min (k' + 1) (len - 1).

(** ** The plans of the application *)

(** The [plans] and [activePlanId] state of [App]. *)
Record AppState := mkApp {
  app_plans : list Plan;
  app_activePlanId : option string;
}.

(** [plans.find((p) => p.id === activePlanId) ?? plans[0]]; [None] is
    [undefined], for an empty list of plans. *)
Definition activePlan (st : AppState) : option Plan :=
  match list_find (λ p, Some (plan_id p) = app_activePlanId st) (app_plans st) with
  | Some (_, p) => Some p
  | None => head (app_plans st)
  end.


(** The effect that keeps [activePlanId] valid. *)
Definition keepActiveValid (st : AppState) : AppState :=
  match app_plans st with
  | [] => st
  | p0 :: _ =>
      if negb (truthy (app_activePlanId st))
         || negb (existsb (λ p, bool_decide (Some (plan_id p) = app_activePlanId st))
                    (app_plans st))
      then mkApp (app_plans st) (Some (plan_id p0))
      else st
  end.

Inductive PlanModalMode := modal_new | modal_rename | modal_duplicate | modal_delete.

(** The modal state written by [commitPlanModal]. *)
Record ModalState := mkModal {
  planModalOpen : bool;
  planModalError : option string;
}.

(** [cloneDeep(plan)]: a plan holds only strings, [null] and arrays of such,
    which [JSON.parse(JSON.stringify(...))] gives back as they are. *)
Definition cloneDeep (p : Plan) : Plan := p.

(** [commitPlanModal()].  [trimmed] is [planNameDraft.trim()] and [newId]
    the id built from [uid()]; a character of [trimmed] stands for one code
    unit.  [None] is the [TypeError] of reading a field of [activePlan]
    without an active plan. *)
Definition commitPlanModal (mode : PlanModalMode) (trimmed newId : string)
  (st : AppState) (m : ModalState) : option (AppState * ModalState) :=
  let invalid :=
    match mode with
    | modal_delete => None
    | _ =>
        if bool_decide (trimmed = "") then Some "Please enter a name."
        else if (60 <? String.length trimmed)%nat then Some "Name is too long."
        else None
    end in
  match invalid with
  | Some message => Some (st, mkModal (planModalOpen m) (Some message))
  | None =>
      let closed := mkModal false (planModalError m) in
      match mode with
      | modal_new =>
          let p := makeDefaultPlan newId trimmed in
          Some (mkApp (app_plans st ++ [p]) (Some (plan_id p)), closed)
      | modal_rename =>
          ap ← activePlan st;
          Some (mkApp
                  ((λ p, if decide (plan_id p = plan_id ap)
                         then apply_patch p
                                (mkPlanPatch None (Some trimmed) None None None None)
                         else p) <$> app_plans st)
                  (app_activePlanId st), closed)
      | modal_duplicate =>
          ap ← activePlan st;
          let copyPlan :=
            apply_patch (cloneDeep ap)
              (mkPlanPatch (Some newId) (Some trimmed) None None None None) in
          Some (mkApp (app_plans st ++ [copyPlan]) (Some (plan_id copyPlan)), closed)
      | modal_delete =>
          if (length (app_plans st) <=? 1)%nat then Some (st, closed)
          else
            ap ← activePlan st;
            let remaining := filter (λ p, plan_id p ≠ plan_id ap) (app_plans st) in
            Some (mkApp remaining (plan_id <$> head remaining), closed)
      end
  end.

(** ** The reorder gesture before the release *)

Inductive IndicatorPos := above | below.

(** The result of [computeInsertIndex]. *)
Record InsertHint := mkHint {
  hint_insertIndex : Z;
  hint_indicatorId : option string;
  hint_indicatorPos : IndicatorPos;
}.

(** [computeInsertIndex(clientY, draggedId)].  The vertical coordinates are
    JavaScript numbers that the function only compares: [Y] is their type
    and [ltY a b] the comparison [a < b].  [midY x] is the measured midpoint
    [r.top + r.height / 2] of the row of activity [x], [None] when the row
    has no element in [activityRowRefs]. *)
Definition computeInsertIndex {Y : Type} (ltY : Y → Y → bool)
  (midY : string → option Y) (acts : list Activity) (clientY : Y)
  (draggedId : string) : InsertHint :=
  let ordered := id <$> acts in
  let orderedWithout := filter (λ x, x ≠ draggedId) ordered in
  let entries := omap (λ x, (λ y, (x, y)) <$> midY x) orderedWithout in
  let beforeId :=
    (λ e, e.2.1) <$> list_find (λ e, ltY clientY e.2 = true) entries in
  if negb (truthy beforeId) then
    mkHint (Z.of_nat (length orderedWithout)) (last orderedWithout) below
  else
    mkHint (findIndex (λ x, bool_decide (Some x = beforeId)) orderedWithout)
      beforeId above.

(** [startReorder(e, activityId)]: the drag state it sets, [None] when it
    returns without starting a drag.  [mounted x] tells whether the row of
    [x] has an element in [activityRowRefs]. *)
Definition startReorder (evButton evPointer : Z) (mounted : string → bool)
  (acts : list Activity) (activityId : string) : option ReorderDrag :=
  if negb (evButton =? 0) then None
  else if negb (mounted activityId) then None
  else
    let startIndex := findIndex (λ a, bool_decide (id a = activityId)) acts in
    Some (mkReorderDrag activityId evPointer startIndex startIndex).

(** The [onMove] handler: the drag state after a pointer move. *)
Definition onMove {Y : Type} (ltY : Y → Y → bool) (midY : string → option Y)
  (acts : list Activity) (drag : ReorderDrag) (evPointer : Z) (clientY : Y)
  : ReorderDrag :=
  if negb (evPointer =? pointerId drag) then drag
  else
    mkReorderDrag (drag_id drag) (pointerId drag) (startIndex drag)
      (hint_insertIndex (computeInsertIndex ltY midY acts clientY (drag_id drag))).

(** Row midpoints used in the examples: the rows of [A], [B], [C] and [D]
    are 20 units high and stacked from 0. *)
Definition midY_ABCD (x : string) : option Z :=
  if decide (x = "A") then Some 10
  else if decide (x = "B") then Some 30
  else if decide (x = "C") then Some 50
  else if decide (x = "D") then Some 70
  else None.

(** ** Exporting and persisting *)

(** The JSON value of a plan: what [JSON.parse(JSON.stringify(plan))]
    gives for a value of type [Plan]. *)
Definition cell_json (c : cell) : json :=
  match c with
  | None => JNull
  | Some s => JStr s
  end.

Definition activity_json (a : Activity) : json :=
  JObj [("id", JStr (id a)); ("name", JStr (name a));
        ("colour", JStr (colour a)); ("icon", JStr (icon a))].

Definition tool_json (t : ToolMode) : json :=
  match t with
  | paint => JStr "paint"
  | erase => JStr "erase"
  end.

Definition plan_json (p : Plan) : json :=
  JObj [("id", JStr (plan_id p)); ("name", JStr (plan_name p));
        ("activities", JArr (activity_json <$> activities p));
        ("grid", JArr ((λ col, JArr (cell_json <$> col)) <$> grid p));
        ("selectedActivityId", cell_json (selectedActivityId p));
        ("tool", tool_json (tool p))].

(** The payload of [openExport()]:
    [{ version: 3, activePlanId: activePlan.id, plans }]. *)
Definition export_payload (ap : Plan) (plans : list Plan) : json :=
  JObj [("version", JNum 3); ("activePlanId", JStr (plan_id ap));
        ("plans", JArr (plan_json <$> plans))].




(** ** Labels *)

(** [String(n).padStart(2, "0")] for a natural number [n]: its decimal
    digits, with a leading zero when there is only one. *)
Definition pad2 (n : nat) : string :=
  String.concat "" (replicate (2 - String.length (pretty n)) "0") +:+ pretty n.

(** [timeLabelForRow(rowIndex)]. *)
Definition timeLabelForRow (rowIndex : nat) : string :=
  let totalMins := (rowIndex * 5)%nat in
  let hh := (totalMins / 60)%nat in
  let mm := (totalMins mod 60)%nat in
  pad2 hh +:+ ":" +:+ pad2 mm.

(** [timeRangeLabel(startRow, numRows)]. *)
Definition timeRangeLabel (startRow numRows : nat) : string :=
  let startMins := (startRow * 5)%nat in
  let endMins := ((startRow + numRows) * 5)%nat in
  let startHH := (startMins / 60)%nat in
  let startMM := (startMins mod 60)%nat in
  let endHH := (endMins / 60)%nat in
  let endMM := (endMins mod 60)%nat in
  pad2 startHH +:+ ":" +:+ pad2 startMM +:+ "-" +:+ pad2 endHH +:+ ":" +:+ pad2 endMM.

(** [formatMinutes(totalMinutes)]. *)
Definition formatMinutes (totalMinutes : nat) : string :=
  let h := (totalMinutes / 60)%nat in
  let m := (totalMinutes mod 60)%nat in
  pretty h +:+ "h " +:+ pad2 m +:+ "m".

(** ** Theorems *)

Section Reorder.
Context {T : Type}.
Implicit Types l : list T.

Lemma splice_remove_one l (i : nat) x :
  l !! i = Some x →
  splice l (Z.of_nat i) 1 [] = ([x], take i l ++ drop (S i) l).
Proof.
  intros Hi. pose proof (lookup_lt_Some _ _ _ Hi) as Hlt.
  unfold splice.
  destruct (Z.ltb_spec (Z.of_nat i) 0) as [?|_]; [lia|].
  cbv zeta. rewrite (Z.min_l (Z.of_nat i)) by lia.
  replace (Z.min (Z.max 1 0) (Z.of_nat (length l) - Z.of_nat i)) with 1 by lia.
  replace (Z.to_nat (Z.of_nat i + 1)) with (S i) by lia.
  rewrite Nat2Z.id, (drop_S _ _ _ Hi). reflexivity.
Qed.

Lemma splice_insert_one l (j : nat) x :
  (j ≤ length l)%nat →
  splice l (Z.of_nat j) 0 [x] = ([], take j l ++ x :: drop j l).
Proof.
  intros Hj. unfold splice.
  destruct (Z.ltb_spec (Z.of_nat j) 0) as [?|_]; [lia|].
  cbv zeta. rewrite (Z.min_l (Z.of_nat j)) by lia.
  replace (Z.min (Z.max 0 0) (Z.of_nat (length l) - Z.of_nat j)) with 0 by lia.
  rewrite Z.add_0_r, Nat2Z.id. reflexivity.
Qed.
End Reorder.

Section ReorderByIndex.
Context {T : Type}.
Implicit Types l : list T.

Lemma reorderByIndex_out_of_range l fromIndex toIndex :
  ¬ (0 ≤ fromIndex < Z.of_nat (length l)) →
  reorderByIndex l fromIndex toIndex = l.
Proof.
  intros Hout. unfold reorderByIndex.
  destruct (Z.ltb_spec fromIndex 0); [reflexivity|].
  destruct (Z.geb_spec fromIndex (Z.of_nat (length l))); [reflexivity|lia].
Qed.

Lemma reorderByIndex_in_range l fromIndex toIndex :
  0 ≤ fromIndex < Z.of_nat (length l) →
  reorderByIndex l fromIndex toIndex =
    if fromIndex =? clamp_to l toIndex then l
    else match l !! Z.to_nat fromIndex with
         | Some x =>
             let rest := delete (Z.to_nat fromIndex) l in
             take (Z.to_nat (clamp_to l toIndex)) rest
               ++ x :: drop (Z.to_nat (clamp_to l toIndex)) rest
         | None => l
         end.
Proof.
  intros Hin. unfold reorderByIndex.
  destruct (Z.ltb_spec fromIndex 0); [lia|].
  destruct (Z.geb_spec fromIndex (Z.of_nat (length l))); [lia|]. cbn [orb].
  set (t1 := if toIndex <? 0 then 0 else toIndex).
  set (t2 := if t1 >=? Z.of_nat (length l) then Z.of_nat (length l) - 1 else t1).
  assert (t2 = clamp_to l toIndex) as ->.
  { unfold t2, t1, clamp_to.
    destruct (Z.ltb_spec toIndex 0);
      [destruct (Z.geb_spec 0 (Z.of_nat (length l)))
      |destruct (Z.geb_spec toIndex (Z.of_nat (length l)))]; lia. }
  destruct (Z.eqb_spec fromIndex (clamp_to l toIndex)) as [|Hne]; [reflexivity|].
  destruct (lookup_lt_is_Some_2 l (Z.to_nat fromIndex)) as [x Hx]; [lia|].
  rewrite Hx.
  replace fromIndex with (Z.of_nat (Z.to_nat fromIndex)) at 1 by lia.
  rewrite (splice_remove_one _ _ _ Hx), <- delete_take_drop.
  replace (clamp_to l toIndex)
    with (Z.of_nat (Z.to_nat (clamp_to l toIndex))) at 1 by (unfold clamp_to; lia).
  rewrite splice_insert_one; [reflexivity|].
  rewrite length_delete by eauto. unfold clamp_to. lia.
Qed.

Lemma reorderByIndex_perm l fromIndex toIndex :
  reorderByIndex l fromIndex toIndex ≡ₚ l.
Proof.
  destruct (decide (0 ≤ fromIndex < Z.of_nat (length l))) as [Hin|Hout].
  - rewrite (reorderByIndex_in_range _ _ _ Hin).
    destruct (_ =? _); [reflexivity|].
    destruct (l !! Z.to_nat fromIndex) as [x|] eqn:Hx; [|reflexivity].
    cbv zeta. rewrite <- Permutation_middle, take_drop.
    symmetry. by apply delete_Permutation.
  - by rewrite reorderByIndex_out_of_range.
Qed.
End ReorderByIndex.

(** C10. [reorderByIndex] returns a permutation of its input for every list
    and every pair of integers: an out-of-range [fromIndex] returns the list
    as it is; otherwise [toIndex] is clamped into [0, length-1], equal
    resolved indices return the list as it is, and different ones remove the
    element at [fromIndex] and insert it again at the clamped [toIndex]. *)
Theorem reorderByIndex_permutation {T} (l : list T) (fromIndex toIndex : Z) :
  reorderByIndex l fromIndex toIndex ≡ₚ l
  ∧ (¬ (0 ≤ fromIndex < Z.of_nat (length l)) →
     reorderByIndex l fromIndex toIndex = l)
  ∧ (0 ≤ fromIndex < Z.of_nat (length l) →
     0 ≤ clamp_to l toIndex ≤ Z.of_nat (length l) - 1
     ∧ (toIndex < 0 → clamp_to l toIndex = 0)
     ∧ (Z.of_nat (length l) ≤ toIndex → clamp_to l toIndex = Z.of_nat (length l) - 1)
     ∧ (0 ≤ toIndex < Z.of_nat (length l) → clamp_to l toIndex = toIndex)
     ∧ (fromIndex = clamp_to l toIndex → reorderByIndex l fromIndex toIndex = l)
     ∧ (fromIndex ≠ clamp_to l toIndex →
        ∃ x, l !! Z.to_nat fromIndex = Some x
             ∧ reorderByIndex l fromIndex toIndex =
                 take (Z.to_nat (clamp_to l toIndex)) (delete (Z.to_nat fromIndex) l)
                 ++ x :: drop (Z.to_nat (clamp_to l toIndex)) (delete (Z.to_nat fromIndex) l))).
Proof.
  split; [apply reorderByIndex_perm|].
  split; [apply reorderByIndex_out_of_range|].
  intros Hin. pose proof (reorderByIndex_in_range l fromIndex toIndex Hin) as Heq.
  repeat split; try (unfold clamp_to; lia).
  - intros Hsame. rewrite Heq. by destruct (Z.eqb_spec fromIndex (clamp_to l toIndex)).
  - intros Hne. rewrite Heq.
    destruct (Z.eqb_spec fromIndex (clamp_to l toIndex)); [done|].
    destruct (lookup_lt_is_Some_2 l (Z.to_nat fromIndex)) as [x Hx]; [lia|].
    exists x. by rewrite Hx.
Qed.

Lemma reorderByIndex_permutation_witness :
  reorderByIndex ["a"; "b"; "c"; "d"] 1 7 = ["a"; "c"; "d"; "b"]
  ∧ reorderByIndex ["a"; "b"; "c"; "d"] 9 0 = ["a"; "b"; "c"; "d"].
Proof.
  split.
  - destruct (reorderByIndex_permutation ["a"; "b"; "c"; "d"] 1 7)
      as (_ & _ & Hin).
    destruct Hin as (_ & _ & _ & _ & _ & Hmove); [simpl; lia|].
    destruct Hmove as (x & Hx & ->); [vm_compute; discriminate|].
    injection Hx as <-. reflexivity.
  - destruct (reorderByIndex_permutation ["a"; "b"; "c"; "d"] 9 0)
      as (_ & Hout & _).
    apply Hout. simpl. lia.
Defined.

(** C1. The release of a reorder drag on [A,B,C,D].  Dragging A (index 0)
    to the insertion point before D, below the item at index 2, leaves A
    after D: the handler takes D's index in the full list, 3, as the target
    of [reorderByIndex], one more than the position before D once A is
    taken out.  Dragging C (index 2) above A gives [C,A,B,D], and a release
    that resolves to the start index leaves the list as it is. *)
Theorem onUp_drag_down_lands_after_sibling :
  id <$> release ABCD "A" 2 = ["B"; "C"; "D"; "A"]
  ∧ id <$> release ABCD "A" 2 ≠ ["B"; "C"; "A"; "D"]
  ∧ id <$> release ABCD "C" 0 = ["C"; "A"; "B"; "D"]
  ∧ release ABCD "D" 3 = ABCD.
Proof. repeat split; vm_compute; congruence. Qed.

(** A press on A's handle released without any pointer move (the insertion
    index is still the start index) moves A below B. *)
Lemma onUp_click_moves_item_down :
  id <$> release ABCD "A" 0 = ["B"; "A"; "C"; "D"].
Proof. reflexivity. Qed.

Section Grid.
Local Open Scope nat_scope.
Implicit Types (g : grid_t) (col : list cell) (v : cell).

Lemma cell_at_insert_eq g day col row :
  day < length g → cell_at (<[day := col]> g) day row = default None (col !! row).
Proof. intros Hd. unfold cell_at. by rewrite list_lookup_insert_eq. Qed.

Lemma cell_at_insert_ne g day d col row :
  d ≠ day → cell_at (<[day := col]> g) d row = cell_at g d row.
Proof. intros Hd. unfold cell_at. by rewrite list_lookup_insert_ne. Qed.

Lemma cell_at_empty day row : cell_at buildEmptyWeek day row = None.
Proof.
  unfold cell_at, buildEmptyWeek.
  destruct (replicate 7 (replicate 288 None) !! day) as [col|] eqn:Hcol;
    [|done].
  apply lookup_replicate in Hcol as [-> _].
  destruct (replicate 288 None !! row) as [c|] eqn:Hc; [|done].
  by apply lookup_replicate in Hc as [-> _].
Qed.

(** The write loop, when the column exists and the rows are inside it. *)
Lemma write_loop_in_range k : ∀ g day startRow v col,
  g !! day = Some col →
  startRow + k ≤ length col →
  fold_left (λ og r, og ≫= λ g', set_cell g' day r v) (seq startRow k) (Some g)
  = Some (<[day := take startRow col ++ replicate k v ++ drop (startRow + k) col]> g).
Proof.
  induction k as [|k IH]; intros g day startRow v col Hcol Hlen.
  - simpl. rewrite Nat.add_0_r, take_drop. by rewrite list_insert_id.
  - cbn [seq fold_left]. unfold set_cell at 2. cbn. rewrite Hcol. cbn.
    unfold array_set. rewrite decide_True by lia.
    pose proof (lookup_lt_Some _ _ _ Hcol) as Hday.
    rewrite (IH _ _ _ _ (<[startRow := v]> col)).
    + rewrite list_insert_insert_eq. do 2 f_equal.
      rewrite (take_S_r _ _ v) by (apply list_lookup_insert_eq; lia).
      rewrite take_insert_ge by lia.
      rewrite drop_insert_lt by lia.
      rewrite <- app_assoc. cbn. do 3 f_equal. f_equal. lia.
    + by apply list_lookup_insert_eq.
    + rewrite length_insert. lia.
Qed.

Lemma applyRange_grid_wf g day startRow len v :
  wf_grid g → day < 7 → startRow < 288 →
  ∃ col, g !! day = Some col ∧ length col = 288 ∧
    applyRange_grid g day startRow len v =
      Some (<[day := take startRow col
                      ++ replicate (Nat.min 288 (startRow + len) - startRow) v
                      ++ drop (Nat.min 288 (startRow + len)) col]> g).
Proof.
  intros [Hlen Hcols] Hday Hstart.
  destruct (lookup_lt_is_Some_2 g day) as [col Hcol]; [lia|].
  assert (length col = 288) as Hc.
  { by apply (Forall_lookup_1 _ _ _ _ Hcols Hcol). }
  exists col. split; [done|]. split; [done|].
  unfold applyRange_grid. rewrite map_id.
  destruct (decide (len = 0)) as [->|Hpos].
  - rewrite Nat.add_0_r, Nat.min_r, Nat.sub_diag by lia. simpl.
    by rewrite take_drop, list_insert_id.
  - rewrite (write_loop_in_range _ _ _ _ _ col) by (done || lia).
    do 5 f_equal. lia.
Qed.

(** [applyRange] on a 7 x 288 grid, cell by cell. *)
Lemma applyRange_spec (p : Plan) (day startRow len : nat) v :
  wf_grid (grid p) → day < 7 → startRow < 288 →
  ∃ p', applyRange p day startRow len v = Some p'
    ∧ wf_grid (grid p')
    ∧ activities p' = activities p
    ∧ selectedActivityId p' = selectedActivityId p
    ∧ tool p' = tool p
    ∧ ∀ d r, cell_at (grid p') d r
             = if decide (in_block len (day, startRow) d r) then v
               else cell_at (grid p) d r.
Proof.
  intros Hwf Hday Hstart.
  destruct (applyRange_grid_wf (grid p) day startRow len v Hwf Hday Hstart)
    as (col & Hcol & Hlen & Heq).
  unfold applyRange. rewrite Heq.
  remember (Nat.min 288 (startRow + len)) as e eqn:He.
  eexists. split; [reflexivity|]. cbn.
  assert (length (grid p) = 7) as Hg by apply Hwf.
  split; [|repeat split; try done].
  - split; [by rewrite length_insert|].
    apply Forall_insert; [apply Hwf|].
    rewrite !length_app, length_take, length_replicate, length_drop. lia.
  - intros d r.
    destruct (decide (in_block len (day, startRow) d r)) as [[-> Hin]|Hout];
      unfold in_block in *; cbn [fst snd] in *; rewrite <- He in *.
    + rewrite cell_at_insert_eq by lia.
      rewrite lookup_app_r; rewrite length_take; [|lia].
      rewrite lookup_app_l by (rewrite length_replicate; lia).
      rewrite lookup_replicate_2; [done|lia].
    + destruct (decide (d = day)) as [->|Hd]; [|by apply cell_at_insert_ne].
      rewrite cell_at_insert_eq by lia.
      unfold cell_at. rewrite Hcol. f_equal.
      destruct (decide (r < startRow)) as [Hlt|Hge].
      * rewrite lookup_app_l by (rewrite length_take; lia).
        by rewrite lookup_take_lt.
      * assert (e ≤ r) as Her by lia.
        rewrite lookup_app_r; rewrite length_take; [|lia].
        rewrite lookup_app_r; rewrite length_replicate; [|lia].
        rewrite lookup_drop. f_equal. lia.
Qed.
End Grid.

(** C5. On a 7 x 288 grid, for a day below 7 and a start slot below 288,
    [applyRange] succeeds; afterwards every slot of that day from
    [startRow] up to, not including, [min 288 (startRow + len)] reads as the
    written value, every other cell of the grid reads as before, the grid
    is still 7 x 288 and the rest of the plan is untouched. *)
Theorem applyRange_writes_exactly_the_range
  (p : Plan) (dayIndex startRow len : nat) (v : cell) :
  wf_grid (grid p) → (dayIndex < 7)%nat → (startRow < 288)%nat →
  ∃ p', applyRange p dayIndex startRow len v = Some p'
    ∧ (∀ r, (startRow ≤ r < Nat.min 288 (startRow + len))%nat →
         cell_at (grid p') dayIndex r = v)
    ∧ (∀ d r, ¬ (d = dayIndex ∧ (startRow ≤ r < Nat.min 288 (startRow + len))%nat) →
         cell_at (grid p') d r = cell_at (grid p) d r)
    ∧ wf_grid (grid p')
    ∧ activities p' = activities p
    ∧ selectedActivityId p' = selectedActivityId p
    ∧ tool p' = tool p.
Proof.
  intros Hwf Hday Hstart.
  destruct (applyRange_spec p dayIndex startRow len v Hwf Hday Hstart)
    as (p' & Heq & Hwf' & Hacts & Hsel & Htool & Hcells).
  exists p'. repeat split; try done; try apply Hwf'.
  - intros r Hr. rewrite Hcells. by rewrite decide_True.
  - intros d r Hout. rewrite Hcells. by rewrite decide_False.
Qed.

Lemma applyRange_writes_exactly_the_range_witness :
  ∃ p', applyRange (mkPlan "p" "P" ABCD buildEmptyWeek (Some "A") paint)
          6 282 12 (Some "A") = Some p'
    ∧ cell_at (grid p') 6 287 = Some "A"
    ∧ cell_at (grid p') 6 281 = None.
Proof.
  destruct (applyRange_writes_exactly_the_range
              (mkPlan "p" "P" ABCD buildEmptyWeek (Some "A") paint)
              6 282 12 (Some "A")) as (p' & Heq & Hin & Hout & _).
  - split; [reflexivity|]. cbn. repeat constructor.
  - lia.
  - lia.
  - exists p'. split; [exact Heq|]. split.
    + apply Hin. lia.
    + rewrite Hout; [reflexivity|lia].
Defined.

Section Delete.
Lemma cell_at_clear (g : grid_t) (X : string) (day row : nat) :
  cell_at (clearGridForActivity g X) day row
  = if decide (cell_at g day row = Some X) then None else cell_at g day row.
Proof.
  unfold cell_at, clearGridForActivity.
  change (map ?f ?l) with (f <$> l). rewrite list_lookup_fmap.
  destruct (g !! day) as [col|]; cbn; [|by case_decide].
  change (map ?f ?l) with (f <$> l). rewrite list_lookup_fmap.
  destruct (col !! row) as [c|]; cbn; [|by case_decide].
  repeat case_decide; congruence.
Qed.

Lemma deleteActivity_ids (p : Plan) (X x : string) :
  x ∈ id <$> activities (deleteActivity p X) ↔ x ∈ id <$> activities p ∧ x ≠ X.
Proof.
  cbn. rewrite !list_elem_of_fmap. split.
  - intros (a & -> & Ha). apply list_elem_of_filter in Ha as [Hne Ha].
    split; [by exists a|done].
  - intros [(a & -> & Ha) Hne]. exists a. split; [done|].
    by apply list_elem_of_filter.
Qed.
End Delete.

(** C6. After [deleteActivity X]: no cell of the grid holds [X]; [X] is
    not an id of the registry; if [X] was selected the selection is [null]
    or the id of an activity that is still in the registry, and otherwise
    it is kept; and when no cell named an unknown id before the deletion,
    none does after it.  The activity list, the grid and the selection are
    replaced by one patch, so no state in between is visible. *)
Theorem deleteActivity_leaves_no_reference (p : Plan) (X : string) :
  (∀ day row, cell_at (grid (deleteActivity p X)) day row ≠ Some X)
  ∧ Forall (Forall (λ c, c ≠ Some X)) (grid (deleteActivity p X))
  ∧ (X ∉ id <$> activities (deleteActivity p X))
  ∧ (selectedActivityId p = Some X →
     selectedActivityId (deleteActivity p X) = None
     ∨ (∃ a, a ∈ activities (deleteActivity p X)
             ∧ selectedActivityId (deleteActivity p X) = Some (id a)))
  ∧ (selectedActivityId p ≠ Some X →
     selectedActivityId (deleteActivity p X) = selectedActivityId p)
  ∧ (no_dangling p → no_dangling (deleteActivity p X)).
Proof.
  repeat split.
  - intros day row. cbn. rewrite cell_at_clear. case_decide; congruence.
  - cbn. unfold clearGridForActivity.
    apply Forall_forall. intros col' Hcol'.
    change (map ?f ?l) with (f <$> l) in Hcol'.
    apply list_elem_of_fmap in Hcol' as (col & -> & _).
    apply Forall_forall. intros c' Hc'.
    change (map ?f ?l) with (f <$> l) in Hc'.
    apply list_elem_of_fmap in Hc' as (c & -> & _).
    case_decide; congruence.
  - rewrite deleteActivity_ids. tauto.
  - intros Hsel. cbn. rewrite decide_True by done.
    destruct (head _) as [a|] eqn:Hhead; cbn; [right|by left].
    exists a. split; [|done]. by apply head_Some_elem_of.
  - intros Hsel. cbn. by rewrite decide_False.
  - intros Hok day row x Hx. cbn in Hx. rewrite cell_at_clear in Hx.
    case_decide as Heq; [done|].
    apply deleteActivity_ids. split; [by apply (Hok day row)|congruence].
Qed.

Lemma deleteActivity_leaves_no_reference_witness :
  (selectedActivityId (deleteActivity plan_AB "A") = None
   ∨ (∃ a, a ∈ activities (deleteActivity plan_AB "A")
           ∧ selectedActivityId (deleteActivity plan_AB "A") = Some (id a)))
  ∧ selectedActivityId (deleteActivity plan_AB "B") = Some "A"
  ∧ no_dangling (deleteActivity plan_AB "A").
Proof.
  split; [|split].
  - apply (deleteActivity_leaves_no_reference plan_AB "A"). reflexivity.
  - apply (deleteActivity_leaves_no_reference plan_AB "B"). discriminate.
  - apply (deleteActivity_leaves_no_reference plan_AB "A").
    intros [|[|day]] [|[|[|row]]] x; cbn; intros [= <-]; repeat constructor.
Defined.

(** ** What the counting loop computes *)

Section JMap.
Context {V : Type}.
Implicit Types (f : string → V) (ks : list string).

Lemma jmap_get_tabulate f ks x :
  jmap_get (tabulate f ks) x = if decide (x ∈ ks) then Some (f x) else None.
Proof.
  unfold tabulate. induction ks as [|k ks IH]; cbn.
  - rewrite decide_False; [done|]. by intros ?%elem_of_nil.
  - destruct (decide (k = x)) as [->|Hne].
    + rewrite decide_True; [done|]. constructor.
    + rewrite IH. destruct (decide (x ∈ ks)) as [Hin|Hout].
      * rewrite decide_True; [done|]. by constructor.
      * rewrite decide_False; [done|].
        intros [?|?]%elem_of_cons; congruence.
Qed.

Lemma jmap_set_tabulate_new f ks x v :
  x ∉ ks → jmap_set (tabulate f ks) x v = tabulate f ks ++ [(x, v)].
Proof.
  unfold tabulate. induction ks as [|k ks IH]; intros Hout; cbn; [done|].
  apply not_elem_of_cons in Hout as [Hne Hout].
  rewrite decide_False by congruence. f_equal. by apply IH.
Qed.

Lemma jmap_set_tabulate_old f ks x v :
  x ∈ ks → NoDup ks →
  jmap_set (tabulate f ks) x v
  = tabulate (λ k, if decide (k = x) then v else f k) ks.
Proof.
  unfold tabulate.
  induction ks as [|k ks IH]; intros Hin Hnd; [by apply elem_of_nil in Hin|].
  apply NoDup_cons in Hnd as [Hk Hnd]. cbn.
  destruct (decide (k = x)) as [->|Hne].
  - f_equal. apply list_fmap_ext. intros i k Hlk.
    rewrite decide_False; [done|].
    intros ->. apply Hk. by eapply list_elem_of_lookup_2.
  - f_equal. apply IH; [|done].
    apply elem_of_cons in Hin as [?|?]; congruence.
Qed.
End JMap.

Section FirstSeen.
Local Open Scope nat_scope.
Implicit Types (l : list string) (x k : string).

Lemma elem_of_first_seen l x : x ∈ first_seen l ↔ x ∈ l.
Proof.
  induction l as [|y l IH]; cbn; [done|].
  rewrite !elem_of_cons, list_elem_of_filter, IH.
  destruct (decide (x = y)); tauto.
Qed.

Lemma NoDup_first_seen l : NoDup (first_seen l).
Proof.
  induction l as [|y l IH]; cbn; [constructor|].
  apply NoDup_cons. split; [|by apply NoDup_filter].
  rewrite list_elem_of_filter. tauto.
Qed.

Lemma first_seen_snoc l x :
  first_seen (l ++ [x])
  = if decide (x ∈ l) then first_seen l else first_seen l ++ [x].
Proof.
  induction l as [|y l IH]; cbn.
  - rewrite decide_False; [done|]. by intros ?%elem_of_nil.
  - rewrite IH. destruct (decide (x = y)) as [->|Hne].
    + rewrite (decide_True (P := y ∈ y :: l)) by constructor.
      destruct (decide (y ∈ l)); [done|].
      rewrite filter_app. cbn. rewrite decide_False by tauto.
      by rewrite app_nil_r.
    + destruct (decide (x ∈ l)) as [Hin|Hout].
      * rewrite decide_True; [done|]. by constructor.
      * rewrite decide_False by (intros [?|?]%elem_of_cons; congruence).
        rewrite filter_app. cbn. by rewrite decide_True.
Qed.

Lemma occurrences_snoc k l x :
  occurrences k (l ++ [x])
  = occurrences k l + (if decide (x = k) then 1 else 0).
Proof.
  unfold occurrences. rewrite filter_app, length_app. cbn.
  by destruct (decide (x = k)).
Qed.

Lemma occurrences_none k l : k ∉ l → occurrences k l = 0.
Proof.
  intros Hout. unfold occurrences.
  induction l as [|y l IH]; cbn; [done|].
  apply not_elem_of_cons in Hout as [Hne Hout].
  rewrite decide_False by congruence. by apply IH.
Qed.

Lemma occurrences_pos k l : k ∈ l → 0 < occurrences k l.
Proof.
  unfold occurrences.
  induction l as [|y l IH]; intros Hin; [by apply elem_of_nil in Hin|]. cbn.
  destruct (decide (y = k)) as [->|Hne]; cbn; [lia|].
  apply IH. apply elem_of_cons in Hin as [?|?]; congruence.
Qed.

Lemma held_ids_snoc cells (c : cell) :
  held_ids (cells ++ [c])
  = held_ids cells ++ (if truthy c then option_list c else []).
Proof.
  unfold held_ids. rewrite omap_app. f_equal.
  destruct c as [s|]; cbn; [|done]. by destruct (decide (s = "")).
Qed.

Lemma free_count_snoc cells (c : cell) :
  free_count (cells ++ [c])
  = free_count cells + (if truthy c then 0 else 1).
Proof.
  unfold free_count. rewrite filter_app, length_app. cbn.
  by destruct (truthy c).
Qed.

(** The counting loop in closed form: [counts] lists the held ids in the
    order of their first occurrence, each with its number of occurrences,
    and [free] is the number of free cells. *)
Lemma tally_spec (cells : list cell) :
  tally cells
  = (tabulate (λ k, occurrences k (held_ids cells)) (first_seen (held_ids cells)),
     free_count cells).
Proof.
  induction cells as [|c cells IH] using rev_ind; [done|].
  unfold tally in *. rewrite fold_left_app, IH. cbn [fold_left].
  rewrite held_ids_snoc, free_count_snoc.
  set (l := held_ids cells).
  destruct c as [s|]; cbn [tally_cell]; cycle 1.
  { cbn. rewrite app_nil_r. f_equal. lia. }
  destruct (truthy (Some s)) eqn:Ht; cycle 1.
  { rewrite app_nil_r. f_equal. lia. }
  change (option_list (Some s)) with [s]. f_equal; [|lia].
  rewrite jmap_get_tabulate, first_seen_snoc.
  destruct (decide (s ∈ l)) as [Hin|Hout].
  - rewrite decide_True by by apply elem_of_first_seen. cbn.
    rewrite jmap_set_tabulate_old;
      [|by apply elem_of_first_seen|apply NoDup_first_seen].
    apply list_fmap_ext. intros i k Hk.
    rewrite occurrences_snoc.
    destruct (decide (k = s)) as [->|Hne].
    + by rewrite decide_True.
    + rewrite decide_False by congruence. f_equal. lia.
  - rewrite decide_False by by rewrite elem_of_first_seen. cbn.
    rewrite jmap_set_tabulate_new by by rewrite elem_of_first_seen.
    unfold tabulate. rewrite fmap_app. cbn.
    rewrite occurrences_snoc, decide_True, (occurrences_none s l) by done.
    f_equal. apply list_fmap_ext. intros i k Hk.
    rewrite occurrences_snoc, decide_False; [f_equal; lia|].
    intros ->. apply Hout, elem_of_first_seen.
    by eapply list_elem_of_lookup_2.
Qed.
End FirstSeen.

Section Classify.
Local Open Scope nat_scope.
Implicit Types (ids : list cell) (acts : list Activity).

Lemma held_ids_all_free ids :
  Forall (λ c, truthy c = false) ids → held_ids ids = [].
Proof.
  induction 1 as [|c ids Hc _ IH]; [done|].
  unfold held_ids in *. cbn. by rewrite Hc.
Qed.

Lemma held_ids_nil ids :
  held_ids ids = [] → Forall (λ c, truthy c = false) ids.
Proof.
  induction ids as [|c ids IH]; [constructor|].
  unfold held_ids in *. cbn.
  destruct (truthy c) eqn:Hc.
  - destruct c; [done|discriminate Hc].
  - intros H. constructor; [done|]. apply IH.
    destruct c; cbn in H; [|done].
    by destruct (omap _ ids).
Qed.

Lemma held_ids_all_same ids X :
  truthy (Some X) = true → Forall (λ c, c = Some X) ids →
  held_ids ids = replicate (length ids) X ∧ free_count ids = 0.
Proof.
  intros HX. induction 1 as [|c ids -> _ [IH1 IH2]]; [done|].
  unfold held_ids, free_count in *.
  rewrite filter_cons, decide_False by (rewrite HX; discriminate).
  split; [|done].
  cbn [omap list_omap]. rewrite HX. cbn. by rewrite IH1.
Qed.

Lemma first_seen_replicate k X : first_seen (replicate (S k) X) = [X].
Proof.
  induction k as [|k IH]; [done|].
  change (replicate (S (S k)) X) with (X :: replicate (S k) X).
  cbn [first_seen]. rewrite IH. cbn. by rewrite decide_False by tauto.
Qed.

Lemma free_count_0 ids :
  free_count ids = 0 → Forall (λ c, truthy c = true) ids.
Proof.
  unfold free_count. induction ids as [|c ids IH]; [constructor|]. cbn.
  destruct (truthy c) eqn:Hc.
  - rewrite decide_False by discriminate. intros H. constructor; auto.
  - rewrite decide_True by done. discriminate.
Qed.

Lemma held_ids_elem ids s :
  Some s ∈ ids → truthy (Some s) = true → s ∈ held_ids ids.
Proof.
  intros Hin Ht. unfold held_ids. apply list_elem_of_omap.
  exists (Some s). split; [done|]. by rewrite Ht.
Qed.

(** [activityById.get(x)] is the last activity of the registry with id
    [x]. *)
Lemma activityById_get acts x :
  jmap_get (activityById acts) x = last (filter (λ a, id a = x) acts).
Proof.
  unfold activityById.
  induction acts as [|a acts IH] using rev_ind; [done|].
  rewrite fold_left_app, filter_app, last_app. cbn.
  set (m := fold_left _ acts []) in *. clearbody m.
  assert (∀ (m : jmap Activity) k v y,
    jmap_get (jmap_set m k v) y = if decide (k = y) then Some v else jmap_get m y)
    as Hgs.
  { clear. intros m k v y. induction m as [|[k' v'] m IHm]; cbn; [done|].
    destruct (decide (k' = k)) as [->|Hne]; cbn.
    - by destruct (decide (k = y)).
    - rewrite IHm. destruct (decide (k' = y)) as [->|]; [|done].
      by rewrite decide_False by congruence. }
  rewrite Hgs. destruct (decide (id a = x)); cbn; [done|by rewrite IH].
Qed.

Lemma activityById_get_Some acts x a :
  jmap_get (activityById acts) x = Some a → a ∈ acts ∧ id a = x.
Proof.
  rewrite activityById_get. intros Hl.
  assert (a ∈ filter (λ a, id a = x) acts) as Hin.
  { apply last_Some in Hl as [l' ->]. apply elem_of_app. right. constructor. }
  apply list_elem_of_filter in Hin. tauto.
Qed.

Lemma activityById_get_is_Some acts x :
  x ∈ id <$> acts → is_Some (jmap_get (activityById acts) x).
Proof.
  rewrite activityById_get. intros (a & -> & Ha)%list_elem_of_fmap.
  apply last_is_Some. intros Hnil.
  assert (a ∈ filter (λ b, id b = id a) acts) as Hin
    by by apply list_elem_of_filter.
  rewrite Hnil in Hin. by apply elem_of_nil in Hin.
Qed.
End Classify.

Section SortByCount.
Local Open Scope nat_scope.
Implicit Types (l : list Segment) (x : Segment).

Lemma sort_insert_perm x l : sort_insert by_count_desc x l ≡ₚ x :: l.
Proof.
  induction l as [|y l IH]; cbn; [done|].
  destruct (_ <=? _)%Z; [done|]. rewrite IH. apply Permutation_swap.
Qed.

Lemma js_sort_perm l : js_sort by_count_desc l ≡ₚ l.
Proof.
  induction l as [|x l IH]; [done|].
  change (js_sort by_count_desc (x :: l))
    with (sort_insert by_count_desc x (js_sort by_count_desc l)).
  by rewrite sort_insert_perm, IH.
Qed.

Lemma sort_insert_sorted x l :
  Sorted count_desc l → Sorted count_desc (sort_insert by_count_desc x l).
Proof.
  induction 1 as [|y l Hl IH Hhd]; cbn; [by repeat constructor|].
  unfold by_count_desc at 1.
  destruct (Z.leb_spec (Z.of_nat (n y) - Z.of_nat (n x)) 0) as [Hle|Hgt].
  - constructor; [by constructor|]. constructor. unfold count_desc. lia.
  - constructor; [done|].
    destruct l as [|z l]; cbn in *.
    + constructor. unfold count_desc. lia.
    + destruct (_ <=? _)%Z; constructor.
      * unfold count_desc. lia.
      * by inversion Hhd.
Qed.

Lemma js_sort_sorted l : Sorted count_desc (js_sort by_count_desc l).
Proof.
  induction l as [|x l IH]; [constructor|]. by apply sort_insert_sorted.
Qed.

(** Stability: the segments of any one count keep their relative order. *)
Lemma sort_insert_stable (c : nat) x l :
  filter (λ s, n s = c) (sort_insert by_count_desc x l)
  = filter (λ s, n s = c) (x :: l).
Proof.
  induction l as [|y l IH]; cbn; [done|].
  unfold by_count_desc at 1.
  destruct (Z.leb_spec (Z.of_nat (n y) - Z.of_nat (n x)) 0) as [Hle|Hgt];
    [done|].
  rewrite filter_cons, IH, !filter_cons.
  destruct (decide (n y = c)), (decide (n x = c)); try done. lia.
Qed.

Lemma js_sort_stable (c : nat) l :
  filter (λ s, n s = c) (js_sort by_count_desc l) = filter (λ s, n s = c) l.
Proof.
  induction l as [|x l IH]; [done|].
  change (js_sort by_count_desc (x :: l))
    with (sort_insert by_count_desc x (js_sort by_count_desc l)).
  by rewrite sort_insert_stable, !filter_cons, IH.
Qed.

Lemma row_segments_unsorted acts ids :
  row_segments acts ids
  = js_sort by_count_desc
      ((segment_of acts ids <$> first_seen (held_ids ids))
       ++ (if decide (0 < free_count ids) then [free_segment (free_count ids)]
           else [])).
Proof.
  unfold row_segments. rewrite tally_spec. unfold unsorted_segments, tabulate.
  by rewrite <- list_fmap_compose.
Qed.

Lemma segments_of_count acts ids (c : nat) (ks : list string) :
  key <$> filter (λ s, n s = c) (segment_of acts ids <$> ks)
  = filter (λ k, occurrences k (held_ids ids) = c) ks.
Proof.
  induction ks as [|k ks IH]; [done|].
  rewrite fmap_cons, !filter_cons. cbn [n segment_of activity_segment snd].
  destruct (decide (occurrences k (held_ids ids) = c)); [|done].
  rewrite fmap_cons, IH. done.
Qed.
End SortByCount.

(** C3, as stated, fails for the free segment: in a one-hour row whose
    first six slots are free and whose last six hold [A], the row is mixed,
    both segments count six slots, and the segment of [A] comes first
    although the free slots are encountered first. *)
Lemma free_segment_not_in_encounter_order :
  (∃ gradient tip, classify ABCD 12 row_free_then_A = StripeMixed gradient tip)
  ∧ key <$> row_segments ABCD row_free_then_A = ["A"; "__free__"]
  ∧ ¬ ties_in_encounter_order row_free_then_A (row_segments ABCD row_free_then_A).
Proof.
  split; [by eexists _, _|]. split; [reflexivity|].
  intros Hties.
  destruct (Hties 0%nat 1%nat
              (mkSegment "A" "#8B5CF6" 6 "A") (free_segment 6)
              eq_refl eq_refl) as (a & b & Ha & Hb & Hlt); [lia|reflexivity|].
  vm_compute in Ha, Hb. injection Ha as <-. injection Hb as <-. lia.
Qed.

(** C3, amended.  The sorted segment list of a row holds one segment per
    distinct held id, which counts the id's slots, and the free segment when
    the row has a free slot; it is in descending order of the counts; and
    for every count [c] the segments of count [c] are the ids with [c]
    slots, in the order of their first occurrence in the row, followed by
    the free segment when its count is [c]. *)
Theorem mixed_segments_sorted_with_stable_ties
  (acts : list Activity) (ids : list cell) :
  row_segments acts ids
    ≡ₚ (segment_of acts ids <$> first_seen (held_ids ids))
        ++ (if decide (0 < free_count ids)%nat
            then [free_segment (free_count ids)] else [])
  ∧ Sorted count_desc (row_segments acts ids)
  ∧ ∀ c : nat,
      key <$> filter (λ s, n s = c) (row_segments acts ids)
      = filter (λ k, occurrences k (held_ids ids) = c) (first_seen (held_ids ids))
        ++ (if decide ((0 < free_count ids)%nat ∧ free_count ids = c)
            then ["__free__"] else []).
Proof.
  rewrite row_segments_unsorted. split; [apply js_sort_perm|].
  split; [apply js_sort_sorted|].
  intros c. rewrite js_sort_stable, filter_app, fmap_app, segments_of_count.
  f_equal.
  destruct (decide (0 < free_count ids)%nat) as [Hpos|Hzero].
  - rewrite filter_cons. cbn [n free_segment].
    destruct (decide (free_count ids = c)).
    + by rewrite decide_True.
    + by rewrite decide_False by tauto.
  - by rewrite decide_False by tauto.
Qed.

Section ClassifyRow.
Local Open Scope nat_scope.
Implicit Types (ids : list cell) (acts : list Activity).

Lemma classify_free acts g ids :
  Forall (λ c, truthy c = false) ids → classify acts g ids = StripeFree.
Proof.
  intros Hfree. unfold classify. rewrite tally_spec.
  by rewrite (held_ids_all_free _ Hfree).
Qed.

Lemma classify_single acts g ids X :
  ids ≠ [] → truthy (Some X) = true → Forall (λ c, c = Some X) ids →
  classify acts g ids = StripeSingle (jmap_get (activityById acts) X).
Proof.
  intros Hne HX Hall. unfold classify. rewrite tally_spec.
  destruct (held_ids_all_same ids X HX Hall) as [-> ->].
  destruct ids as [|c ids]; [done|].
  cbn [length]. by rewrite first_seen_replicate.
Qed.

Lemma classify_mixed acts g ids :
  ¬ Forall (λ c, truthy c = false) ids →
  ¬ (∃ X, truthy (Some X) = true ∧ Forall (λ c, c = Some X) ids) →
  classify acts g ids
  = StripeMixed (gradient_stops g (row_segments acts ids))
      (tip_lines (row_segments acts ids)).
Proof.
  intros Hnotfree Hnotsingle. unfold classify. rewrite tally_spec.
  unfold jmap_size, jmap_keys, tabulate. rewrite length_fmap.
  destruct (first_seen (held_ids ids)) as [|X ks] eqn:Hseen.
  { exfalso. apply Hnotfree, held_ids_nil.
    destruct (held_ids ids) as [|y l]; [done|discriminate Hseen]. }
  rewrite decide_False by done.
  destruct (decide (length (X :: ks) = 1 ∧ free_count ids = 0))
    as [[Hone Hzero]|]; [|done].
  exfalso. apply Hnotsingle. exists X.
  destruct ks; [|done].
  pose proof (free_count_0 ids Hzero) as Htruthy.
  assert (∀ s, Some s ∈ ids → truthy (Some s) = true → s = X) as Honly.
  { intros s Hin Hs.
    pose proof (held_ids_elem ids s Hin Hs) as Hheld.
    apply elem_of_first_seen in Hheld. rewrite Hseen in Hheld.
    by apply list_elem_of_singleton in Hheld. }
  assert (Forall (λ c, c = Some X) ids) as Hall.
  { apply Forall_forall. intros c Hc.
    pose proof (proj1 (Forall_forall _ _) Htruthy c Hc) as Hct.
    destruct c as [s|]; [|discriminate Hct].
    f_equal. by apply Honly. }
  split; [|done].
  assert (X ∈ held_ids ids) as HX
    by (apply elem_of_first_seen; rewrite Hseen; constructor).
  apply list_elem_of_omap in HX as (c & Hc & Hcx).
  destruct (truthy c) eqn:Hct; [|discriminate Hcx]. by subst c.
Qed.

(** A row of six slots of [A] and six of [B], in any arrangement. *)
Lemma classify_six_six acts ids A B :
  A ≠ B →
  ids ≡ₚ replicate 6 (Some A) ++ replicate 6 (Some B) →
  truthy (Some A) = true → truthy (Some B) = true →
  ∃ s1 s2,
    row_segments acts ids = [s1; s2]
    ∧ [key s1; key s2] = first_seen (held_ids ids)
    ∧ [key s1; key s2] ≡ₚ [A; B]
    ∧ n s1 = 6 ∧ n s2 = 6
    ∧ classify acts 12 ids
      = StripeMixed
          [mkStop (seg_colour s1) 0 6 12; mkStop (seg_colour s2) 6 12 12]
          [(label s1, 30); (label s2, 30)].
Proof.
  intros Hne Hperm HA HB.
  assert (held_ids ids ≡ₚ replicate 6 A ++ replicate 6 B) as Hheld.
  { unfold held_ids. rewrite Hperm. cbn [replicate app omap list_omap].
    by rewrite HA, HB. }
  assert (free_count ids = 0) as Hfree.
  { unfold free_count. rewrite Hperm. cbn [replicate app].
    rewrite !filter_cons, !decide_False, filter_nil; try done;
      rewrite ?HA, ?HB; discriminate. }
  assert (occurrences A (held_ids ids) = 6) as HnA.
  { unfold occurrences. rewrite Hheld. cbn [replicate app].
    rewrite !filter_cons, filter_nil.
    rewrite !(decide_True (P := A = A)), !(decide_False (P := B = A));
      done. }
  assert (occurrences B (held_ids ids) = 6) as HnB.
  { unfold occurrences. rewrite Hheld. cbn [replicate app].
    rewrite !filter_cons, filter_nil.
    rewrite !(decide_True (P := B = B)), !(decide_False (P := A = B));
      done. }
  assert (first_seen (held_ids ids) ≡ₚ [A; B]) as Hseen.
  { apply NoDup_Permutation.
    - apply NoDup_first_seen.
    - apply NoDup_cons. split; [by intros ?%list_elem_of_singleton|].
      apply NoDup_singleton.
    - intros x. rewrite elem_of_first_seen, Hheld, elem_of_app.
      rewrite !elem_of_replicate, elem_of_cons, list_elem_of_singleton.
      intuition lia. }
  assert (∃ X Y, first_seen (held_ids ids) = [X; Y]
                 ∧ occurrences X (held_ids ids) = 6
                 ∧ occurrences Y (held_ids ids) = 6) as (X & Y & HXY & HnX & HnY).
  { symmetry in Hseen.
    destruct (Permutation_length_2_inv Hseen) as [->| ->]; eauto. }
  exists (segment_of acts ids X), (segment_of acts ids Y).
  assert (row_segments acts ids = [segment_of acts ids X; segment_of acts ids Y])
    as Hsegs.
  { rewrite row_segments_unsorted, HXY, Hfree.
    rewrite decide_False by lia. cbn.
    unfold by_count_desc. cbn [n segment_of activity_segment snd].
    by rewrite HnX, HnY. }
  split; [done|]. split; [by rewrite HXY|].
  split; [by rewrite <- Hseen, HXY|].
  split; [done|]. split; [done|].
  rewrite classify_mixed, Hsegs.
  - unfold gradient_stops, tip_lines. cbn. rewrite HnX, HnY. cbn.
    rewrite !decide_True by lia. cbn. by rewrite HnX, HnY.
  - intros Hall.
    assert (Some A ∈ ids) as Hin by (rewrite Hperm; constructor).
    pose proof (proj1 (Forall_forall _ _) Hall _ Hin) as HfA. congruence.
  - intros (Z & _ & Hall).
    assert (Some A ∈ ids) as HinA by (rewrite Hperm; constructor).
    assert (Some B ∈ ids) as HinB.
    { rewrite Hperm. apply elem_of_app. right. constructor. }
    pose proof (proj1 (Forall_forall _ _) Hall _ HinA).
    pose proof (proj1 (Forall_forall _ _) Hall _ HinB). congruence.
Qed.
End ClassifyRow.

Section Rows.
Local Open Scope nat_scope.

(** On a 7 x 288 grid the coarse row [v] of a day holds exactly [g] fine
    slots, the slots [v*g .. v*g+g-1] of that day. *)
Lemma row_ids_wf (gr : grid_t) (g day v : nat) :
  wf_grid gr → g = 1 ∨ g = 3 ∨ g = 12 → day < 7 → v < 288 / g →
  length (row_ids gr g day (v * g)) = g
  ∧ ∀ i, i < g → row_ids gr g day (v * g) !! i = Some (cell_at gr day (v * g + i)).
Proof.
  intros [Hlen Hcols] Hg Hday Hv.
  destruct (lookup_lt_is_Some_2 gr day) as [col Hcol]; [lia|].
  assert (length col = 288) as Hc by by apply (Forall_lookup_1 _ _ _ _ Hcols Hcol).
  assert (v * g + g ≤ 288) as Hend.
  { destruct Hg as [->|[->| ->]].
    - change (288 / 1) with 288 in Hv. lia.
    - change (288 / 3) with 96 in Hv. lia.
    - change (288 / 12) with 24 in Hv. lia. }
  unfold row_ids, slice, cell_at. rewrite Hcol.
  replace (v * g + g - v * g) with g by lia.
  split.
  - rewrite length_take, length_drop. lia.
  - intros i Hi. rewrite lookup_take_lt, lookup_drop by lia.
    destruct (lookup_lt_is_Some_2 col (v * g + i)) as [c Hcell]; [lia|].
    by rewrite Hcell.
Qed.
End Rows.

(** C4. On a 7 x 288 grid, for a granularity [g] of 1, 3 or 12, the coarse
    row [v] of a day holds the [g] fine slots from [v*g] on, and
    [getStripeBackground] classifies it as follows: free when every slot is
    free; single, carrying the registry's activity of that id, when every
    slot holds the same id; mixed in every other case.  At [g = 12] a row
    with six slots of [A] and six of [B] is mixed, with two segments of six
    slots each, in the order in which [A] and [B] first occur, whose bands
    are the two halves of the row. *)
Theorem getStripeBackground_classification (p : Plan) (g day v : nat) :
  wf_grid (grid p) → g = 1%nat ∨ g = 3%nat ∨ g = 12%nat →
  (day < 7)%nat → (v < 288 / g)%nat →
  let ids := row_ids (grid p) g day (v * g) in
  length ids = g
  ∧ (∀ i, (i < g)%nat → ids !! i = Some (cell_at (grid p) day (v * g + i)))
  ∧ (Forall (λ c, truthy c = false) ids →
     getStripeBackground p g day (v * g) = StripeFree)
  ∧ (∀ X, truthy (Some X) = true → Forall (λ c, c = Some X) ids →
     getStripeBackground p g day (v * g)
       = StripeSingle (jmap_get (activityById (activities p)) X)
     ∧ (∀ a, jmap_get (activityById (activities p)) X = Some a →
          a ∈ activities p ∧ id a = X)
     ∧ (X ∈ id <$> activities p →
          is_Some (jmap_get (activityById (activities p)) X)))
  ∧ (¬ Forall (λ c, truthy c = false) ids →
     ¬ (∃ X, truthy (Some X) = true ∧ Forall (λ c, c = Some X) ids) →
     getStripeBackground p g day (v * g)
       = StripeMixed (gradient_stops g (row_segments (activities p) ids))
           (tip_lines (row_segments (activities p) ids)))
  ∧ (g = 12%nat → ∀ A B, A ≠ B →
     truthy (Some A) = true → truthy (Some B) = true →
     ids ≡ₚ replicate 6%nat (Some A) ++ replicate 6%nat (Some B) →
     ∃ s1 s2,
       row_segments (activities p) ids = [s1; s2]
       ∧ [key s1; key s2] = first_seen (held_ids ids)
       ∧ [key s1; key s2] ≡ₚ [A; B]
       ∧ n s1 = 6%nat ∧ n s2 = 6%nat
       ∧ getStripeBackground p g day (v * g)
         = StripeMixed
             [mkStop (seg_colour s1) 0 6 12; mkStop (seg_colour s2) 6 12 12]
             [(label s1, 30%nat); (label s2, 30%nat)]).
Proof.
  intros Hwf Hg Hday Hv ids.
  destruct (row_ids_wf (grid p) g day v Hwf Hg Hday Hv) as [Hlen Hlookup].
  fold ids in Hlen, Hlookup. unfold getStripeBackground. fold ids.
  split; [done|]. split; [done|].
  split; [apply classify_free|].
  split.
  { intros X HX Hall. split; [|split].
    - apply classify_single; [|done..].
      intros Hnil. rewrite Hnil in Hlen. cbn in Hlen. lia.
    - intros a. apply activityById_get_Some.
    - apply activityById_get_is_Some. }
  split; [apply classify_mixed|].
  intros -> A B Hne HA HB Hperm.
  destruct (classify_six_six (activities p) ids A B Hne Hperm HA HB)
    as (s1 & s2 & H1 & H2 & H3 & H4 & H5 & H6).
  by exists s1, s2.
Qed.

Lemma getStripeBackground_classification_witness :
  getStripeBackground plan_hour 12 0 0 = StripeFree
  ∧ getStripeBackground plan_hour 12 1 0
    = StripeSingle (Some (act "A"))
  ∧ ∃ gradient tip, getStripeBackground plan_hour 12 2 0 = StripeMixed gradient tip.
Proof.
  assert (wf_grid (grid plan_hour)) as Hwf.
  { split; [reflexivity|]. repeat constructor. }
  assert (12 = 1 ∨ 12 = 3 ∨ 12 = 12)%nat as Hg by tauto.
  assert (0 < 288 / 12)%nat as Hv by (vm_compute; lia).
  destruct (getStripeBackground_classification plan_hour 12 0 0 Hwf Hg)
    as (_ & _ & Hfree & _); [lia|exact Hv|].
  destruct (getStripeBackground_classification plan_hour 12 1 0 Hwf Hg)
    as (_ & _ & _ & Hsingle & _); [lia|exact Hv|].
  destruct (getStripeBackground_classification plan_hour 12 2 0 Hwf Hg)
    as (_ & _ & _ & _ & Hmixed & _); [lia|exact Hv|].
  change (0 * 12)%nat with 0%nat in Hfree, Hsingle, Hmixed.
  split; [|split].
  - apply Hfree. vm_compute. repeat constructor.
  - destruct (Hsingle "A") as [-> _]; [reflexivity| |reflexivity].
    vm_compute. repeat constructor.
  - eexists _, _. apply Hmixed.
    + vm_compute. intros Hall. inversion Hall as [|? ? Hhd _]. discriminate Hhd.
    + vm_compute. intros (X & _ & Hall).
      apply Forall_cons_1 in Hall as [HA Hall].
      do 5 apply Forall_cons_1 in Hall as [_ Hall].
      apply Forall_cons_1 in Hall as [HB _]. congruence.
Defined.

Section Summary.
Local Open Scope nat_scope.
Implicit Types (l ks : list string) (cells : list cell).

Lemma fold_left_pointwise {A B} (f g : A → B → A) (l : list B) (a : A) :
  (∀ a b, f a b = g a b) → fold_left f l a = fold_left g l a.
Proof.
  intros Hfg. revert a. induction l as [|b l IH]; intros a; cbn; [done|].
  by rewrite Hfg, IH.
Qed.

Lemma minutesById_tabulate (f : string → nat) (acts : list Activity) :
  fold_left (λ m a, jmap_set m (id a) (f (id a))) acts []
  = tabulate f (first_seen (id <$> acts)).
Proof.
  induction acts as [|a acts IH] using rev_ind; [done|].
  rewrite fold_left_app, IH, fmap_app. cbn [fold_left fmap list_fmap].
  rewrite first_seen_snoc.
  destruct (decide (id a ∈ id <$> acts)) as [Hin|Hout].
  - rewrite jmap_set_tabulate_old;
      [|by apply elem_of_first_seen|apply NoDup_first_seen].
    apply list_fmap_ext. intros i k _.
    by destruct (decide (k = id a)) as [->|].
  - rewrite jmap_set_tabulate_new by by rewrite elem_of_first_seen.
    unfold tabulate. by rewrite fmap_app.
Qed.

Lemma jmap_values_tabulate (f : string → nat) ks :
  jmap_values (tabulate f ks) = f <$> ks.
Proof.
  unfold jmap_values, tabulate. rewrite <- list_fmap_compose.
  by apply list_fmap_ext.
Qed.

Lemma sum_indicator ks x :
  NoDup ks →
  sum_list ((λ k, if decide (x = k) then 1 else 0) <$> ks)
  = if decide (x ∈ ks) then 1 else 0.
Proof.
  induction 1 as [|k ks Hk Hnd IH]; cbn.
  - rewrite decide_False; [done|]. by intros ?%elem_of_nil.
  - rewrite IH. destruct (decide (x = k)) as [->|Hne].
    + rewrite (decide_False (P := k ∈ ks)) by done.
      rewrite decide_True; [done|]. constructor.
    + destruct (decide (x ∈ ks)).
      * rewrite decide_True; [done|]. by constructor.
      * rewrite decide_False; [done|].
        intros [?|?]%elem_of_cons; congruence.
Qed.

(** Adding the occurrences of the keys of a duplicate-free list counts
    the elements that are among the keys. *)
Lemma sum_occurrences ks l :
  NoDup ks →
  sum_list ((λ k, occurrences k l) <$> ks) = length (filter (λ x, x ∈ ks) l).
Proof.
  intros Hnd. induction l as [|x l IH].
  - cbn. induction ks as [|k ks IHk]; [done|]. cbn.
    apply NoDup_cons in Hnd as [_ Hnd]. by rewrite IHk.
  - rewrite filter_cons.
    assert (sum_list ((λ k, occurrences k (x :: l)) <$> ks)
            = sum_list ((λ k, if decide (x = k) then 1 else 0) <$> ks)
              + sum_list ((λ k, occurrences k l) <$> ks)) as ->.
    { clear. induction ks as [|k ks IHk]; [done|].
      rewrite !fmap_cons. cbn [sum_list_with]. rewrite IHk.
      unfold occurrences at 1. rewrite filter_cons.
      unfold Datatypes.id, occurrences.
      destruct (decide (x = k)); cbn [length]; lia. }
    rewrite sum_indicator, IH by done.
    destruct (decide (x ∈ ks)); cbn; lia.
Qed.

Lemma length_cells_split cells :
  length cells = free_count cells + length (held_ids cells).
Proof.
  unfold free_count, held_ids. induction cells as [|c cells IH]; [done|].
  rewrite filter_cons. cbn [omap list_omap length].
  destruct (truthy c) eqn:Hc.
  - rewrite decide_False by discriminate.
    destruct c; [cbn; lia|discriminate Hc].
  - rewrite decide_True by done. cbn. lia.
Qed.

Lemma length_scanned_cells (g : grid_t) : length (scanned_cells g) = 2016.
Proof. reflexivity. Qed.

Lemma scanned_cells_elem (g : grid_t) (c : cell) :
  c ∈ scanned_cells g → ∃ day row, day < 7 ∧ row < 288 ∧ c = cell_at g day row.
Proof.
  unfold scanned_cells. intros (day & Hc & Hday)%list_elem_of_bind.
  apply list_elem_of_bind in Hc as (row & Hc & Hrow).
  apply list_elem_of_singleton in Hc.
  apply elem_of_seq in Hday, Hrow. exists day, row. split; [lia|]. split; [lia|done].
Qed.

(** The allocation summary in closed form. *)
Lemma allocationSummary_spec (p : Plan) :
  allocationSummary p
  = mkSummary
      (tabulate (λ k, occurrences k (held_ids (scanned_cells (grid p))) * 5)
         (first_seen (id <$> activities p)))
      (free_count (scanned_cells (grid p)) * 5)
      (7 * 288 * 5).
Proof.
  unfold allocationSummary. rewrite tally_spec. f_equal.
  rewrite <- minutesById_tabulate.
  apply fold_left_pointwise. intros m a. f_equal.
  rewrite jmap_get_tabulate.
  destruct (decide (id a ∈ first_seen _)) as [Hin|Hout]; [done|].
  rewrite occurrences_none; [done|]. by rewrite <- elem_of_first_seen.
Qed.

Lemma allocation_total (p : Plan) :
  activityMinutes (allocationSummary p)
  + freeMinutes (allocationSummary p)
  + 5 * unknown_cells p = 7 * 288 * 5.
Proof.
  rewrite allocationSummary_spec. unfold activityMinutes, unknown_cells.
  cbn [minutesById freeMinutes]. rewrite jmap_values_tabulate.
  pose proof (length_cells_split (scanned_cells (grid p))) as Hsplit.
  rewrite length_scanned_cells in Hsplit.
  generalize dependent (held_ids (scanned_cells (grid p))).
  generalize (free_count (scanned_cells (grid p))).
  intros nfree held Hsplit.
  assert (sum_list ((λ k, occurrences k held * 5) <$> first_seen (id <$> activities p))
          = 5 * length (filter (λ x, x ∈ id <$> activities p) held)) as ->.
  { rewrite (list_filter_iff (λ x, x ∈ id <$> activities p)
               (λ x, x ∈ first_seen (id <$> activities p)))
      by (intros x; symmetry; apply elem_of_first_seen).
    rewrite <- sum_occurrences by apply NoDup_first_seen.
    generalize (first_seen (id <$> activities p)).
    intros ks. induction ks as [|k ks IH]; [done|].
    rewrite !fmap_cons. cbn [sum_list_with]. unfold Datatypes.id in *. lia. }
  pose proof (filter_app_complement (λ x, x ∈ id <$> activities p) held) as Hc.
  apply Permutation_length in Hc. rewrite length_app in Hc.
  lia.
Qed.

Lemma no_dangling_unknown_cells (p : Plan) :
  no_dangling p → unknown_cells p = 0.
Proof.
  intros Hok. unfold unknown_cells.
  assert (Forall (λ x, x ∈ id <$> activities p)
            (held_ids (scanned_cells (grid p)))) as Hall.
  { apply Forall_forall. intros x Hx.
    apply list_elem_of_omap in Hx as (c & Hc & Hcx).
    destruct (truthy c); [subst c|done].
    apply scanned_cells_elem in Hc as (day & row & _ & _ & Hc).
    by apply (Hok day row). }
  induction Hall as [|x l Hx _ IH]; [done|].
  rewrite filter_cons, decide_False; [done|]. by intros Hnot.
Qed.
End Summary.

(** C2, as stated, fails on a grid that holds an id absent from the
    registry: with one such cell the activities' minutes and the free
    minutes add up to 10075. *)
Lemma allocation_sum_misses_unknown_id :
  wf_grid (grid plan_ghost)
  ∧ (activityMinutes (allocationSummary plan_ghost)
     + freeMinutes (allocationSummary plan_ghost) = 7 * 288 * 5 - 5)%nat
  ∧ (activityMinutes (allocationSummary plan_ghost)
     + freeMinutes (allocationSummary plan_ghost) ≠ 7 * 288 * 5)%nat.
Proof.
  split; [split; [reflexivity|repeat constructor]|].
  split; [vm_compute; reflexivity|vm_compute; discriminate].
Qed.

(** C2, amended.  For every grid state, the minutes of the entries of
    [minutesById], the free minutes and five minutes for each scanned cell
    that holds an id absent from the registry add up to 7*288*5 = 10080,
    which is also the summary's total; so when no cell holds an id absent
    from the registry, the activities' minutes plus the free minutes are
    exactly 10080. *)
Theorem allocation_summary_total (p : Plan) :
  (activityMinutes (allocationSummary p) + freeMinutes (allocationSummary p)
   + 5 * unknown_cells p = 7 * 288 * 5)%nat
  ∧ totalMinutes (allocationSummary p) = (7 * 288 * 5)%nat
  ∧ (no_dangling p →
     (activityMinutes (allocationSummary p) + freeMinutes (allocationSummary p)
      = 7 * 288 * 5)%nat).
Proof.
  split; [apply allocation_total|].
  split; [by rewrite allocationSummary_spec|].
  intros Hok. pose proof (allocation_total p) as Htotal.
  rewrite (no_dangling_unknown_cells p Hok) in Htotal. lia.
Qed.

Lemma allocation_summary_total_witness :
  (activityMinutes (allocationSummary plan_empty)
   + freeMinutes (allocationSummary plan_empty) = 7 * 288 * 5)%nat.
Proof.
  apply (allocation_summary_total plan_empty).
  intros day row x. cbn [grid plan_empty]. rewrite cell_at_empty. discriminate.
Defined.

Section Paint.
Local Open Scope nat_scope.
Implicit Types (refs : PaintRefs) (p : Plan) (cs : list (nat * nat)).

Lemma perform_selected p w :
  selectedActivityId (perform p w) = selectedActivityId p.
Proof.
  destruct w as [w|]; [|done]. cbn [perform]. unfold applyRange.
  by destruct (applyRange_grid (grid p) (w_day w) (w_start w) (w_len w) (w_value w)).
Qed.

Lemma onCellPointerEnter_same g refs p d r :
  lastPaint refs = (Some d, Some r) →
  onCellPointerEnter g refs p d r = (refs, None).
Proof.
  intros Hlast. unfold onCellPointerEnter.
  destruct (isMouseDown refs); [|done]. cbn. by rewrite decide_True.
Qed.

Lemma onCellPointerEnter_other g refs p d r :
  isMouseDown refs = true → lastPaint refs ≠ (Some d, Some r) →
  onCellPointerEnter g refs p d r
  = (mkRefs true (dragPaintMode refs) (Some d, Some r),
     Some (mkWrite d r g (mode_value (dragPaintMode refs) p))).
Proof.
  intros Hdown Hlast. unfold onCellPointerEnter.
  rewrite Hdown. cbn. by rewrite decide_False.
Qed.

(** A press with the secondary button erases whatever the plan's tool is,
    and leaves the plan's tool as it is. *)
Lemma right_click_erases g refs p d r :
  (onCellPointerDown g rightClick refs p d r).2 = Some (mkWrite d r g None)
  ∧ tool (perform p (onCellPointerDown g rightClick refs p d r).2) = tool p.
Proof.
  split; [done|]. cbn [onCellPointerDown snd perform w_day w_start w_len w_value].
  unfold applyRange. by destruct (applyRange_grid (grid p) d r g _).
Qed.

Lemma paint_run_cons g st ev evs :
  (paint_run g st (ev :: evs)).2
  = option_list (paint_step g st ev).2
      ++ (paint_run g (paint_step g st ev).1 evs).2.
Proof.
  cbn [paint_run]. destruct (paint_step g st ev) as [st' w].
  cbn [fst snd]. by destruct (paint_run g st' evs).
Qed.

Lemma mode_value_perform mode p w :
  mode_value mode (perform p w) = mode_value mode p.
Proof. destruct mode; [apply perform_selected|done]. Qed.

(** The calls made by the cells entered during a stroke whose last
    painted cell is [c]. *)
Lemma enters_writes g cs : ∀ refs p c,
  isMouseDown refs = true → lastPaint refs = (Some c.1, Some c.2) →
  (paint_run g (refs, p) ((λ c, CellEnter c.1 c.2) <$> cs)).2
  = (λ c', mkWrite c'.1 c'.2 g (mode_value (dragPaintMode refs) p))
      <$> collapse_runs (Some c) cs.
Proof.
  induction cs as [|c' cs IH]; intros refs p c Hdown Hlast; [done|].
  rewrite fmap_cons, paint_run_cons. cbn [paint_step collapse_runs].
  destruct (decide (Some c = Some c')) as [[= <-]|Hne].
  - rewrite onCellPointerEnter_same by done. cbn [perform fst snd option_list].
    by apply IH.
  - rewrite onCellPointerEnter_other; [|done|].
    2:{ rewrite Hlast. destruct c, c'. cbn [fst snd]. congruence. }
    cbn [fst snd]. change (option_list (Some ?w)) with [w].
    rewrite fmap_cons. cbn [app]. f_equal.
    rewrite (IH _ _ c') by done. cbn [dragPaintMode].
    apply list_fmap_ext. intros i c'' _. by rewrite mode_value_perform.
Qed.

Lemma stroke_writes g e c0 cs refs p :
  (paint_run g (refs, p) (stroke e c0 cs)).2
  = (λ c, mkWrite c.1 c.2 g (mode_value (stroke_mode e p) p))
      <$> (c0 :: collapse_runs (Some c0) cs).
Proof.
  unfold stroke. rewrite paint_run_cons.
  cbn [paint_step onCellPointerDown fst snd].
  change (option_list (Some ?w)) with [w]. rewrite fmap_cons. cbn [app].
  fold (stroke_mode e p). cbn [dragPaintMode]. f_equal.
  rewrite (enters_writes _ _ _ _ c0) by done. cbn [dragPaintMode].
  apply list_fmap_ext. intros i c _. by rewrite mode_value_perform.
Qed.

Lemma paint_run_cons_state g st ev evs :
  (paint_run g st (ev :: evs)).1 = (paint_run g (paint_step g st ev).1 evs).1.
Proof.
  cbn [paint_run]. destruct (paint_step g st ev) as [st' w].
  cbn [fst snd]. by destruct (paint_run g st' evs).
Qed.

Lemma perform_valid p (c : nat * nat) g v :
  wf_grid (grid p) → valid_cell c →
  wf_grid (grid (perform p (Some (mkWrite c.1 c.2 g v))))
  ∧ ∀ d r, cell_at (grid (perform p (Some (mkWrite c.1 c.2 g v)))) d r
           = if decide (in_block g c d r) then v else cell_at (grid p) d r.
Proof.
  intros Hwf [Hday Hstart]. cbn [perform w_day w_start w_len w_value].
  destruct (applyRange_spec p c.1 c.2 g v Hwf Hday Hstart)
    as (p' & -> & Hwf' & _ & _ & _ & Hcells).
  cbn [default]. split; [done|]. intros d r. rewrite Hcells.
  by destruct c.
Qed.

(** The grid after the cells entered during a stroke of value [v] whose
    last painted cell [c] already holds [v]: the blocks of the entered
    cells hold [v] and every other slot is as before. *)
Lemma enters_grid g v cs : ∀ refs p c,
  isMouseDown refs = true → lastPaint refs = (Some c.1, Some c.2) →
  mode_value (dragPaintMode refs) p = v →
  wf_grid (grid p) → Forall valid_cell cs →
  (∀ d r, in_block g c d r → cell_at (grid p) d r = v) →
  wf_grid (grid (paint_run g (refs, p) ((λ c, CellEnter c.1 c.2) <$> cs)).1.2)
  ∧ ∀ d r,
      cell_at (grid (paint_run g (refs, p) ((λ c, CellEnter c.1 c.2) <$> cs)).1.2) d r
      = if decide (touched g cs d r) then v else cell_at (grid p) d r.
Proof.
  induction cs as [|c' cs IH]; intros refs p c Hdown Hlast Hv Hwf Hvalid Hheld.
  { split; [done|]. intros d r. rewrite decide_False; [done|].
    unfold touched. by intros ?%Exists_nil. }
  apply Forall_cons_1 in Hvalid as [Hc' Hvalid].
  rewrite fmap_cons, paint_run_cons_state. cbn [paint_step].
  destruct (decide (Some c = Some c')) as [[= <-]|Hne].
  - rewrite onCellPointerEnter_same by done. cbn [perform fst snd].
    destruct (IH refs p c Hdown Hlast Hv Hwf Hvalid Hheld) as [Hwf' Hcells].
    split; [done|]. intros d r. rewrite Hcells.
    destruct (decide (touched g cs d r)) as [Hin|Hout].
    + rewrite decide_True; [done|]. by apply Exists_cons_tl.
    + destruct (decide (in_block g c d r)) as [Hblock|Hblock].
      * rewrite decide_True by by apply Exists_cons_hd. by apply Hheld.
      * rewrite decide_False; [done|].
        unfold touched. intros [?|?]%Exists_cons; tauto.
  - rewrite onCellPointerEnter_other; [|done|].
    2:{ rewrite Hlast. destruct c, c'. cbn [fst snd]. congruence. }
    cbn [fst snd]. rewrite Hv.
    destruct (perform_valid p c' g v Hwf Hc') as [Hwf1 Hcells1].
    set (p1 := perform p (Some (mkWrite c'.1 c'.2 g v))) in *.
    destruct (IH (mkRefs true (dragPaintMode refs) (Some c'.1, Some c'.2)) p1 c')
      as [Hwf' Hcells]; try done.
    { cbn [dragPaintMode]. unfold p1. by rewrite mode_value_perform. }
    { intros d r Hblock. rewrite Hcells1. by rewrite decide_True. }
    split; [done|]. intros d r. rewrite Hcells, Hcells1.
    destruct (decide (touched g cs d r)) as [Hin|Hout].
    + rewrite decide_True; [done|]. by apply Exists_cons_tl.
    + destruct (decide (in_block g c' d r)) as [Hblock|Hblock].
      * rewrite decide_True; [done|]. by apply Exists_cons_hd.
      * rewrite decide_False; [done|].
        unfold touched. intros [?|?]%Exists_cons; tauto.
Qed.

(** The grid after a stroke depends only on which cells were touched: their
    blocks hold the stroke's value and every other slot is as before, as
    after one write per distinct cell. *)
Lemma stroke_grid g e c0 cs refs p :
  wf_grid (grid p) → Forall valid_cell (c0 :: cs) →
  ∀ d r,
    cell_at (grid (paint_run g (refs, p) (stroke e c0 cs)).1.2) d r
    = if decide (touched g (c0 :: cs) d r)
      then mode_value (stroke_mode e p) p
      else cell_at (grid p) d r.
Proof.
  intros Hwf [Hc0 Hvalid]%Forall_cons_1 d r.
  unfold stroke. rewrite paint_run_cons_state.
  cbn [paint_step onCellPointerDown fst snd dragPaintMode].
  fold (stroke_mode e p).
  set (v := mode_value (stroke_mode e p) p).
  destruct (perform_valid p c0 g v Hwf Hc0) as [Hwf1 Hcells1].
  set (p1 := perform p (Some (mkWrite c0.1 c0.2 g v))) in *.
  destruct (enters_grid g v cs (mkRefs true (stroke_mode e p) (Some c0.1, Some c0.2))
              p1 c0) as [_ Hcells]; try done.
  { cbn [dragPaintMode]. unfold p1. by rewrite mode_value_perform. }
  { intros d' r' Hblock. rewrite Hcells1. by rewrite decide_True. }
  rewrite Hcells, Hcells1.
  destruct (decide (touched g cs d r)) as [Hin|Hout].
  - rewrite decide_True; [done|]. by apply Exists_cons_tl.
  - destruct (decide (in_block g c0 d r)) as [Hblock|Hblock].
    + rewrite decide_True; [done|]. by apply Exists_cons_hd.
    + rewrite decide_False; [done|].
      unfold touched. intros [?|?]%Exists_cons; tauto.
Qed.
End Paint.

(** C7, as stated, fails: the handlers remember only the last painted
    cell, so a stroke that leaves a cell and comes back writes it again.
    Pressing on Monday's first slot, entering the second and entering the
    first again makes three writes for two distinct cells. *)
Lemma stroke_rewrites_revisited_cell :
  write_cell <$> (paint_run 1 (initialRefs, plan_empty)
                    (stroke leftClick (0, 0) [(0, 1); (0, 0)])%nat).2
    = [(0, 0); (0, 1); (0, 0)]%nat
  ∧ ¬ NoDup (write_cell <$> (paint_run 1 (initialRefs, plan_empty)
                               (stroke leftClick (0, 0) [(0, 1); (0, 0)])%nat).2).
Proof.
  split; [reflexivity|].
  intros Hnd. vm_compute in Hnd.
  apply NoDup_cons in Hnd as [Hnotin _]. apply Hnotin. repeat constructor.
Qed.

(** C7, amended.  Within a stroke (a press followed by any sequence of
    entered cells) a call naming the cell of the immediately preceding call
    performs no write and leaves the refs as they are; the writes made are
    the pressed cell followed by the entered cells with every run of
    consecutive repetitions collapsed to one, each of the view's granularity
    and of the stroke's value; the last painted cell is the pressed cell
    after the press and is cleared on release.  A cell entered again after
    another one is written again with the same value, so on a 7 x 288 grid
    the grid after the stroke is the one in which the block of every touched
    cell holds the stroke's value and every other slot is as before. *)
Theorem stroke_suppresses_consecutive_repeats
  (g : nat) (e : MouseEvent) (c0 : nat * nat) (cs : list (nat * nat))
  (refs : PaintRefs) (p : Plan) :
  (paint_run g (refs, p) (stroke e c0 cs)).2
    = (λ c, mkWrite c.1 c.2 g (mode_value (stroke_mode e p) p))
        <$> (c0 :: collapse_runs (Some c0) cs)
  ∧ (∀ d r, lastPaint refs = (Some d, Some r) →
       onCellPointerEnter g refs p d r = (refs, None))
  ∧ lastPaint (onCellPointerDown g e refs p c0.1 c0.2).1 = (Some c0.1, Some c0.2)
  ∧ lastPaint (onMouseUp refs) = (None, None)
  ∧ isMouseDown (onMouseUp refs) = false
  ∧ (wf_grid (grid p) → Forall valid_cell (c0 :: cs) →
     ∀ d r,
       cell_at (grid (paint_run g (refs, p) (stroke e c0 cs)).1.2) d r
       = if decide (touched g (c0 :: cs) d r)
         then mode_value (stroke_mode e p) p
         else cell_at (grid p) d r).
Proof.
  split; [apply stroke_writes|].
  split; [intros d r; apply onCellPointerEnter_same|].
  repeat split. apply stroke_grid.
Qed.

Lemma stroke_suppresses_consecutive_repeats_witness :
  onCellPointerEnter 3 (mkRefs true paint (Some 2, Some 6)%nat) plan_empty 2 6
  = (mkRefs true paint (Some 2, Some 6)%nat, None)
  ∧ cell_at (grid (paint_run 3 (initialRefs, plan_empty)
                     (stroke leftClick (0, 0) [(0, 3); (0, 0)])%nat).1.2) 0 5
    = Some "A".
Proof.
  split.
  - apply (stroke_suppresses_consecutive_repeats 3 leftClick (2, 6)%nat []
             (mkRefs true paint (Some 2, Some 6)%nat) plan_empty).
    reflexivity.
  - destruct (stroke_suppresses_consecutive_repeats 3 leftClick (0, 0)%nat
                [(0, 3); (0, 0)]%nat initialRefs plan_empty)
      as (_ & _ & _ & _ & _ & Hgrid).
    rewrite Hgrid; [reflexivity| |].
    + split; [reflexivity|]. repeat constructor.
    + repeat constructor; cbn; lia.
Defined.

Section ImportDocument.
Implicit Types (st : ImportState) (v p : json).

Lemma rejected_reject st message : rejected st (reject st message).
Proof. repeat split. by exists message. Qed.

Lemma as_array_Some (x : option json) items :
  as_array x = Some items ↔ x = Some (JArr items).
Proof.
  destruct x as [[]|]; cbn; split; intros H; try done; congruence.
Qed.

Lemma is_string_true (x : option json) :
  is_string x = true ↔ ∃ s, x = Some (JStr s).
Proof.
  destruct x as [[]|]; cbn; split; try done; eauto; by intros [? ?].
Qed.

Lemma column_ok (col : json) :
  match as_array (Some col) with
  | Some cells => bool_decide (length cells = 288%nat)
  | None => false
  end = true
  ↔ ∃ cells, col = JArr cells ∧ length cells = 288%nat.
Proof.
  destruct col; cbn; split; try done; try by intros (? & ? & ?).
  - intros H%bool_decide_eq_true. eauto.
  - intros (cells & [= <-] & Hlen). by apply bool_decide_eq_true.
Qed.

(** [plan_ok] accepts exactly the plans of shape [plan_shape]; the
    entries of [activities] play no part. *)
Lemma plan_ok_shape p : plan_ok p = true ↔ plan_shape p.
Proof.
  unfold plan_ok, plan_shape.
  rewrite !andb_true_iff, !is_string_true, bool_decide_eq_true.
  split.
  - intros ((((Hobj & Hid) & Hname) & [acts Hacts]) & Hgrid).
    apply as_array_Some in Hacts.
    destruct (as_array (get_field p "grid")) as [cols|] eqn:Hcols; [|done].
    apply as_array_Some in Hcols.
    apply andb_true_iff in Hgrid as [Hlen%bool_decide_eq_true Hall].
    repeat split; eauto. exists cols. repeat split; [done..|].
    apply Forall_forall. intros col Hcol. apply column_ok.
    rewrite forallb_forall in Hall. by apply Hall, list_elem_of_In.
  - intros (Hobj & Hid & Hname & [acts Hacts] & cols & Hcols & Hlen & Hall).
    repeat split; try done.
    + exists acts. by apply as_array_Some.
    + rewrite Hcols. cbn. apply andb_true_iff.
      split; [by apply bool_decide_eq_true|].
      apply forallb_forall. intros col Hcol%list_elem_of_In.
      apply column_ok. by apply (proj1 (Forall_forall _ _) Hall).
Qed.

Lemma grid_malformed_not_ok p : grid_malformed p → plan_ok p = false.
Proof.
  intros Hbad. apply not_true_is_false. intros Hok%plan_ok_shape.
  destruct Hok as (_ & _ & _ & _ & cols & Hcols & Hlen & Hall).
  unfold grid_malformed in Hbad. rewrite Hcols in Hbad. cbn in Hbad.
  destruct Hbad as [Hne|(col & Hcol & Hnot)]; [done|].
  destruct (proj1 (Forall_forall _ _) Hall col Hcol) as (cells & -> & Hcells).
  by apply (Hnot cells).
Qed.

(** Every outcome of [applyImport] is a whole adoption or a whole
    rejection. *)
Lemma applyImport_outcome st parsed :
  rejected st (applyImport st parsed)
  ∨ (accepted (applyImport st parsed)
     ∧ ∃ v p0 ps, parsed = ParseOk v
         ∧ is_object v = true
         ∧ get_field v "plans" = Some (JArr (p0 :: ps))
         ∧ Forall plan_shape (p0 :: ps)
         ∧ plans (applyImport st parsed) = p0 :: ps).
Proof.
  destruct parsed as [v|error]; [|left; apply rejected_reject].
  unfold applyImport.
  destruct (is_object v) eqn:Hobj; [|left; apply rejected_reject]. cbn [negb].
  destruct (as_array (get_field v "plans")) as [[|p0 ps]|] eqn:Hplans;
    [left; apply rejected_reject| |left; apply rejected_reject].
  destruct (forallb plan_ok (p0 :: ps)) eqn:Hall;
    [|left; apply rejected_reject]. cbn [negb].
  right. split; [done|]. exists v, p0, ps.
  apply as_array_Some in Hplans. repeat split; try done.
  apply Forall_forall. intros p Hp. apply plan_ok_shape.
  rewrite forallb_forall in Hall. by apply Hall, list_elem_of_In.
Qed.

Lemma applyImport_rejects_bad_plan st v ps p :
  as_array (get_field v "plans") = Some ps → p ∈ ps → plan_ok p = false →
  rejected st (applyImport st (ParseOk v)).
Proof.
  intros Hplans Hp Hbad.
  destruct (applyImport_outcome st (ParseOk v))
    as [Hrej|(_ & v' & p0 & ps' & [= <-] & _ & Hget & Hall & _)]; [done|].
  rewrite Hget in Hplans. cbn in Hplans. injection Hplans as <-.
  apply (proj1 (Forall_forall _ _) Hall), plan_ok_shape in Hp. congruence.
Qed.
End ImportDocument.

(** C8. Whatever is imported, the outcome is a whole adoption or a whole
    rejection: a rejected import reports a reason and leaves the plans (and
    so every grid) and the active plan id as they were.  A text that does
    not parse is rejected, and so is a document that is not an object,
    whose [plans] array is missing or empty, or in which some plan's grid
    does not have exactly 7 columns of exactly 288 entries each. *)
Theorem applyImport_rejects_in_entirety (st : ImportState) (parsed : ParseResult) :
  (rejected st (applyImport st parsed) ∨ accepted (applyImport st parsed))
  ∧ (∀ error, parsed = ParseError error → rejected st (applyImport st parsed))
  ∧ (∀ v, parsed = ParseOk v → is_object v = false ∨ fails_grid_validation v →
       rejected st (applyImport st parsed)).
Proof.
  split; [destruct (applyImport_outcome st parsed) as [?|[? _]]; tauto|].
  split; [intros error ->; apply rejected_reject|].
  intros v -> [Hobj|[[Hnone|Hempty]|(ps & p & Hplans & Hp & Hbad)]].
  - unfold applyImport. rewrite Hobj. apply rejected_reject.
  - unfold applyImport. destruct (is_object v); [|apply rejected_reject].
    rewrite Hnone. apply rejected_reject.
  - unfold applyImport. destruct (is_object v); [|apply rejected_reject].
    rewrite Hempty. apply rejected_reject.
  - apply (applyImport_rejects_bad_plan st v ps p Hplans Hp).
    by apply grid_malformed_not_ok.
Qed.

Lemma applyImport_rejects_in_entirety_witness :
  rejected state0 (applyImport state0 (ParseOk doc_six_columns)).
Proof.
  destruct (applyImport_rejects_in_entirety state0 (ParseOk doc_six_columns))
    as (_ & _ & Hrejects).
  apply (Hrejects doc_six_columns eq_refl).
  right. right. eexists _, _. split; [reflexivity|].
  split; [constructor|]. left. cbn. lia.
Defined.

(** C9, as stated, fails: a document whose only plan has a 7 x 288 grid and
    two activity entries, one an object without [id] and [name] and one a
    number, is accepted and its plans replace the existing ones. *)
Lemma applyImport_accepts_bad_activity_entries :
  (∃ p acts a,
      as_array (get_field doc_bad_activities "plans") = Some [p]
      ∧ as_array (get_field p "activities") = Some acts
      ∧ a ∈ acts ∧ ¬ activity_entry_ok a)
  ∧ accepted (applyImport state0 (ParseOk doc_bad_activities))
  ∧ ¬ rejected state0 (applyImport state0 (ParseOk doc_bad_activities))
  ∧ plans (applyImport state0 (ParseOk doc_bad_activities))
    = [json_plan (JArr [JObj [("colour", JStr "#E11D48")]; JNum 7])
         (json_grid 7 288)].
Proof.
  split.
  { eexists _, _, _. split; [reflexivity|]. split; [reflexivity|].
    split; [constructor|]. intros [Hid _]. discriminate Hid. }
  split; [reflexivity|]. split; [|reflexivity].
  intros (_ & _ & reason & Hstatus). vm_compute in Hstatus. discriminate Hstatus.
Qed.

(** C9, amended.  The validation rejects any document in which some plan's
    [activities] is missing or not an array.  It does not look at the
    entries: a parsed document is accepted exactly when it is an object
    with a non-empty [plans] array each of whose plans is an object with a
    string [id], a string [name], an [activities] array and a grid of 7
    arrays of 288 entries. *)
Theorem applyImport_checks_activities_is_array (st : ImportState) (v : json) :
  (∀ ps p, as_array (get_field v "plans") = Some ps → p ∈ ps →
     as_array (get_field p "activities") = None →
     rejected st (applyImport st (ParseOk v)))
  ∧ (accepted (applyImport st (ParseOk v))
     ↔ is_object v = true
       ∧ ∃ p0 ps, get_field v "plans" = Some (JArr (p0 :: ps))
                  ∧ Forall plan_shape (p0 :: ps)).
Proof.
  split.
  - intros ps p Hplans Hp Hacts.
    apply (applyImport_rejects_bad_plan st v ps p Hplans Hp).
    apply not_true_is_false. intros (_ & _ & _ & [acts Ha] & _)%plan_ok_shape.
    rewrite Ha in Hacts. discriminate Hacts.
  - split.
    + intros Hacc.
      destruct (applyImport_outcome st (ParseOk v))
        as [(_ & _ & reason & Hrej)|(_ & v' & p0 & ps & [= <-] & Hobj & Hget & Hall & _)].
      * unfold accepted in Hacc. congruence.
      * eauto.
    + intros (Hobj & p0 & ps & Hget & Hall).
      unfold applyImport. rewrite Hobj, Hget. cbn [negb as_array].
      assert (forallb plan_ok (p0 :: ps) = true) as ->; [|done].
      apply forallb_forall. intros p Hp%list_elem_of_In.
      by apply plan_ok_shape, (proj1 (Forall_forall _ _) Hall).
Qed.

Lemma applyImport_checks_activities_is_array_witness :
  rejected state0
    (applyImport state0
       (ParseOk (json_doc (json_plan (JStr "none") (json_grid 7 288))))).
Proof.
  destruct (applyImport_checks_activities_is_array state0
              (json_doc (json_plan (JStr "none") (json_grid 7 288))))
    as [Hrejects _].
  eapply Hrejects.
  - reflexivity.
  - constructor.
  - reflexivity.
Defined.

(** ** Plan invariants and the operations on the active plan *)

Section Invariants.
Local Open Scope nat_scope.
Implicit Types (p : Plan) (g : grid_t).

Lemma wf_grid_empty : wf_grid buildEmptyWeek.
Proof. split; [reflexivity|]. repeat constructor. Qed.

Lemma wf_grid_clear g X : wf_grid g → wf_grid (clearGridForActivity g X).
Proof.
  intros [Hlen Hcols]. unfold clearGridForActivity. split.
  - by rewrite length_map.
  - apply Forall_forall. intros col' Hcol'.
    change (map ?f ?l) with (f <$> l) in Hcol'.
    apply list_elem_of_fmap in Hcol' as (col & -> & Hcol).
    rewrite length_map. by apply (proj1 (Forall_forall _ _) Hcols).
Qed.

Lemma deleteActivity_as_patch p X :
  apply_patch p (deleteActivity_patch p X) = deleteActivity p X.
Proof. reflexivity. Qed.

Lemma filter_ids_NoDup (acts : list Activity) (P : Activity → Prop)
  `{∀ a, Decision (P a)} :
  NoDup (id <$> acts) → NoDup (id <$> filter P acts).
Proof.
  induction acts as [|a acts IH]; [done|].
  rewrite fmap_cons, filter_cons. intros [Ha Hnd]%NoDup_cons.
  destruct (decide (P a)); [|by apply IH].
  rewrite fmap_cons. apply NoDup_cons. split; [|by apply IH].
  intros (b & Hb & Hin)%list_elem_of_fmap.
  apply list_elem_of_filter in Hin as [_ Hin].
  apply Ha. rewrite Hb. by apply list_elem_of_fmap_2.
Qed.

Lemma plan_invariant_default (pid name : string) :
  plan_invariant (makeDefaultPlan pid name).
Proof.
  split; [apply wf_grid_empty|]. split.
  - cbn. refine (bool_decide_unpack _ _). vm_compute. exact I.
  - split.
    + intros day row x. cbn [grid makeDefaultPlan]. by rewrite cell_at_empty.
    + intros x [= <-]. cbn. constructor.
Qed.
End Invariants.

(** X1. A plan made by [makeDefaultPlan] satisfies the plan invariants, and
    its allocation summary reports the whole week, 10080 minutes, as free
    and zero minutes for each of its four activities. *)
Theorem makeDefaultPlan_invariant (pid name : string) :
  plan_invariant (makeDefaultPlan pid name)
  ∧ freeMinutes (allocationSummary (makeDefaultPlan pid name)) = (7 * 288 * 5)%nat
  ∧ minutesById (allocationSummary (makeDefaultPlan pid name))
    = [("a_work", 0%nat); ("a_family", 0%nat); ("a_sleep", 0%nat); ("a_admin", 0%nat)].
Proof.
  split; [apply plan_invariant_default|split; vm_compute; reflexivity].
Qed.

(** X2. [addActivity] with an id that no activity of the plan has keeps the
    plan invariants; the new activity is appended after the existing ones,
    which are unchanged, it becomes the selection, and the grid and the tool
    are untouched. *)
Theorem addActivity_invariant (p : Plan) (newId : string) :
  newId ∉ id <$> activities p → plan_invariant p →
  plan_invariant (addActivity p newId)
  ∧ activities (addActivity p newId)
    = activities p ++ [mkActivity newId "New activity" "#8B5CF6" "calendar"]
  ∧ selectedActivityId (addActivity p newId) = Some newId
  ∧ grid (addActivity p newId) = grid p
  ∧ tool (addActivity p newId) = tool p.
Proof.
  intros Hfresh (Hwf & Hnd & Hok & Hsel).
  split; [|done].
  assert (id <$> activities (addActivity p newId)
          = (id <$> activities p) ++ [newId]) as Hids
    by (cbn; by rewrite fmap_app).
  split; [done|]. split; [|split]; rewrite ?Hids.
  - apply NoDup_app. split; [done|]. split; [|apply NoDup_singleton].
    intros x Hx ->%list_elem_of_singleton. done.
  - unfold no_dangling. rewrite Hids. intros day row x Hx.
    apply elem_of_app. left. by apply (Hok day row).
  - intros x [= <-]. apply elem_of_app. right. constructor.
Qed.

Lemma addActivity_invariant_witness :
  plan_invariant (addActivity (makeDefaultPlan "p_1" "Default") "a_new").
Proof.
  apply (addActivity_invariant (makeDefaultPlan "p_1" "Default") "a_new").
  - cbn. refine (bool_decide_unpack _ _). vm_compute. exact I.
  - apply plan_invariant_default.
Defined.

Section Operations.
Local Open Scope nat_scope.
Implicit Types (p : Plan) (g : grid_t).

Lemma updateActivity_ids p X q :
  set_id q = None →
  id <$> activities (updateActivity p X q) = id <$> activities p.
Proof.
  intros Hq. cbn. rewrite <- list_fmap_compose. apply list_fmap_ext.
  intros i a _. cbn. destruct (decide (id a = X)); [|done].
  cbn. by rewrite Hq.
Qed.

Lemma plan_eta p :
  mkPlan (plan_id p) (plan_name p) (activities p) (grid p)
    (selectedActivityId p) (tool p) = p.
Proof. by destruct p. Qed.

Lemma clear_absent g X :
  (∀ day row, cell_at g day row ≠ Some X) → clearGridForActivity g X = g.
Proof.
  intros Hnone. unfold clearGridForActivity.
  apply list_eq. intros day.
  change (map ?f g) with (f <$> g). rewrite list_lookup_fmap.
  destruct (g !! day) as [col|] eqn:Hcol; [|done]. cbn. f_equal.
  apply list_eq. intros row.
  change (map ?f col) with (f <$> col). rewrite list_lookup_fmap.
  destruct (col !! row) as [c|] eqn:Hc; [|done]. cbn. f_equal.
  rewrite decide_False; [done|]. intros ->.
  apply (Hnone day row). unfold cell_at. by rewrite Hcol, Hc.
Qed.

Lemma no_dangling_absent p X :
  no_dangling p → X ∉ id <$> activities p →
  ∀ day row, cell_at (grid p) day row ≠ Some X.
Proof. intros Hok Hnot day row Hcell. by apply Hnot, (Hok day row). Qed.

Lemma filter_absent (acts : list Activity) X :
  X ∉ id <$> acts → filter (λ a, id a ≠ X) acts = acts.
Proof.
  induction acts as [|a acts IH]; [done|]. rewrite fmap_cons.
  intros [Hne Hnot]%not_elem_of_cons.
  rewrite filter_cons, decide_True by congruence. f_equal. by apply IH.
Qed.

Lemma plan_invariant_delete p X :
  plan_invariant p → plan_invariant (deleteActivity p X).
Proof.
  intros (Hwf & Hnd & Hok & Hsel).
  split; [by apply wf_grid_clear|]. split; [by apply filter_ids_NoDup|].
  split.
  - intros day row x Hx. cbn [grid deleteActivity] in Hx.
    rewrite cell_at_clear in Hx. case_decide as Heq; [done|].
    apply deleteActivity_ids. split; [by apply (Hok day row)|congruence].
  - intros x. cbn [selectedActivityId deleteActivity].
    destruct (decide (selectedActivityId p = Some X)) as [Heq|Hne].
    + intros (a & Ha%head_Some_elem_of & ->)%fmap_Some.
      by apply list_elem_of_fmap_2.
    + intros Hx. apply deleteActivity_ids.
      split; [by apply Hsel|congruence].
Qed.

Lemma perform_activities p w : activities (perform p w) = activities p.
Proof.
  destruct w as [w|]; [|done]. cbn [perform]. unfold applyRange.
  by destruct (applyRange_grid (grid p) (w_day w) (w_start w) (w_len w) (w_value w)).
Qed.

Lemma perform_tool p w : tool (perform p w) = tool p.
Proof.
  destruct w as [w|]; [|done]. cbn [perform]. unfold applyRange.
  by destruct (applyRange_grid (grid p) (w_day w) (w_start w) (w_len w) (w_value w)).
Qed.

Lemma perform_invariant p (c : nat * nat) len v :
  plan_invariant p → valid_cell c → v = None ∨ v = selectedActivityId p →
  plan_invariant (perform p (Some (mkWrite c.1 c.2 len v))).
Proof.
  intros (Hwf & Hnd & Hok & Hsel) Hc Hv.
  destruct (perform_valid p c len v Hwf Hc) as [Hwf' Hcells].
  split; [done|]. rewrite perform_activities, perform_selected.
  split; [done|]. split; [|done].
  intros day row x. rewrite perform_activities, Hcells.
  destruct (decide (in_block len c day row)); [|apply Hok].
  intros ->. destruct Hv as [?|Heq]; [done|]. by apply Hsel.
Qed.

Lemma paint_step_invariant gran refs p ev :
  plan_invariant p → event_valid ev →
  plan_invariant (paint_step gran (refs, p) ev).1.2
  ∧ activities (paint_step gran (refs, p) ev).1.2 = activities p
  ∧ selectedActivityId (paint_step gran (refs, p) ev).1.2 = selectedActivityId p
  ∧ tool (paint_step gran (refs, p) ev).1.2 = tool p.
Proof.
  intros Hinv Hev. destruct ev as [e d r|d r|]; cbn [paint_step]; [| |done].
  - cbn [onCellPointerDown fst snd].
    rewrite perform_activities, perform_selected, perform_tool.
    split; [|done]. apply (perform_invariant p (d, r)); [done..|].
    unfold mode_value. destruct (dragPaintMode _); auto.
  - unfold onCellPointerEnter.
    destruct (negb (isMouseDown refs)); [done|].
    destruct (decide (lastPaint refs = (Some d, Some r))); [done|].
    cbn [fst snd]. rewrite perform_activities, perform_selected, perform_tool.
    split; [|done]. apply (perform_invariant p (d, r)); [done..|].
    unfold mode_value. destruct (dragPaintMode _); auto.
Qed.

Lemma onUp_perm acts drag ev : onUp acts drag ev ≡ₚ acts.
Proof.
  unfold onUp. destruct (negb _); [done|].
  destruct (_ && _); [apply reorderByIndex_perm|done].
Qed.
End Operations.

(** X3. [updateActivity] with a patch that does not set [id] changes
    nothing but the patched fields of the activities whose id is the given
    one: every position keeps its activity, patched when its id matches, the
    ids and their order are the same, the grid, the selection and the tool
    are untouched, and the plan invariants are kept.  For an id that no
    activity has, the plan is unchanged. *)
Theorem updateActivity_keeps_ids (p : Plan) (X : string) (q : ActivityPatch) :
  set_id q = None →
  id <$> activities (updateActivity p X q) = id <$> activities p
  ∧ (∀ (i : nat) a, activities p !! i = Some a →
       activities (updateActivity p X q) !! i
       = Some (if decide (id a = X) then patch_activity a q else a))
  ∧ grid (updateActivity p X q) = grid p
  ∧ selectedActivityId (updateActivity p X q) = selectedActivityId p
  ∧ tool (updateActivity p X q) = tool p
  ∧ (plan_invariant p → plan_invariant (updateActivity p X q))
  ∧ (X ∉ id <$> activities p → updateActivity p X q = p).
Proof.
  intros Hq. pose proof (updateActivity_ids p X q Hq) as Hids.
  split; [done|]. split.
  { intros i a Ha. cbn. by rewrite list_lookup_fmap, Ha. }
  do 3 (split; [done|]). split.
  - intros (Hwf & Hnd & Hok & Hsel).
    split; [done|]. unfold no_dangling. rewrite Hids. done.
  - intros Hnot. etransitivity; [|apply plan_eta].
    unfold updateActivity, apply_patch.
    cbn [patch_id patch_name patch_activities patch_grid patch_selected
         patch_tool default].
    f_equal. etransitivity; [|apply list_fmap_id].
    apply list_fmap_ext. intros i a Ha. cbn.
    rewrite decide_False; [done|]. intros <-. apply Hnot.
    apply list_elem_of_fmap_2. by eapply list_elem_of_lookup_2.
Qed.

Lemma updateActivity_keeps_ids_witness :
  name <$> activities
    (updateActivity (makeDefaultPlan "p_1" "Default") "a_sleep"
       (mkActivityPatch None (Some "Rest") None None))
  = ["Work"; "Family"; "Rest"; "Admin"]
  ∧ plan_invariant
      (updateActivity (makeDefaultPlan "p_1" "Default") "a_sleep"
         (mkActivityPatch None (Some "Rest") None None)).
Proof.
  destruct (updateActivity_keeps_ids (makeDefaultPlan "p_1" "Default") "a_sleep"
              (mkActivityPatch None (Some "Rest") None None) eq_refl)
    as (_ & _ & _ & _ & _ & Hinv & _).
  split; [reflexivity|]. apply Hinv, plan_invariant_default.
Defined.

(** X4. [clearActivityCells] frees exactly the cells holding the given id:
    afterwards no cell holds it and every other cell reads as before; the
    registry, the selection and the tool are untouched (the activity stays in
    the registry), the plan invariants are kept, and clearing again changes
    nothing. *)
Theorem clearActivityCells_frees_only_that_id (p : Plan) (X : string) :
  (∀ day row, cell_at (grid (clearActivityCells p X)) day row ≠ Some X)
  ∧ (∀ day row, cell_at (grid p) day row ≠ Some X →
       cell_at (grid (clearActivityCells p X)) day row = cell_at (grid p) day row)
  ∧ (∀ day row, cell_at (grid p) day row = Some X →
       cell_at (grid (clearActivityCells p X)) day row = None)
  ∧ activities (clearActivityCells p X) = activities p
  ∧ selectedActivityId (clearActivityCells p X) = selectedActivityId p
  ∧ tool (clearActivityCells p X) = tool p
  ∧ (plan_invariant p → plan_invariant (clearActivityCells p X))
  ∧ clearActivityCells (clearActivityCells p X) X = clearActivityCells p X.
Proof.
  assert (∀ day row, cell_at (grid (clearActivityCells p X)) day row ≠ Some X)
    as Hgone.
  { intros day row. cbn. rewrite cell_at_clear. case_decide; congruence. }
  split; [done|]. split.
  { intros day row Hne. cbn. rewrite cell_at_clear. by rewrite decide_False. }
  split.
  { intros day row Heq. cbn. rewrite cell_at_clear. by rewrite decide_True. }
  do 3 (split; [done|]). split.
  - intros (Hwf & Hnd & Hok & Hsel).
    split; [by apply wf_grid_clear|]. split; [done|]. split; [|done].
    intros day row x Hx. cbn in Hx. rewrite cell_at_clear in Hx.
    case_decide; [done|]. by apply (Hok day row).
  - unfold clearActivityCells at 1. unfold apply_patch.
    cbn [patch_id patch_name patch_activities patch_grid patch_selected
         patch_tool default].
    rewrite (clear_absent _ X Hgone). apply plan_eta.
Qed.

Lemma clearActivityCells_frees_only_that_id_witness :
  cell_at (grid (clearActivityCells plan_hour "A")) 2 3 = None
  ∧ cell_at (grid (clearActivityCells plan_hour "A")) 2 8 = Some "B".
Proof.
  destruct (clearActivityCells_frees_only_that_id plan_hour "A")
    as (_ & Hother & Hfreed & _).
  split.
  - apply Hfreed. reflexivity.
  - rewrite Hother; [reflexivity|]. vm_compute. discriminate.
Defined.

(** X5. [deleteActivity] keeps the plan invariants: the grid stays 7 x 288,
    the remaining ids stay distinct, no cell holds an id absent from the
    registry and the selection is [null] or a remaining id.  On a plan
    satisfying the invariants, deleting an id that no activity has leaves
    the plan unchanged. *)
Theorem deleteActivity_invariant (p : Plan) (X : string) :
  plan_invariant p →
  plan_invariant (deleteActivity p X)
  ∧ activities (deleteActivity p X) = filter (λ a, id a ≠ X) (activities p)
  ∧ (X ∉ id <$> activities p → deleteActivity p X = p).
Proof.
  intros Hinv. split; [by apply plan_invariant_delete|]. split; [done|].
  destruct Hinv as (Hwf & Hnd & Hok & Hsel). intros Hnot.
  unfold deleteActivity.
  rewrite (filter_absent _ _ Hnot).
  rewrite (clear_absent _ X (no_dangling_absent p X Hok Hnot)).
  rewrite decide_False; [apply plan_eta|].
  intros Heq. by apply Hnot, Hsel.
Qed.

Lemma deleteActivity_invariant_witness :
  plan_invariant (deleteActivity (makeDefaultPlan "p_1" "Default") "a_work")
  ∧ selectedActivityId (deleteActivity (makeDefaultPlan "p_1" "Default") "a_work")
    = Some "a_family".
Proof.
  split; [|reflexivity].
  apply (deleteActivity_invariant (makeDefaultPlan "p_1" "Default") "a_work").
  apply plan_invariant_default.
Defined.

(** X6. Painting keeps the plan invariants.  For every sequence of presses,
    entered cells and releases on cells of the visible grid, at any
    granularity and with either button, the plan after the sequence
    satisfies the invariants when the plan before did, and its registry,
    selection and tool are those of the plan before. *)
Theorem paint_run_invariant
  (gran : nat) (evs : list PaintEvent) (refs : PaintRefs) (p : Plan) :
  plan_invariant p → Forall event_valid evs →
  plan_invariant (paint_run gran (refs, p) evs).1.2
  ∧ activities (paint_run gran (refs, p) evs).1.2 = activities p
  ∧ selectedActivityId (paint_run gran (refs, p) evs).1.2 = selectedActivityId p
  ∧ tool (paint_run gran (refs, p) evs).1.2 = tool p.
Proof.
  revert refs p. induction evs as [|ev evs IH]; intros refs p Hinv Hvalid; [done|].
  apply Forall_cons_1 in Hvalid as [Hev Hvalid].
  rewrite paint_run_cons_state.
  destruct (paint_step_invariant gran refs p ev Hinv Hev)
    as (Hinv1 & Hacts1 & Hsel1 & Htool1).
  destruct (paint_step gran (refs, p) ev) as [[refs1 p1] w]. cbn [fst snd] in *.
  destruct (IH refs1 p1 Hinv1 Hvalid) as (Hinv2 & Hacts2 & Hsel2 & Htool2).
  split; [done|]. by rewrite Hacts2, Hsel2, Htool2.
Qed.

Lemma paint_run_invariant_witness :
  plan_invariant
    (paint_run 12 (initialRefs, makeDefaultPlan "p_1" "Default")
       [CellDown leftClick 0 0; CellEnter 0 12; CellEnter 1 12; MouseUp;
        CellDown rightClick 0 12; MouseUp])%nat.1.2.
Proof.
  apply (paint_run_invariant 12
           [CellDown leftClick 0 0; CellEnter 0 12; CellEnter 1 12; MouseUp;
            CellDown rightClick 0 12; MouseUp]%nat
           initialRefs (makeDefaultPlan "p_1" "Default")).
  - apply plan_invariant_default.
  - repeat constructor; cbn; lia.
Defined.

(** X7. Releasing a reorder drag never loses, duplicates or alters an
    activity: whatever the drag state and the pointer of the event, the
    activity list afterwards is a permutation of the list before, of the
    same length; the grid, the selection and the tool are untouched and the
    plan invariants are kept. *)
Theorem reorderRelease_permutes (p : Plan) (drag : ReorderDrag) (evPointer : Z) :
  activities (reorderRelease p drag evPointer) ≡ₚ activities p
  ∧ length (activities (reorderRelease p drag evPointer)) = length (activities p)
  ∧ grid (reorderRelease p drag evPointer) = grid p
  ∧ selectedActivityId (reorderRelease p drag evPointer) = selectedActivityId p
  ∧ tool (reorderRelease p drag evPointer) = tool p
  ∧ (plan_invariant p → plan_invariant (reorderRelease p drag evPointer)).
Proof.
  assert (activities (reorderRelease p drag evPointer) ≡ₚ activities p) as Hperm
    by apply onUp_perm.
  split; [done|]. split; [by rewrite Hperm|]. do 3 (split; [done|]).
  intros (Hwf & Hnd & Hok & Hsel).
  assert (id <$> activities (reorderRelease p drag evPointer)
          ≡ₚ id <$> activities p) as Hids by by rewrite Hperm.
  split; [done|]. split; [by rewrite Hids|]. split.
  - intros day row x Hx. rewrite Hids. by apply (Hok day row).
  - intros x Hx. rewrite Hids. by apply Hsel.
Qed.

Lemma reorderRelease_permutes_witness :
  plan_invariant
    (reorderRelease (makeDefaultPlan "p_1" "Default")
       (mkReorderDrag "a_sleep" 1 2 0) 1).
Proof.
  apply (reorderRelease_permutes (makeDefaultPlan "p_1" "Default")
           (mkReorderDrag "a_sleep" 1 2 0) 1).
  apply plan_invariant_default.
Defined.

Section Stripes.
Local Open Scope nat_scope.
Implicit Types (acts : list Activity) (ids : list cell) (p : Plan).

(** At one slot per row a row is never mixed. *)
Lemma classify_one_slot acts gran (c : cell) :
  classify acts gran [c]
  = if truthy c then StripeSingle (c ≫= jmap_get (activityById acts))
    else StripeFree.
Proof.
  destruct (truthy c) eqn:Hc.
  - destruct c as [X|]; [|done].
    rewrite (classify_single acts gran [Some X] X); [done|done|done|].
    by repeat constructor.
  - apply classify_free. by repeat constructor.
Qed.

Lemma row_ids_eq (g1 g2 : grid_t) (gran day v : nat) :
  wf_grid g1 → wf_grid g2 → gran = 1 ∨ gran = 3 ∨ gran = 12 →
  day < 7 → v < 288 / gran →
  (∀ i, i < gran → cell_at g1 day (v * gran + i) = cell_at g2 day (v * gran + i)) →
  row_ids g1 gran day (v * gran) = row_ids g2 gran day (v * gran).
Proof.
  intros Hwf1 Hwf2 Hg Hday Hv Hcells.
  destruct (row_ids_wf g1 gran day v Hwf1 Hg Hday Hv) as [Hlen1 Hl1].
  destruct (row_ids_wf g2 gran day v Hwf2 Hg Hday Hv) as [Hlen2 Hl2].
  apply list_eq. intros i.
  destruct (decide (i < gran)) as [Hi|Hi].
  - by rewrite Hl1, Hl2, Hcells.
  - rewrite !lookup_ge_None_2; [done|lia..].
Qed.

Lemma row_ids_all (g : grid_t) (gran day v : nat) (c : cell) :
  wf_grid g → gran = 1 ∨ gran = 3 ∨ gran = 12 → day < 7 → v < 288 / gran →
  (∀ i, i < gran → cell_at g day (v * gran + i) = c) →
  row_ids g gran day (v * gran) = replicate gran c.
Proof.
  intros Hwf Hg Hday Hv Hcells.
  destruct (row_ids_wf g gran day v Hwf Hg Hday Hv) as [Hlen Hl].
  apply list_eq. intros i.
  destruct (decide (i < gran)) as [Hi|Hi].
  - rewrite Hl, Hcells by done. symmetry. by apply lookup_replicate_2.
  - rewrite !lookup_ge_None_2; [done|rewrite ?length_replicate; lia..].
Qed.

Lemma classify_replicate acts gran (k : nat) (c : cell) :
  0 < k →
  classify acts gran (replicate k c)
  = if truthy c then StripeSingle (c ≫= jmap_get (activityById acts))
    else StripeFree.
Proof.
  intros Hk. destruct (truthy c) eqn:Hc.
  - destruct c as [X|]; [|done].
    rewrite (classify_single acts gran _ X); [done| |done|].
    + destruct k; [lia|done].
    + apply Forall_replicate. done.
  - apply classify_free. by apply Forall_replicate.
Qed.

Lemma aligned_rows_block (gran v v' i : nat) :
  gran = 1 ∨ gran = 3 ∨ gran = 12 → v < 288 / gran → v' < 288 / gran →
  i < gran →
  (v * gran ≤ v' * gran + i < Nat.min 288 (v * gran + gran)) ↔ v' = v.
Proof.
  intros Hg Hv Hv' Hi.
  assert (v * gran + gran ≤ 288) as Hend.
  { destruct Hg as [->|[->| ->]].
    - change (288 / 1) with 288 in Hv. lia.
    - change (288 / 3) with 96 in Hv. lia.
    - change (288 / 12) with 24 in Hv. lia. }
  rewrite Nat.min_r by lia. split; [|intros ->; lia].
  intros [Hlo Hhi]. nia.
Qed.
End Stripes.

(** X8. At the 5-minute scale no cell is mixed: on a 7 x 288 grid,
    [getStripeBackground] at one slot per row is free when the slot's cell is
    [null] or the empty string, and single, carrying the registry's activity
    of the cell's id ([null] when the registry has none), otherwise. *)
Theorem getStripeBackground_one_slot (p : Plan) (day row : nat) :
  wf_grid (grid p) → (day < 7)%nat → (row < 288)%nat →
  getStripeBackground p 1 day row
  = if truthy (cell_at (grid p) day row)
    then StripeSingle (cell_at (grid p) day row ≫= jmap_get (activityById (activities p)))
    else StripeFree.
Proof.
  intros Hwf Hday Hrow.
  assert (row < 288 / 1)%nat as Hv by (change (288 / 1)%nat with 288%nat; lia).
  destruct (row_ids_wf (grid p) 1 day row Hwf (or_introl eq_refl) Hday Hv)
    as [Hlen Hl].
  rewrite Nat.mul_1_r in *.
  unfold getStripeBackground.
  assert (row_ids (grid p) 1 day row = [cell_at (grid p) day row]) as ->.
  { specialize (Hl 0%nat ltac:(lia)). rewrite Nat.add_0_r in Hl.
    destruct (row_ids (grid p) 1 day row) as [|c [|c' l]]; try done.
    cbn in Hl. by injection Hl as ->. }
  apply classify_one_slot.
Qed.

Lemma getStripeBackground_one_slot_witness :
  getStripeBackground plan_hour 1 2 7 = StripeSingle (Some (act "B"))
  ∧ getStripeBackground plan_hour 1 2 12 = StripeFree.
Proof.
  assert (wf_grid (grid plan_hour)) as Hwf.
  { split; [reflexivity|]. repeat constructor. }
  split.
  - rewrite (getStripeBackground_one_slot plan_hour 2 7 Hwf); [reflexivity|lia..].
  - rewrite (getStripeBackground_one_slot plan_hour 2 12 Hwf); [reflexivity|lia..].
Defined.

(** X9. What is painted is what is shown.  On a 7 x 288 grid, after the
    write of a coarse cell (day [day], coarse row [v], granularity 1, 3 or
    12) with value [c], that cell's stripe is free when [c] is [null] (or the
    empty string) and single with the registry's activity of id [c]
    otherwise, whatever the block held before; and the stripe of every other
    coarse cell of the grid at that granularity is what it was. *)
Theorem painted_cell_is_uniform (p : Plan) (gran day v : nat) (c : cell) :
  wf_grid (grid p) → gran = 1%nat ∨ gran = 3%nat ∨ gran = 12%nat →
  (day < 7)%nat → (v < 288 / gran)%nat →
  getStripeBackground (perform p (Some (mkWrite day (v * gran) gran c)))
    gran day (v * gran)
  = (if truthy c
     then StripeSingle (c ≫= jmap_get (activityById (activities p)))
     else StripeFree)
  ∧ ∀ d v', (d < 7)%nat → (v' < 288 / gran)%nat → (d, v') ≠ (day, v) →
      getStripeBackground (perform p (Some (mkWrite day (v * gran) gran c)))
        gran d (v' * gran)
      = getStripeBackground p gran d (v' * gran).
Proof.
  intros Hwf Hg Hday Hv.
  assert (v * gran < 288)%nat as Hstart.
  { destruct Hg as [->|[->| ->]].
    - change (288 / 1)%nat with 288%nat in Hv. lia.
    - change (288 / 3)%nat with 96%nat in Hv. lia.
    - change (288 / 12)%nat with 24%nat in Hv. lia. }
  destruct (perform_valid p (day, v * gran)%nat gran c Hwf (conj Hday Hstart))
    as [Hwf' Hcells].
  cbn [fst snd] in *.
  set (p' := perform p (Some (mkWrite day (v * gran) gran c))) in *.
  assert (activities p' = activities p) as Hacts by apply perform_activities.
  unfold getStripeBackground. rewrite Hacts. split.
  - rewrite (row_ids_all (grid p') gran day v c); try done.
    + apply classify_replicate. destruct Hg as [->|[->| ->]]; lia.
    + intros i Hi. rewrite Hcells, decide_True; [done|].
      split; [done|]. cbn [fst snd].
      by apply (aligned_rows_block gran v v i).
  - intros d v' Hd Hv' Hne. f_equal.
    apply row_ids_eq; try done.
    intros i Hi. rewrite Hcells, decide_False; [done|].
    intros [Hd' Hblock]. cbn [fst snd] in Hd', Hblock. subst d.
    apply (aligned_rows_block gran v v' i) in Hblock; try done. congruence.
Qed.

Lemma painted_cell_is_uniform_witness :
  getStripeBackground (perform plan_hour (Some (mkWrite 2 0 12 (Some "B")))) 12 2 0
  = StripeSingle (Some (act "B")).
Proof.
  assert (wf_grid (grid plan_hour)) as Hwf.
  { split; [reflexivity|]. repeat constructor. }
  destruct (painted_cell_is_uniform plan_hour 12 2 0 (Some "B") Hwf)
    as [Hshown _]; [tauto|lia|vm_compute; lia|].
  change (0 * 12)%nat with 0%nat in Hshown. rewrite Hshown. reflexivity.
Defined.

Section Gradient.
Local Open Scope nat_scope.
Implicit Types (acts : list Activity) (ids : list cell) (segs : list Segment).

Lemma first_seen_all (l : list string) :
  filter (λ x, x ∈ first_seen l) l = l.
Proof.
  assert (∀ l' : list string, (∀ x, x ∈ l' → x ∈ first_seen l) →
            filter (λ x, x ∈ first_seen l) l' = l') as Hall.
  { induction l' as [|x l' IH]; intros Hin; [done|].
    rewrite filter_cons, decide_True by (apply Hin; constructor).
    f_equal. apply IH. intros y Hy. apply Hin. by constructor. }
  apply Hall. intros x. by rewrite elem_of_first_seen.
Qed.

(** Every segment of a row counts at least one slot, and the counts add up
    to the number of slots of the row. *)
Lemma row_segments_counts acts ids :
  Forall (λ s, 0 < n s) (row_segments acts ids)
  ∧ sum_list (n <$> row_segments acts ids) = length ids
  ∧ length (row_segments acts ids)
    = length (first_seen (held_ids ids)) + (if decide (0 < free_count ids) then 1 else 0).
Proof.
  rewrite row_segments_unsorted.
  set (U := (segment_of acts ids <$> first_seen (held_ids ids)) ++ _).
  pose proof (js_sort_perm U) as Hperm. rewrite Hperm.
  unfold U. split; [|split].
  - apply Forall_app. split.
    + apply Forall_fmap, Forall_forall. intros k Hk. cbn.
      by apply occurrences_pos, elem_of_first_seen.
    + destruct (decide (0 < free_count ids)); by repeat constructor.
  - rewrite fmap_app, sum_list_with_app, <- list_fmap_compose.
    rewrite (length_cells_split ids).
    assert (sum_list ((n ∘ segment_of acts ids) <$> first_seen (held_ids ids))
            = length (held_ids ids)) as ->.
    { transitivity
        (length (filter (λ x, x ∈ first_seen (held_ids ids)) (held_ids ids)));
        [|by rewrite first_seen_all].
      rewrite <- sum_occurrences by apply NoDup_first_seen. done. }
    destruct (decide (0 < free_count ids)); cbn; lia.
  - rewrite length_app, length_fmap.
    by destruct (decide (0 < free_count ids)).
Qed.

Lemma gradient_fold total segs : ∀ acc stops,
  Forall (λ s, 0 < n s) segs →
  ∃ new,
    (fold_left
       (λ '(acc, stops) s,
          (acc + n s, stops ++ [mkStop (seg_colour s) acc (acc + n s) total]))
       segs (acc, stops)).2 = stops ++ new
    ∧ tiles acc new (acc + sum_list (n <$> segs))
    ∧ Forall2 (λ st s, stop_colour st = seg_colour s
                       ∧ stop_to st = stop_from st + n s
                       ∧ stop_total st = total) new segs.
Proof.
  induction segs as [|s segs IH]; intros acc stops Hpos.
  - exists []. cbn. rewrite app_nil_r, Nat.add_0_r. by repeat split.
  - apply Forall_cons_1 in Hpos as [Hs Hpos]. cbn [fold_left].
    destruct (IH (acc + n s) (stops ++ [mkStop (seg_colour s) acc (acc + n s) total])
                Hpos) as (new & Heq & Htiles & Hall).
    exists (mkStop (seg_colour s) acc (acc + n s) total :: new).
    rewrite Heq, <- app_assoc. split; [done|]. split.
    + cbn. split; [done|]. split; [lia|].
      replace (acc + (n s + sum_list (n <$> segs)))
        with (acc + n s + sum_list (n <$> segs)) by lia. done.
    + by constructor.
Qed.

Lemma tip_lines_all segs :
  Forall (λ s, 0 < n s) segs →
  tip_lines segs = (λ s, (label s, n s * 5)) <$> segs.
Proof.
  intros Hpos. unfold tip_lines. f_equal.
  induction Hpos as [|s segs Hs _ IH]; [done|].
  by rewrite filter_cons, decide_True, IH.
Qed.

Lemma classify_mixed_inv acts gran ids gradient tip :
  classify acts gran ids = StripeMixed gradient tip →
  gradient = gradient_stops gran (row_segments acts ids)
  ∧ tip = tip_lines (row_segments acts ids)
  ∧ 2 ≤ length (row_segments acts ids).
Proof.
  destruct (row_segments_counts acts ids) as (_ & _ & Hlen).
  unfold classify. rewrite tally_spec.
  unfold jmap_size, tabulate. rewrite length_fmap.
  destruct (decide (length (first_seen (held_ids ids)) = 0)); [done|].
  destruct (decide (length (first_seen (held_ids ids)) = 1 ∧ free_count ids = 0));
    [done|].
  intros [= <- <-]. split; [done|]. split; [done|].
  rewrite Hlen. destruct (decide (0 < free_count ids)); lia.
Qed.
End Gradient.

(** X10. The bands of a mixed stripe tile the row.  When
    [getStripeBackground] classifies a row as mixed, its gradient has one
    colour stop per segment, in the segments' order and at least two; each
    stop has the segment's colour and a width of the segment's slot count
    over the granularity; the first stop starts at 0, each next one starts
    where the one before ends, none is empty and the last ends at the number
    of slots of the row. *)
Theorem mixed_gradient_tiles_row
  (acts : list Activity) (gran : nat) (ids : list cell)
  (gradient : list Stop) (tip : list (string * nat)) :
  classify acts gran ids = StripeMixed gradient tip →
  tiles 0 gradient (length ids)
  ∧ (2 ≤ length gradient)%nat
  ∧ Forall2 (λ st s, stop_colour st = seg_colour s
                     ∧ stop_to st = (stop_from st + n s)%nat
                     ∧ stop_total st = gran)
      gradient (row_segments acts ids).
Proof.
  intros (-> & _ & Hlen)%classify_mixed_inv.
  destruct (row_segments_counts acts ids) as (Hpos & Hsum & _).
  destruct (gradient_fold gran (row_segments acts ids) 0%nat [] Hpos)
    as (new & Heq & Htiles & Hall).
  unfold gradient_stops. rewrite Heq. cbn [app].
  rewrite Hsum in Htiles. split; [done|]. split; [|done].
  by rewrite (Forall2_length _ _ _ Hall).
Qed.

Lemma mixed_gradient_tiles_row_witness :
  ∃ gradient tip,
    classify ABCD 12 row_free_then_A = StripeMixed gradient tip
    ∧ tiles 0 gradient 12.
Proof.
  eexists _, _. split; [reflexivity|].
  apply (mixed_gradient_tiles_row ABCD 12 row_free_then_A _ _ eq_refl).
Defined.

(** X11. The tooltip of a mixed stripe accounts for the whole row: it has
    one line per segment, in the segments' order, none left out; each line
    carries the segment's label and five minutes per slot of the segment;
    and the durations add up to five minutes per slot of the row. *)
Theorem mixed_tip_accounts_for_row
  (acts : list Activity) (gran : nat) (ids : list cell)
  (gradient : list Stop) (tip : list (string * nat)) :
  classify acts gran ids = StripeMixed gradient tip →
  tip = (λ s, (label s, (n s * 5)%nat)) <$> row_segments acts ids
  ∧ length tip = length gradient
  ∧ sum_list (snd <$> tip) = (5 * length ids)%nat.
Proof.
  intros Hmixed.
  destruct (classify_mixed_inv _ _ _ _ _ Hmixed) as (-> & -> & _).
  destruct (row_segments_counts acts ids) as (Hpos & Hsum & _).
  destruct (gradient_fold gran (row_segments acts ids) 0%nat [] Hpos)
    as (new & Heq & _ & Hall).
  rewrite (tip_lines_all _ Hpos). split; [done|]. split.
  - unfold gradient_stops. rewrite Heq. cbn [app].
    by rewrite length_fmap, (Forall2_length _ _ _ Hall).
  - rewrite <- list_fmap_compose, <- Hsum.
    generalize (row_segments acts ids). intros segs.
    induction segs as [|s segs IH]; [done|].
    rewrite !fmap_cons. cbn [sum_list_with]. rewrite IH.
    unfold Datatypes.id. cbn. lia.
Qed.

Lemma mixed_tip_accounts_for_row_witness :
  ∃ gradient tip,
    classify ABCD 12 row_free_then_A = StripeMixed gradient tip
    ∧ sum_list (snd <$> tip) = 60%nat.
Proof.
  eexists _, _. split; [reflexivity|].
  apply (mixed_tip_accounts_for_row ABCD 12 row_free_then_A _ _ eq_refl).
Defined.

Section SummaryLookups.
Local Open Scope nat_scope.
Implicit Types (p : Plan) (cells : list cell) (k X : string).

Lemma held_ids_cons (c : cell) cells :
  held_ids (c :: cells)
  = (if truthy c then option_list c else []) ++ held_ids cells.
Proof.
  change (c :: cells) with ([c] ++ cells).
  unfold held_ids. rewrite omap_app. f_equal.
  destruct c as [s|]; cbn; [|done]. by destruct (decide (s = "")).
Qed.

Lemma occurrences_held cells k :
  occurrences k (held_ids cells)
  = if truthy (Some k) then length (filter (λ c, c = Some k) cells) else 0.
Proof.
  unfold occurrences.
  induction cells as [|c cells IH].
  { by destruct (truthy (Some k)). }
  rewrite held_ids_cons, filter_app, length_app, IH, filter_cons.
  destruct c as [s|]; cycle 1.
  { rewrite decide_False by done. by destruct (truthy (Some k)). }
  destruct (decide (s = k)) as [->|Hne].
  - rewrite decide_True by done.
    destruct (truthy (Some k)); [|done].
    change (option_list (Some k)) with [k].
    rewrite filter_cons, decide_True by done. done.
  - rewrite (decide_False (P := Some s = Some k)) by congruence.
    destruct (truthy (Some s)); [|done].
    change (option_list (Some s)) with [s].
    rewrite filter_cons, decide_False by done. done.
Qed.

Lemma scanned_cells_fmap (g g' : grid_t) (f : cell → cell) :
  (∀ day row, cell_at g' day row = f (cell_at g day row)) →
  scanned_cells g' = f <$> scanned_cells g.
Proof.
  intros Hcells. unfold scanned_cells.
  generalize (seq 0 7) as days. generalize (seq 0 288) as rows.
  intros rows days. induction days as [|d days IH]; [done|].
  cbn [mbind list_bind]. rewrite fmap_app, IH. f_equal.
  clear IH. induction rows as [|r rows IH]; [done|].
  cbn [mbind list_bind]. rewrite fmap_app, IH. cbn. by rewrite Hcells.
Qed.

Lemma free_count_clear cells X :
  free_count ((λ c : cell, if decide (c = Some X) then None else c) <$> cells)
  = free_count cells
    + (if truthy (Some X) then length (filter (λ c, c = Some X) cells) else 0).
Proof.
  unfold free_count. induction cells as [|c cells IH].
  { by destruct (truthy (Some X)). }
  rewrite fmap_cons, !filter_cons.
  destruct (decide (c = Some X)) as [->|Hne].
  - rewrite (decide_True (P := truthy None = false)) by done.
    destruct (truthy (Some X)) eqn:HX.
    + rewrite decide_False by discriminate. cbn [length]. lia.
    + rewrite decide_True by done. cbn [length]. lia.
  - destruct (decide (truthy c = false)), (truthy (Some X));
      cbn [length]; lia.
Qed.

Lemma occurrences_clear cells X k :
  occurrences k
    (held_ids ((λ c : cell, if decide (c = Some X) then None else c) <$> cells))
  = if decide (k = X) then 0 else occurrences k (held_ids cells).
Proof.
  rewrite !occurrences_held. destruct (truthy (Some k)) eqn:Hk.
  2:{ by destruct (decide (k = X)). }
  induction cells as [|c cells IH].
  { by destruct (decide (k = X)). }
  rewrite fmap_cons, !filter_cons.
  destruct (decide (c = Some X)) as [->|Hne].
  - rewrite (decide_False (P := None = Some k)) by done.
    destruct (decide (k = X)) as [->|Hk']; [done|].
    by rewrite (decide_False (P := Some X = Some k)) by congruence.
  - destruct (decide (c = Some k)) as [->|Hck]; [|done].
    cbn [length]. rewrite IH.
    destruct (decide (k = X)); [congruence|done].
Qed.

Lemma minutesById_lookup p k :
  jmap_get (minutesById (allocationSummary p)) k
  = if decide (k ∈ id <$> activities p)
    then Some (occurrences k (held_ids (scanned_cells (grid p))) * 5)
    else None.
Proof.
  rewrite allocationSummary_spec. cbn [minutesById].
  rewrite jmap_get_tabulate.
  destruct (decide (k ∈ first_seen (id <$> activities p))) as [Hin|Hout].
  - rewrite decide_True; [done|]. by apply elem_of_first_seen.
  - rewrite decide_False; [done|]. by rewrite <- elem_of_first_seen.
Qed.
End SummaryLookups.

(** X12. What the allocation summary reports.  [minutesById] has one entry
    per distinct id of the registry, in the registry's order of first
    occurrence; the entry of an id is five minutes per cell of the 7 x 288
    scan holding that id (zero when no cell holds it, and zero for the empty
    id, whose cells count as free); an id that is not in the registry has no
    entry; and the free minutes are five per free cell. *)
Theorem allocationSummary_minutes (p : Plan) :
  jmap_keys (minutesById (allocationSummary p)) = first_seen (id <$> activities p)
  ∧ (∀ k, k ∈ id <$> activities p →
       jmap_get (minutesById (allocationSummary p)) k
       = Some (if truthy (Some k) then (cells_holding (grid p) k * 5)%nat else 0%nat))
  ∧ (∀ k, k ∉ id <$> activities p →
       jmap_get (minutesById (allocationSummary p)) k = None)
  ∧ freeMinutes (allocationSummary p)
    = (free_count (scanned_cells (grid p)) * 5)%nat.
Proof.
  split.
  { rewrite allocationSummary_spec. unfold jmap_keys, tabulate. cbn [minutesById].
    rewrite <- list_fmap_compose. apply list_fmap_id. }
  split.
  { intros k Hk. rewrite minutesById_lookup, decide_True by done.
    rewrite occurrences_held. unfold cells_holding.
    by destruct (truthy (Some k)). }
  split.
  { intros k Hk. by rewrite minutesById_lookup, decide_False. }
  by rewrite allocationSummary_spec.
Qed.

Lemma allocationSummary_minutes_witness :
  jmap_get (minutesById (allocationSummary plan_hour)) "A" = Some 90%nat
  ∧ jmap_get (minutesById (allocationSummary plan_hour)) "Z" = None.
Proof.
  destruct (allocationSummary_minutes plan_hour) as (_ & Hin & Hout & _).
  split.
  - rewrite Hin; [reflexivity|]. cbn. constructor.
  - apply Hout. cbn. refine (bool_decide_unpack _ _). vm_compute. exact I.
Defined.

(** X13. Clearing an activity's cells moves its minutes to free time: after
    [clearActivityCells X] the free minutes have grown by five minutes per
    cell that held [X] (by nothing when [X] is the empty id, whose cells
    were free already), the entry of [X] in [minutesById], if it has one, is
    zero, and every other entry is unchanged. *)
Theorem clearActivityCells_summary (p : Plan) (X : string) :
  freeMinutes (allocationSummary (clearActivityCells p X))
  = (freeMinutes (allocationSummary p)
     + (if truthy (Some X) then cells_holding (grid p) X * 5 else 0))%nat
  ∧ ∀ k, jmap_get (minutesById (allocationSummary (clearActivityCells p X))) k
         = if decide (k = X)
           then (λ _, 0%nat) <$> jmap_get (minutesById (allocationSummary p)) k
           else jmap_get (minutesById (allocationSummary p)) k.
Proof.
  assert (scanned_cells (grid (clearActivityCells p X))
          = (λ c : cell, if decide (c = Some X) then None else c)
              <$> scanned_cells (grid p)) as Hscan.
  { apply scanned_cells_fmap. intros day row. apply cell_at_clear. }
  split.
  - rewrite !allocationSummary_spec. cbn [freeMinutes].
    rewrite Hscan, free_count_clear. unfold cells_holding.
    destruct (truthy (Some X)); lia.
  - intros k. rewrite !minutesById_lookup, Hscan, occurrences_clear.
    change (activities (clearActivityCells p X)) with (activities p).
    destruct (decide (k ∈ id <$> activities p)), (decide (k = X)); done.
Qed.

Section OnUp.
Implicit Types (acts : list Activity) (a b : Activity).

Lemma findIndex_first {T} (q : T → bool) (l : list T) (j : nat) (x : T) :
  l !! j = Some x → q x = true →
  (∀ (j' : nat) y, (j' < j)%nat → l !! j' = Some y → q y = false) →
  findIndex q l = Z.of_nat j.
Proof.
  revert j. induction l as [|y l IH]; intros j Hj Hx Hbefore; [done|].
  destruct j as [|j]; cbn in Hj.
  - injection Hj as ->. cbn. by rewrite Hx.
  - cbn [findIndex]. rewrite (Hbefore 0%nat y) by (done || lia).
    rewrite (IH j Hj Hx).
    + destruct (Z.ltb_spec (Z.of_nat j) 0); lia.
    + intros j' z Hlt Hz. apply (Hbefore (S j') z); [lia|done].
Qed.

Lemma findIndex_none {T} (q : T → bool) (l : list T) :
  (∀ y, y ∈ l → q y = false) → findIndex q l = -1.
Proof.
  induction l as [|y l IH]; intros Hnone; [done|].
  cbn [findIndex]. rewrite (Hnone y) by constructor.
  rewrite IH; [done|]. intros z Hz. apply Hnone. by constructor.
Qed.

Lemma ids_index_unique acts (j j' : nat) a b :
  NoDup (id <$> acts) → acts !! j = Some a → acts !! j' = Some b →
  id a = id b → j = j'.
Proof.
  intros Hnd Ha Hb Heq.
  apply (NoDup_lookup _ _ _ (id a) Hnd).
  - by rewrite list_lookup_fmap, Ha.
  - by rewrite list_lookup_fmap, Hb, Heq.
Qed.

Lemma findIndex_id acts (j : nat) b (q : Activity → bool) :
  NoDup (id <$> acts) → acts !! j = Some b →
  (∀ a, q a = true ↔ id a = id b) →
  findIndex q acts = Z.of_nat j.
Proof.
  intros Hnd Hb Hq. apply (findIndex_first q acts j b Hb).
  - by apply Hq.
  - intros j' y Hlt Hy. apply not_true_is_false. intros Heq%Hq.
    pose proof (ids_index_unique acts j' j y b Hnd Hy Hb Heq). lia.
Qed.

Lemma filter_delete acts : ∀ (i : nat) a,
  NoDup (id <$> acts) → acts !! i = Some a →
  filter (λ b, id b ≠ id a) acts = delete i acts.
Proof.
  induction acts as [|b acts IH]; intros i a Hnd Ha; [done|].
  rewrite fmap_cons in Hnd. apply NoDup_cons in Hnd as [Hb Hnd].
  rewrite filter_cons. destruct i as [|i]; cbn in Ha.
  - injection Ha as ->. rewrite decide_False by tauto.
    by apply filter_absent.
  - rewrite decide_True.
    + cbn. f_equal. by apply IH.
    + intros Heq. apply Hb. rewrite Heq.
      apply list_elem_of_fmap_2. by eapply list_elem_of_lookup_2.
Qed.

(** [onUp] for the pointer of the drag, on a list of distinct non-empty
    ids: a single move of the dragged item to [resolved_index]. *)
Lemma onUp_resolved acts drag (i : nat) a :
  NoDup (id <$> acts) → Forall (λ b, id b ≠ "") acts →
  acts !! i = Some a → drag_id drag = id a →
  onUp acts drag (pointerId drag)
  = reorderByIndex acts (Z.of_nat i)
      (resolved_index (Z.of_nat (length acts)) (Z.of_nat i) (insertIndex drag)).
Proof.
  intros Hnd Hids Ha Hdrag.
  pose proof (lookup_lt_Some _ _ _ Ha) as Hi.
  unfold onUp. rewrite Z.eqb_refl, Hdrag. cbn [negb].
  rewrite (findIndex_id acts i a) by (done || intros b; apply bool_decide_eq_true).
  rewrite (filter_delete acts i a Hnd Ha).
  destruct (Z.geb_spec (Z.of_nat i) 0) as [_|?]; [|lia].
  rewrite length_delete by eauto.
  unfold resolved_index.
  replace (Z.of_nat (length acts - 1)) with (Z.of_nat (length acts) - 1) by lia.
  set (k' := Z.max 0 (Z.min (Z.of_nat (length acts) - 1) (insertIndex drag))).
  assert (0 ≤ k' ≤ Z.of_nat (length acts) - 1) as Hk' by (unfold k'; lia).
  assert (∀ t, 0 ≤ t →
    (if true && (t >=? 0) && negb (Z.of_nat i =? t)
     then reorderByIndex acts (Z.of_nat i) t else acts)
    = reorderByIndex acts (Z.of_nat i) t) as Hfinal.
  { intros t Ht. destruct (Z.geb_spec t 0); [|lia]. cbn [andb].
    destruct (Z.eqb_spec (Z.of_nat i) t) as [<-|]; [|done]. cbn [negb].
    rewrite reorderByIndex_in_range by lia.
    rewrite (proj2 (Z.eqb_eq _ _)); [done|]. unfold clamp_to. lia. }
  unfold nth_Z. destruct (Z.ltb_spec k' 0) as [?|_]; [lia|].
  destruct (decide (k' = Z.of_nat (length acts) - 1)) as [Hlast|Hnotlast].
  - rewrite lookup_ge_None_2 by (rewrite length_delete by eauto; lia).
    cbn [fmap option_fmap option_map truthy negb].
    rewrite Hfinal by lia. f_equal.
    destruct (Z.ltb_spec k' (Z.of_nat i)); lia.
  - set (j := Z.to_nat k').
    destruct (Z.ltb_spec k' (Z.of_nat i)) as [Hup|Hdown].
    + rewrite list_lookup_delete_lt by lia.
      destruct (lookup_lt_is_Some_2 acts j) as [b Hb]; [lia|].
      rewrite Hb. cbn [fmap option_fmap option_map].
      assert (truthy (Some (id b)) = true) as ->.
      { cbn. rewrite decide_False; [done|].
        apply (proj1 (Forall_forall _ _) Hids). by eapply list_elem_of_lookup_2. }
      cbn [negb].
      rewrite (findIndex_id acts j b); [|done|done|].
      2:{ intros c. rewrite bool_decide_eq_true. split; congruence. }
      rewrite Hfinal by lia. f_equal. lia.
    + rewrite list_lookup_delete_ge by lia.
      destruct (lookup_lt_is_Some_2 acts (S j)) as [b Hb]; [lia|].
      rewrite Hb. cbn [fmap option_fmap option_map].
      assert (truthy (Some (id b)) = true) as ->.
      { cbn. rewrite decide_False; [done|].
        apply (proj1 (Forall_forall _ _) Hids). by eapply list_elem_of_lookup_2. }
      cbn [negb].
      rewrite (findIndex_id acts (S j) b); [|done|done|].
      2:{ intros c. rewrite bool_decide_eq_true. split; congruence. }
      rewrite Hfinal by lia. f_equal. lia.
Qed.

(** A single move puts the item at the target index and leaves the others
    in their order. *)
Lemma reorderByIndex_position {T} (l : list T) (i : nat) (t : Z) (x : T) :
  l !! i = Some x → 0 ≤ t < Z.of_nat (length l) →
  reorderByIndex l (Z.of_nat i) t !! Z.to_nat t = Some x
  ∧ delete (Z.to_nat t) (reorderByIndex l (Z.of_nat i) t) = delete i l.
Proof.
  intros Hx Ht. pose proof (lookup_lt_Some _ _ _ Hx) as Hi.
  rewrite reorderByIndex_in_range by lia.
  assert (clamp_to l t = t) as -> by (unfold clamp_to; lia).
  destruct (Z.eqb_spec (Z.of_nat i) t) as [<-|Hne].
  { by rewrite Nat2Z.id. }
  rewrite Nat2Z.id, Hx. cbn zeta.
  assert (length (take (Z.to_nat t) (delete i l)) = Z.to_nat t) as Hlen.
  { rewrite length_take, length_delete by eauto. lia. }
  split.
  - rewrite lookup_app_r by lia. by rewrite Hlen, Nat.sub_diag.
  - rewrite delete_take_drop.
    rewrite take_app_length' by done.
    rewrite (cons_middle x), app_assoc.
    rewrite drop_app_length' by (rewrite length_app, Hlen; cbn; lia).
    apply take_drop.
Qed.
End OnUp.

(** X14. Where a released drag leaves the item.  On a list of distinct,
    non-empty ids, releasing (with the drag's pointer) the drag of the item
    at index [i] with insertion index [k] moves that item to index
    [resolved_index] and keeps every other item in its order.  With [k]
    clamped to the list: above the item's own position ([k < i]) the item
    lands exactly at [k]; from its own position on ([i <= k]) it lands at
    [k + 1], one place below the insertion point, or at the end. *)
Theorem onUp_final_position
  (acts : list Activity) (drag : ReorderDrag) (i : nat) (a : Activity) :
  NoDup (id <$> acts) → Forall (λ b, id b ≠ "") acts →
  acts !! i = Some a → drag_id drag = id a →
  let len := Z.of_nat (length acts) in
  let k := insertIndex drag in
  let t := resolved_index len (Z.of_nat i) k in
  0 ≤ t < len
  ∧ onUp acts drag (pointerId drag) !! Z.to_nat t = Some a
  ∧ delete (Z.to_nat t) (onUp acts drag (pointerId drag)) = delete i acts
  ∧ (0 ≤ k < Z.of_nat i → t = k)
  ∧ (Z.of_nat i ≤ k < len - 1 → t = k + 1)
  ∧ (len - 1 ≤ k → t = len - 1)
  ∧ (k < 0 → t = if decide (i = 0%nat) then Z.min 1 (len - 1) else 0).
Proof.
  intros Hnd Hids Ha Hdrag len k t.
  pose proof (lookup_lt_Some _ _ _ Ha) as Hi.
  assert (0 ≤ t < len) as Ht.
  { unfold t, resolved_index, len.
    destruct (Z.ltb_spec (Z.max 0 (Z.min (Z.of_nat (length acts) - 1) k)) (Z.of_nat i));
      lia. }
  split; [done|].
  rewrite (onUp_resolved acts drag i a Hnd Hids Ha Hdrag). fold len k t.
  destruct (reorderByIndex_position acts i t a Ha Ht) as [Hpos Hrest].
  split; [done|]. split; [done|].
  unfold t, resolved_index, len.
  repeat split; intros Hk.
  - destruct (Z.ltb_spec (Z.max 0 (Z.min (Z.of_nat (length acts) - 1) k)) (Z.of_nat i));
      lia.
  - destruct (Z.ltb_spec (Z.max 0 (Z.min (Z.of_nat (length acts) - 1) k)) (Z.of_nat i));
      lia.
  - destruct (Z.ltb_spec (Z.max 0 (Z.min (Z.of_nat (length acts) - 1) k)) (Z.of_nat i));
      lia.
  - destruct (decide (i = 0%nat));
      destruct (Z.ltb_spec (Z.max 0 (Z.min (Z.of_nat (length acts) - 1) k)) (Z.of_nat i));
      lia.
Qed.

Lemma onUp_final_position_witness :
  onUp ABCD (mkReorderDrag "C" 5 2 0) 5 !! 0%nat = Some (act "C")
  ∧ onUp ABCD (mkReorderDrag "A" 5 0 2) 5 !! 3%nat = Some (act "A").
Proof.
  assert (NoDup (id <$> ABCD)) as Hnd
    by (refine (bool_decide_unpack _ _); vm_compute; exact I).
  assert (Forall (λ b, id b ≠ "") ABCD) as Hids by (repeat constructor; done).
  split.
  - apply (onUp_final_position ABCD (mkReorderDrag "C" 5 2 0) 2 (act "C")
             Hnd Hids eq_refl eq_refl).
  - apply (onUp_final_position ABCD (mkReorderDrag "A" 5 0 2) 0 (act "A")
             Hnd Hids eq_refl eq_refl).
Defined.

(** X15. A release that does not belong to the drag changes nothing: when
    the event's pointer is not the pointer that started the drag, or when no
    activity has the dragged id any more, [onUp] returns the list as it
    is. *)
Theorem onUp_ignored (acts : list Activity) (drag : ReorderDrag) (evPointer : Z) :
  evPointer ≠ pointerId drag ∨ drag_id drag ∉ id <$> acts →
  onUp acts drag evPointer = acts.
Proof.
  intros [Hptr|Hgone]; unfold onUp.
  - by rewrite (proj2 (Z.eqb_neq _ _) Hptr).
  - destruct (negb _); [done|].
    rewrite findIndex_none; [done|].
    intros b Hb. apply bool_decide_eq_false. intros Heq.
    apply Hgone. rewrite <- Heq. by apply list_elem_of_fmap_2.
Qed.

Lemma onUp_ignored_witness :
  onUp ABCD (mkReorderDrag "A" 5 0 2) 6 = ABCD
  ∧ onUp ABCD (mkReorderDrag "E" 5 0 2) 5 = ABCD.
Proof.
  split.
  - apply (onUp_ignored ABCD (mkReorderDrag "A" 5 0 2) 6). left. cbn. lia.
  - apply (onUp_ignored ABCD (mkReorderDrag "E" 5 0 2) 5). right.
    refine (bool_decide_unpack _ _). vm_compute. exact I.
Defined.

(** ** The plans of the application *)

Section Plans.
Implicit Types (st : AppState) (ap p : Plan).



End Plans.



(** X17. The effect that keeps [activePlanId] valid: with at least one
    plan, the id afterwards is the id of one of the plans; the plans are
    untouched; running the effect again changes nothing; and unless the id
    before was the empty string, the active plan is the same before and
    after. *)
Theorem keepActiveValid_names_a_plan (st : AppState) :
  app_plans st ≠ [] →
  (∃ p, p ∈ app_plans st ∧ app_activePlanId (keepActiveValid st) = Some (plan_id p))
  ∧ app_plans (keepActiveValid st) = app_plans st
  ∧ keepActiveValid (keepActiveValid st) = keepActiveValid st
  ∧ (app_activePlanId st ≠ Some "" →
     activePlan (keepActiveValid st) = activePlan st).
Proof.
  destruct st as [plans aid]. cbn [app_plans app_activePlanId].
  intros Hne. destruct plans as [|p0 ps]; [done|].
  assert (keepActiveValid (mkApp (p0 :: ps) (Some (plan_id p0)))
          = mkApp (p0 :: ps) (Some (plan_id p0))) as Hfix.
  { unfold keepActiveValid. cbn [app_plans app_activePlanId existsb].
    rewrite bool_decide_true by done. cbn [orb negb].
    by destruct (truthy (Some (plan_id p0))). }
  assert (∀ aid', Forall (λ p, Some (plan_id p) ≠ aid') (p0 :: ps) →
            activePlan (mkApp (p0 :: ps) (Some (plan_id p0)))
            = activePlan (mkApp (p0 :: ps) aid')) as Hactive.
  { intros aid' Hnone. unfold activePlan. cbn [app_plans app_activePlanId].
    rewrite (proj2 (list_find_None (λ p, Some (plan_id p) = aid') (p0 :: ps)))
      by done.
    cbn [list_find]. by rewrite decide_True. }
  assert (keepActiveValid (mkApp (p0 :: ps) aid)
          = if truthy aid
               && existsb (λ p, bool_decide (Some (plan_id p) = aid)) (p0 :: ps)
            then mkApp (p0 :: ps) aid
            else mkApp (p0 :: ps) (Some (plan_id p0))) as Hk.
  { unfold keepActiveValid. cbn [app_plans app_activePlanId].
    by destruct (truthy aid), (existsb _ (p0 :: ps)). }
  destruct (truthy aid) eqn:Htruthy; cbn [andb] in Hk.
  - destruct (existsb _ (p0 :: ps)) eqn:Hex.
    + rewrite !Hk. cbn [app_plans app_activePlanId]. split; [|done].
      apply existsb_exists in Hex
        as (p & Hp%list_elem_of_In & Hid%bool_decide_eq_true).
      by exists p.
    + rewrite !Hk, Hfix. cbn [app_plans app_activePlanId].
      split; [exists p0; split; [constructor|done]|]. split; [done|].
      split; [done|]. intros _. apply Hactive.
      apply Forall_forall. intros p Hp Heq.
      assert (existsb (λ p, bool_decide (Some (plan_id p) = aid)) (p0 :: ps) = true)
        as Hex'; [|congruence].
      apply existsb_exists. exists p. split; [by apply list_elem_of_In|].
      by apply bool_decide_eq_true.
  - rewrite !Hk, Hfix. cbn [app_plans app_activePlanId].
    split; [exists p0; split; [constructor|done]|]. split; [done|].
    split; [done|]. intros Hnotempty. apply Hactive.
    apply Forall_forall. intros p Hp Heq. subst aid. cbn in Htruthy.
    destruct (decide (plan_id p = "")) as [Hp0|]; [|done].
    by rewrite Hp0 in Hnotempty.
Qed.

Lemma keepActiveValid_names_a_plan_witness :
  app_activePlanId
    (keepActiveValid
       (mkApp [makeDefaultPlan "p_1" "One"; makeDefaultPlan "p_2" "Two"]
          (Some "p_9")))
  = Some "p_1".
Proof.
  destruct (keepActiveValid_names_a_plan
              (mkApp [makeDefaultPlan "p_1" "One"; makeDefaultPlan "p_2" "Two"]
                 (Some "p_9"))) as (_ & _ & _ & _); [discriminate|].
  reflexivity.
Defined.

Section PlanModal.
Implicit Types (st : AppState) (m : ModalState) (ap p : Plan).



Lemma name_valid_commit (trimmed : string) :
  trimmed ≠ "" → (String.length trimmed ≤ 60)%nat →
  (if bool_decide (trimmed = "") then Some "Please enter a name."
   else if (60 <? String.length trimmed)%nat then Some "Name is too long."
        else None) = None.
Proof.
  intros Hne Hlen. rewrite bool_decide_false by done.
  by destruct (Nat.ltb_spec 60 (String.length trimmed)); [lia|].
Qed.
End PlanModal.

(** X18. [commitPlanModal] refuses a bad name: in every mode but delete, an
    empty trimmed name or one longer than 60 leaves the plans and the active
    plan id as they are, leaves the modal as open as it was and reports an
    error. *)
Theorem commitPlanModal_rejects_bad_name
  (mode : PlanModalMode) (trimmed newId : string) (st : AppState) (m : ModalState) :
  mode ≠ modal_delete →
  trimmed = "" ∨ (60 < String.length trimmed)%nat →
  ∃ message,
    commitPlanModal mode trimmed newId st m
    = Some (st, mkModal (planModalOpen m) (Some message)).
Proof.
  intros Hmode Hbad. unfold commitPlanModal.
  assert ((if bool_decide (trimmed = "") then Some "Please enter a name."
           else if (60 <? String.length trimmed)%nat then Some "Name is too long."
                else None) ≠ None) as Hinvalid.
  { destruct Hbad as [->|Hlong]; [done|].
    destruct (bool_decide (trimmed = "")); [done|].
    by destruct (Nat.ltb_spec 60 (String.length trimmed)); [|lia]. }
  destruct mode; try done;
    destruct (if bool_decide (trimmed = "") then _ else _) as [message|];
    try done; by exists message.
Qed.

Lemma commitPlanModal_rejects_bad_name_witness :
  ∃ message,
    commitPlanModal modal_rename "" "p_2"
      (mkApp [makeDefaultPlan "p_1" "One"] (Some "p_1")) (mkModal true None)
    = Some (mkApp [makeDefaultPlan "p_1" "One"] (Some "p_1"),
            mkModal true (Some message)).
Proof.
  apply (commitPlanModal_rejects_bad_name modal_rename "" "p_2"
           (mkApp [makeDefaultPlan "p_1" "One"] (Some "p_1")) (mkModal true None)).
  - discriminate.
  - by left.
Defined.



(** X20. Creating a plan: with a non-empty trimmed name of at most 60
    characters, [commitPlanModal] in new mode appends the default plan of
    that name and id after the existing plans, which are unchanged, makes its
    id the active id and closes the modal.  The new plan satisfies the plan
    invariants, and when no existing plan has its id it is the active
    plan. *)
Theorem commitPlanModal_new_appends
  (trimmed newId : string) (st : AppState) (m : ModalState) :
  trimmed ≠ "" → (String.length trimmed ≤ 60)%nat →
  commitPlanModal modal_new trimmed newId st m
  = Some (mkApp (app_plans st ++ [makeDefaultPlan newId trimmed]) (Some newId),
          mkModal false (planModalError m))
  ∧ plan_invariant (makeDefaultPlan newId trimmed)
  ∧ (newId ∉ plan_id <$> app_plans st →
     activePlan (mkApp (app_plans st ++ [makeDefaultPlan newId trimmed]) (Some newId))
     = Some (makeDefaultPlan newId trimmed)).
Proof.
  intros Hne Hlen. unfold commitPlanModal.
  rewrite (name_valid_commit trimmed Hne Hlen).
  split; [done|]. split; [apply plan_invariant_default|].
  intros Hfresh. unfold activePlan. cbn [app_plans app_activePlanId].
  rewrite list_find_app_r.
  - cbn [list_find]. by rewrite decide_True.
  - apply list_find_None, Forall_forall. intros p Hp [= Heq].
    apply Hfresh. rewrite <- Heq. by apply list_elem_of_fmap_2.
Qed.

Lemma commitPlanModal_new_appends_witness :
  commitPlanModal modal_new "Holiday" "p_2"
    (mkApp [makeDefaultPlan "p_1" "One"] (Some "p_1")) (mkModal true None)
  = Some (mkApp [makeDefaultPlan "p_1" "One"; makeDefaultPlan "p_2" "Holiday"]
            (Some "p_2"),
          mkModal false None).
Proof.
  apply (commitPlanModal_new_appends "Holiday" "p_2"
           (mkApp [makeDefaultPlan "p_1" "One"] (Some "p_1")) (mkModal true None)).
  - discriminate.
  - cbn. lia.
Defined.

(** X21. Renaming changes names only: with a valid name and an active plan,
    [commitPlanModal] in rename mode keeps the number and the order of the
    plans, their ids, activities, grids, selections and tools, and the active
    plan id; the plans with the active plan's id get the new name and the
    others keep theirs. *)
Theorem commitPlanModal_rename_names_only
  (trimmed newId : string) (st : AppState) (m : ModalState) (ap : Plan) :
  trimmed ≠ "" → (String.length trimmed ≤ 60)%nat → activePlan st = Some ap →
  ∃ st',
    commitPlanModal modal_rename trimmed newId st m
    = Some (st', mkModal false (planModalError m))
    ∧ app_activePlanId st' = app_activePlanId st
    ∧ length (app_plans st') = length (app_plans st)
    ∧ ∀ (j : nat) p, app_plans st !! j = Some p →
        ∃ p', app_plans st' !! j = Some p'
              ∧ plan_id p' = plan_id p
              ∧ activities p' = activities p
              ∧ grid p' = grid p
              ∧ selectedActivityId p' = selectedActivityId p
              ∧ tool p' = tool p
              ∧ plan_name p'
                = if decide (plan_id p = plan_id ap) then trimmed else plan_name p.
Proof.
  intros Hne Hlen Hap. unfold commitPlanModal.
  rewrite (name_valid_commit trimmed Hne Hlen), Hap. cbn [mbind option_bind].
  eexists. split; [reflexivity|]. cbn [app_plans app_activePlanId].
  split; [done|]. split; [by rewrite length_fmap|].
  intros j p Hp. rewrite list_lookup_fmap, Hp. cbn.
  eexists. split; [reflexivity|].
  by destruct (decide (plan_id p = plan_id ap)).
Qed.

Lemma commitPlanModal_rename_names_only_witness :
  ∃ st',
    commitPlanModal modal_rename "Work week" "p_9"
      (mkApp [makeDefaultPlan "p_1" "One"; makeDefaultPlan "p_2" "Two"] (Some "p_2"))
      (mkModal true None)
    = Some (st', mkModal false None)
    ∧ length (app_plans st') = 2%nat.
Proof.
  destruct (commitPlanModal_rename_names_only "Work week" "p_9"
              (mkApp [makeDefaultPlan "p_1" "One"; makeDefaultPlan "p_2" "Two"]
                 (Some "p_2")) (mkModal true None) (makeDefaultPlan "p_2" "Two"))
    as (st' & Hcommit & _ & Hlen & _).
  - discriminate.
  - cbn. lia.
  - reflexivity.
  - by exists st'.
Defined.

Section InsertIndex.
Context {Y : Type} (ltY : Y → Y → bool) (midY : string → option Y) (clientY : Y).

(** The first measured row whose midpoint is below the pointer. *)
Lemma entries_find (l : list string) :
  match list_find (λ e, ltY clientY e.2 = true)
          (omap (λ x, (λ y, (x, y)) <$> midY x) l) with
  | Some (_, (x, y)) =>
      midY x = Some y ∧ ltY clientY y = true
      ∧ ∃ j : nat,
          l !! j = Some x
          ∧ findIndex (λ x', bool_decide (Some x' = Some x)) l = Z.of_nat j
          ∧ ∀ (j' : nat) x' y', (j' < j)%nat → l !! j' = Some x' →
              midY x' = Some y' → ltY clientY y' = false
  | None => ∀ x y, x ∈ l → midY x = Some y → ltY clientY y = false
  end.
Proof.
  induction l as [|x0 l IH]; [by intros x y ?%elem_of_nil|].
  cbn [omap list_omap]. destruct (midY x0) as [y0|] eqn:Hy0; cbn [fmap option_fmap option_map].
  - cbn [list_find]. destruct (decide (ltY clientY (x0, y0).2 = true)) as [Hlt|Hnlt].
    + cbn in Hlt. split; [done|]. split; [done|]. exists 0%nat.
      split; [done|]. split; [|intros; lia].
      cbn [findIndex]. by rewrite bool_decide_true.
    + cbn in Hnlt. apply not_true_is_false in Hnlt.
      destruct (list_find _ (omap _ l)) as [[i [x y]]|]; cbn.
      * destruct IH as (Hy & Hlt & j & Hj & Hidx & Hbefore).
        split; [done|]. split; [done|]. exists (S j). split; [done|].
        assert (x0 ≠ x) as Hne by (intros ->; congruence).
        split.
        { cbn [findIndex]. rewrite bool_decide_false by congruence.
          rewrite Hidx. destruct (Z.ltb_spec (Z.of_nat j) 0); lia. }
        intros [|j'] x' y' Hj' Hx' Hy'; cbn in Hx'.
        -- injection Hx' as <-. congruence.
        -- apply (Hbefore j' x' y'); [lia|done..].
      * intros x y [->|Hin]%elem_of_cons Hy; [congruence|].
        by apply (IH x y).
  - destruct (list_find _ (omap _ l)) as [[i [x y]]|]; cbn.
    + destruct IH as (Hy & Hlt & j & Hj & Hidx & Hbefore).
      split; [done|]. split; [done|]. exists (S j). split; [done|].
      assert (x0 ≠ x) as Hne by (intros ->; congruence).
      split.
      { cbn [findIndex]. rewrite bool_decide_false by congruence.
        rewrite Hidx. destruct (Z.ltb_spec (Z.of_nat j) 0); lia. }
      intros [|j'] x' y' Hj' Hx' Hy'; cbn in Hx'.
      * injection Hx' as <-. congruence.
      * apply (Hbefore j' x' y'); [lia|done..].
    + intros x y [->|Hin]%elem_of_cons Hy; [congruence|].
      by apply (IH x y).
Qed.
End InsertIndex.

(** X22. What [computeInsertIndex] reports, for any comparison of
    coordinates and any measured midpoints.  The insertion index is a
    position of the list of ids without the dragged one, from 0 to its
    length, and the indicator is never the dragged id.  When the indicator is
    above a row, that row is the one at the insertion index, it is measured,
    the pointer is above its midpoint, and the pointer is not above the
    midpoint of any measured row before it.  When the indicator is below, the
    insertion index is the length of that list and the indicator is on its
    last id; and then, if no id is empty, the pointer is not above the
    midpoint of any measured row. *)
Theorem computeInsertIndex_hint {Y : Type} (ltY : Y → Y → bool)
  (midY : string → option Y) (acts : list Activity) (clientY : Y)
  (draggedId : string) :
  let without := filter (λ x, x ≠ draggedId) (id <$> acts) in
  let h := computeInsertIndex ltY midY acts clientY draggedId in
  0 ≤ hint_insertIndex h ≤ Z.of_nat (length without)
  ∧ hint_indicatorId h ≠ Some draggedId
  ∧ (hint_indicatorPos h = above →
     ∃ (j : nat) x y,
       hint_insertIndex h = Z.of_nat j ∧ without !! j = Some x
       ∧ hint_indicatorId h = Some x
       ∧ midY x = Some y ∧ ltY clientY y = true
       ∧ ∀ (j' : nat) x' y', (j' < j)%nat → without !! j' = Some x' →
           midY x' = Some y' → ltY clientY y' = false)
  ∧ (hint_indicatorPos h = below →
     hint_insertIndex h = Z.of_nat (length without)
     ∧ hint_indicatorId h = last without
     ∧ (Forall (λ a, id a ≠ "") acts →
        ∀ x y, x ∈ without → midY x = Some y → ltY clientY y = false)).
Proof.
  intros without h. unfold h, computeInsertIndex. fold without.
  pose proof (entries_find ltY midY clientY without) as Hfind.
  assert (∀ x, x ∈ without → x ≠ draggedId) as Hwithout.
  { intros x Hx. unfold without in Hx. by apply list_elem_of_filter in Hx as [? _]. }
  destruct (list_find _ (omap _ without)) as [[i [x y]]|];
    cbn [fmap option_fmap option_map fst snd].
  - destruct Hfind as (Hy & Hlt & j & Hj & Hidx & Hbefore).
    pose proof (lookup_lt_Some _ _ _ Hj) as Hjlt.
    destruct (truthy (Some x)) eqn:Hx; cbn [negb hint_insertIndex hint_indicatorId
                                              hint_indicatorPos].
    + rewrite Hidx. split; [lia|]. split.
      { intros [= ->]. apply (Hwithout draggedId); [|done].
        by eapply list_elem_of_lookup_2. }
      split; [|done]. intros _. by exists j, x, y.
    + split; [lia|]. split.
      { intros Hlast. apply last_Some in Hlast as [l' Hl'].
        apply (Hwithout draggedId); [|done]. rewrite Hl'.
        apply elem_of_app. right. constructor. }
      split; [done|]. intros _. split; [done|]. split; [done|].
      intros Hids. exfalso. cbn in Hx.
      destruct (decide (x = "")) as [->|]; [|done].
      assert ("" ∈ id <$> acts) as (a & Ha & Hin)%list_elem_of_fmap.
      { apply list_elem_of_lookup_2 in Hj. unfold without in Hj.
        by apply list_elem_of_filter in Hj as [_ ?]. }
      by apply (proj1 (Forall_forall _ _) Hids a Hin).
  - cbn [truthy negb hint_insertIndex hint_indicatorId hint_indicatorPos].
    split; [lia|]. split.
    { intros Hlast. apply last_Some in Hlast as [l' Hl'].
      apply (Hwithout draggedId); [|done]. rewrite Hl'.
      apply elem_of_app. right. constructor. }
    split; [done|]. intros _. split; [done|]. split; [done|].
    intros _. exact Hfind.
Qed.

Lemma computeInsertIndex_hint_witness :
  computeInsertIndex Z.ltb midY_ABCD ABCD 45 "A" = mkHint 1 (Some "C") above
  ∧ hint_insertIndex (computeInsertIndex Z.ltb midY_ABCD ABCD 90 "A") = 3.
Proof.
  split; [reflexivity|].
  destruct (computeInsertIndex_hint Z.ltb midY_ABCD ABCD 90 "A")
    as (_ & _ & _ & Hbelow).
  destruct Hbelow as (-> & _); reflexivity.
Defined.

(** X23. Pressing and releasing a drag handle.  [startReorder] starts no
    drag for a button other than the primary one or for a row that is not
    mounted.  Otherwise, on a list of distinct non-empty ids, it records the
    item's index as start index and as insertion index; and a release by the
    same pointer without any move in between leaves the item one place
    further down, or in place when it is the last, every other item keeping
    its order. *)
Theorem press_and_release_without_move
  (evButton evPointer : Z) (mounted : string → bool)
  (acts : list Activity) (i : nat) (a : Activity) :
  (evButton ≠ 0 ∨ mounted (id a) = false →
   startReorder evButton evPointer mounted acts (id a) = None)
  ∧ (evButton = 0 → mounted (id a) = true →
     NoDup (id <$> acts) → Forall (λ b, id b ≠ "") acts → acts !! i = Some a →
     ∃ drag,
       startReorder evButton evPointer mounted acts (id a) = Some drag
       ∧ startIndex drag = Z.of_nat i ∧ insertIndex drag = Z.of_nat i
       ∧ onUp acts drag evPointer
           !! Nat.min (i + 1) (length acts - 1) = Some a
       ∧ delete (Nat.min (i + 1) (length acts - 1)) (onUp acts drag evPointer)
         = delete i acts).
Proof.
  split.
  - intros [Hbutton|Hrow]; unfold startReorder.
    + by rewrite (proj2 (Z.eqb_neq _ _) Hbutton).
    + rewrite Hrow. by destruct (negb _).
  - intros -> Hrow Hnd Hids Ha.
    pose proof (lookup_lt_Some _ _ _ Ha) as Hi.
    unfold startReorder. rewrite Hrow. cbn [Z.eqb negb].
    rewrite (findIndex_id acts i a) by (done || intros b; apply bool_decide_eq_true).
    eexists. split; [reflexivity|]. cbn [startIndex insertIndex].
    split; [done|]. split; [done|].
    set (drag := mkReorderDrag (id a) evPointer (Z.of_nat i) (Z.of_nat i)).
    change evPointer with (pointerId drag).
    rewrite (onUp_resolved acts drag i a Hnd Hids Ha eq_refl).
    assert (resolved_index (Z.of_nat (length acts)) (Z.of_nat i) (insertIndex drag)
            = Z.of_nat (Nat.min (i + 1) (length acts - 1))) as Ht.
    { unfold resolved_index. cbn [insertIndex drag].
      destruct (Z.ltb_spec (Z.max 0 (Z.min (Z.of_nat (length acts) - 1) (Z.of_nat i)))
                  (Z.of_nat i)); lia. }
    rewrite Ht.
    destruct (reorderByIndex_position acts i
                (Z.of_nat (Nat.min (i + 1) (length acts - 1))) a Ha) as [Hpos Hrest];
      [lia|].
    rewrite Nat2Z.id in Hpos, Hrest. done.
Qed.

Lemma press_and_release_without_move_witness :
  ∃ drag,
    startReorder 0 7 (λ _, true) ABCD "B" = Some drag
    ∧ id <$> onUp ABCD drag 7 = ["A"; "C"; "B"; "D"].
Proof.
  destruct (press_and_release_without_move 0 7 (λ _, true) ABCD 1 (act "B"))
    as [_ Hpress].
  destruct Hpress as (drag & Hstart & _); try done.
  - refine (bool_decide_unpack _ _). vm_compute. exact I.
  - repeat constructor; done.
  - exists drag. split; [exact Hstart|].
    cbn in Hstart. injection Hstart as <-. reflexivity.
Defined.

Section ExportPayload.
Implicit Types (p : Plan).

Lemma plan_json_ok p : plan_ok (plan_json p) = true ↔ wf_grid (grid p).
Proof.
  rewrite plan_ok_shape. unfold plan_shape, wf_grid. split.
  - intros (_ & _ & _ & _ & cols & Hcols & Hlen & Hall).
    assert (cols = (λ col, JArr (cell_json <$> col)) <$> grid p) as ->
      by (cbv in Hcols; by injection Hcols as <-).
    rewrite length_fmap in Hlen. split; [done|].
    apply Forall_forall. intros col Hcol.
    destruct (proj1 (Forall_forall _ _) Hall (JArr (cell_json <$> col)))
      as (cells & [= <-] & Hcells).
    { by apply (list_elem_of_fmap_2 (λ col, JArr (cell_json <$> col))). }
    by rewrite length_fmap in Hcells.
  - intros [Hlen Hall].
    split; [done|]. split; [by eexists|]. split; [by eexists|].
    split; [by eexists|]. eexists. split; [reflexivity|].
    split; [by rewrite length_fmap|].
    apply Forall_forall. intros c (col & -> & Hcol)%list_elem_of_fmap.
    eexists. split; [reflexivity|]. rewrite length_fmap.
    by apply (proj1 (Forall_forall _ _) Hall).
Qed.
End ExportPayload.

(** X24. The application can import what it exports.  Importing the
    payload of [openExport] for the plans [plans] and the active plan [ap]
    is accepted exactly when there is at least one plan and every plan's grid
    is 7 x 288; it then adopts the JSON values of those plans, in order, and
    makes [ap]'s id the active plan id. *)
Theorem export_then_import (st : ImportState) (ap : Plan) (plans : list Plan) :
  (accepted (applyImport st (ParseOk (export_payload ap plans)))
   ↔ plans ≠ [] ∧ Forall (λ p, wf_grid (grid p)) plans)
  ∧ (plans ≠ [] → Forall (λ p, wf_grid (grid p)) plans →
     applyImport st (ParseOk (export_payload ap plans))
     = mkImportState (plan_json <$> plans) (Some (plan_id ap))
         (Some (status_ok, "Imported successfully."))).
Proof.
  assert (∀ ps : list Plan,
            forallb plan_ok (plan_json <$> ps) = true
            ↔ Forall (λ p, wf_grid (grid p)) ps) as Hall.
  { intros ps. rewrite forallb_forall, Forall_forall. split.
    - intros H p Hp. apply plan_json_ok, H, list_elem_of_In.
      by apply list_elem_of_fmap_2.
    - intros H q (p & -> & Hp)%list_elem_of_In%list_elem_of_fmap.
      by apply plan_json_ok, H. }
  assert (plans ≠ [] → Forall (λ p, wf_grid (grid p)) plans →
          applyImport st (ParseOk (export_payload ap plans))
          = mkImportState (plan_json <$> plans) (Some (plan_id ap))
              (Some (status_ok, "Imported successfully."))) as Hok.
  { intros Hne Hwf. destruct plans as [|p0 ps]; [done|].
    unfold applyImport.
    change (is_object (export_payload ap (p0 :: ps))) with true.
    change (as_array (get_field (export_payload ap (p0 :: ps)) "plans"))
      with (Some (plan_json p0 :: (plan_json <$> ps))).
    cbn [negb].
    change (plan_json p0 :: (plan_json <$> ps)) with (plan_json <$> p0 :: ps).
    rewrite (proj2 (Hall (p0 :: ps)) Hwf). done. }
  split; [|done]. split.
  - intros Hacc.
    destruct (applyImport_outcome st (ParseOk (export_payload ap plans)))
      as [(_ & _ & reason & Hrej)|(_ & v & p0 & ps & [= <-] & _ & Hget & Hshape & _)].
    { unfold accepted in Hacc. congruence. }
    assert (plan_json <$> plans = p0 :: ps) as Hplans.
    { change (get_field (export_payload ap plans) "plans")
        with (Some (JArr (plan_json <$> plans))) in Hget.
      by injection Hget. }
    split; [by destruct plans|].
    apply Hall. rewrite Hplans. apply forallb_forall.
    intros q Hq%list_elem_of_In. apply plan_ok_shape.
    by apply (proj1 (Forall_forall _ _) Hshape).
  - intros [Hne Hwf]. by rewrite Hok.
Qed.

Lemma export_then_import_witness :
  plans (applyImport state0
           (ParseOk (export_payload plan_hour [plan_empty; plan_hour])))
  = [plan_json plan_empty; plan_json plan_hour]
  ∧ activePlanId (applyImport state0
                    (ParseOk (export_payload plan_hour [plan_empty; plan_hour])))
    = Some "p".
Proof.
  destruct (export_then_import state0 plan_hour [plan_empty; plan_hour])
    as [_ Himport].
  rewrite Himport; [done|done|].
  repeat constructor.
Defined.



Section Labels.
Local Open Scope nat_scope.

Lemma seq_inj_of_NoDup {A} (f : nat → A) (k : nat) :
  NoDup (f <$> seq 0 k) → ∀ i j, i < k → j < k → f i = f j → i = j.
Proof.
  intros Hnd i j Hi Hj Heq.
  apply (NoDup_lookup _ i j (f i) Hnd).
  - by rewrite list_lookup_fmap, lookup_seq_lt.
  - by rewrite list_lookup_fmap, lookup_seq_lt, Heq.
Qed.

Lemma seq_all_of_Forall (P : nat → Prop) (k : nat) :
  Forall P (seq 0 k) → ∀ i, i < k → P i.
Proof.
  intros Hall i Hi. apply (proj1 (Forall_forall _ _) Hall).
  apply elem_of_seq. lia.
Qed.

Lemma string_length_app (s t : string) :
  String.length (s +:+ t) = String.length s + String.length t.
Proof. induction s as [|c s IH]; [done|]. simpl. f_equal. exact IH. Qed.

Lemma string_app_cons (c : Ascii.ascii) (s t : string) :
  String c s +:+ t = String c (s +:+ t).
Proof. reflexivity. Qed.

Lemma string_app_assoc (s t u : string) : (s +:+ t) +:+ u = s +:+ t +:+ u.
Proof.
  induction s as [|c s IH]; [done|]. rewrite !string_app_cons. by rewrite IH.
Qed.

(** Two concatenations with tails of equal length agree part by part. *)
Lemma string_app_inj (s1 : string) : ∀ s2 t1 t2,
  String.length t1 = String.length t2 → s1 +:+ t1 = s2 +:+ t2 →
  s1 = s2 ∧ t1 = t2.
Proof.
  induction s1 as [|c s1 IH]; intros [|c' s2] t1 t2 Hlen Heq.
  - done.
  - apply (f_equal String.length) in Heq.
    rewrite !string_length_app in Heq. cbn [String.length] in Heq. lia.
  - apply (f_equal String.length) in Heq.
    rewrite !string_length_app in Heq. cbn [String.length] in Heq. lia.
  - injection Heq as -> Heq. destruct (IH s2 t1 t2 Hlen Heq) as [-> ->]. done.
Qed.

Lemma labels_distinct : NoDup (timeLabelForRow <$> seq 0 288).
Proof. refine (bool_decide_unpack _ _). vm_compute. exact I. Qed.

Lemma labels_length :
  Forall (λ r, String.length (timeLabelForRow r) = 5) (seq 0 288).
Proof. refine (bool_decide_unpack _ _). vm_compute. exact I. Qed.

Lemma minute_tails_distinct :
  NoDup ((λ m, "h " +:+ pad2 m +:+ "m") <$> seq 0 60).
Proof. refine (bool_decide_unpack _ _). vm_compute. exact I. Qed.

Lemma minute_tails_length :
  Forall (λ m, String.length ("h " +:+ pad2 m +:+ "m") = 5) (seq 0 60).
Proof. refine (bool_decide_unpack _ _). vm_compute. exact I. Qed.
End Labels.

(** X26. The time labels of the rows.  Each of the 288 rows of a day has a
    label of five characters, and no two rows have the same label.  The
    label of a range of rows is the label of its first row, a dash, and the
    label of the row after its last. *)
Theorem timeLabelForRow_distinct (r1 r2 : nat) :
  (r1 < 288)%nat → (r2 < 288)%nat →
  String.length (timeLabelForRow r1) = 5%nat
  ∧ (timeLabelForRow r1 = timeLabelForRow r2 → r1 = r2)
  ∧ ∀ numRows,
      timeRangeLabel r1 numRows
      = timeLabelForRow r1 +:+ "-" +:+ timeLabelForRow (r1 + numRows).
Proof.
  intros H1 H2. split; [|split].
  - by apply (seq_all_of_Forall _ 288 labels_length).
  - by apply (seq_inj_of_NoDup _ 288 labels_distinct).
  - intros numRows. unfold timeRangeLabel, timeLabelForRow. cbn zeta.
    generalize (pad2 (r1 * 5 / 60)) (pad2 ((r1 * 5) mod 60))
      (pad2 ((r1 + numRows) * 5 / 60)) (pad2 (((r1 + numRows) * 5) mod 60)).
    intros s1 s2 s3 s4. by rewrite !string_app_assoc.
Qed.

Lemma timeLabelForRow_distinct_witness :
  String.length (timeLabelForRow 143) = 5%nat
  ∧ timeRangeLabel 276 12 = "23:00-24:00".
Proof.
  destruct (timeLabelForRow_distinct 143 276) as (Hlen & _ & _); [lia..|].
  destruct (timeLabelForRow_distinct 276 0) as (_ & _ & Hrange); [lia..|].
  split; [exact Hlen|]. rewrite Hrange. reflexivity.
Defined.

(** X27. [formatMinutes] never shows two different durations alike: equal
    texts come from equal numbers of minutes. *)
Theorem formatMinutes_injective (a b : nat) :
  formatMinutes a = formatMinutes b → a = b.
Proof.
  unfold formatMinutes. cbn zeta. intros Heq.
  assert (a mod 60 < 60 ∧ b mod 60 < 60)%nat as [Ha Hb]
    by (split; apply Nat.mod_upper_bound; lia).
  apply string_app_inj in Heq as [Hh Hm].
  - apply (inj pretty) in Hh.
    apply (seq_inj_of_NoDup _ 60 minute_tails_distinct) in Hm; [|done..].
    rewrite (Nat.div_mod_eq a 60), (Nat.div_mod_eq b 60). by rewrite Hh, Hm.
  - rewrite (seq_all_of_Forall _ 60 minute_tails_length (a mod 60)) by done.
    by rewrite (seq_all_of_Forall _ 60 minute_tails_length (b mod 60)).
Qed.

Lemma formatMinutes_injective_witness :
  formatMinutes 65 = "1h 05m" ∧ (formatMinutes 65 = formatMinutes 65 → 65 = 65)%nat.
Proof.
  split; [reflexivity|]. apply (formatMinutes_injective 65 65).
Defined.
